(** * MEGA Manager: a shallow embedding of [src/megaManager.py] and
    [src/libs/lib.py], and the properties of its persistent list store,
    compression pipelines, remote pruning pipeline and thread orchestrator.

    [src/megaManager.py] carries unresolved merge markers; the embedding
    follows the [HEAD] side of every conflict hunk.

    Methods are statements in a state-and-exception monad.  The state holds
    the object's mutable attributes, the local disk and the list of calls
    made to the external tools; logging is left out. *)

From Stdlib Require Import String Ascii List Bool Arith Lia.
From stdpp Require Import base option list strings gmap.

(** ** Python values and library functions used by the program *)

Module Py.

(** Exceptions the modelled calls can raise. *)
Inductive exn : Type :=
| WindowsError   (* os.remove / os.rename refused by the OS *)
| IOError        (* a file could not be opened for writing *)
| ValueError     (* numpy.load on bytes that are no archive *)
| AttributeError. (* data.f.<name> on an archive without that member *)

Inductive result (A : Type) : Type :=
| Return (a : A)
| Raise (e : exn).
Arguments Return {A} a.
Arguments Raise {A} e.

(** Statements that mutate a state [S] and may raise.  The state reached
    when an exception is raised is kept: Python does not roll back. *)
Definition M (S A : Type) : Type := S -> result A * S.

Definition ret {S A} (a : A) : M S A := fun s => (Return a, s).
Definition raise {S A} (e : exn) : M S A := fun s => (Raise e, s).
Definition bind {S A B} (m : M S A) (k : A -> M S B) : M S B :=
  fun s => match m s with
           | (Return a, s') => k a s'
           | (Raise e, s') => (Raise e, s')
           end.
Definition get {S} : M S S := fun s => (Return s, s).
Definition gets {S A} (f : S -> A) : M S A := fun s => (Return (f s), s).
Definition modify {S} (f : S -> S) : M S unit := fun s => (Return tt, f s).

(** [try: body except Exception: handler] *)
Definition try_except {S A} (body : M S A) (handler : exn -> M S A) : M S A :=
  fun s => match body s with
           | (Return a, s') => (Return a, s')
           | (Raise e, s') => handler e s'
           end.

(** [try: body except WindowsError: handler]: other exceptions pass. *)
Definition try_except_WindowsError {S A}
    (body : M S A) (handler : M S A) : M S A :=
  fun s => match body s with
           | (Return a, s') => (Return a, s')
           | (Raise WindowsError, s') => handler s'
           | (Raise e, s') => (Raise e, s')
           end.

(** [try: ... finally: return v]: the [return] of the [finally] clause
    discards any exception still in flight.  [m] computes the value the
    variable holds when the clause runs, [v0] is its value on entry. *)
Definition finally_return {S A} (v0 : A) (m : M S A) : M S A :=
  fun s => match m s with
           | (Return v, s') => (Return v, s')
           | (Raise _, s') => (Return v0, s')
           end.

(** [for x in l: body x], where [l] is not mutated by the body. *)
Fixpoint for_each {S A} (l : list A) (body : A -> M S unit) : M S unit :=
  match l with
  | [] => ret tt
  | x :: l' => bind (body x) (fun _ => for_each l' body)
  end.

(** [for retry in range(n): try: op; break; except: pass] *)
Fixpoint retry_loop {S} (n : nat) (op : M S unit) : M S unit :=
  match n with
  | O => ret tt
  | S n' => fun s => match op s with
                     | (Return _, s') => (Return tt, s')
                     | (Raise _, s') => retry_loop n' op s'
                     end
  end.

(** *** str *)

(** [pat in s] on strings: [pat] occurs as a contiguous substring. *)
Fixpoint contains (pat s : string) : bool :=
  String.prefix pat s ||
  match s with
  | EmptyString => false
  | String _ s' => contains pat s'
  end.

Fixpoint endswith (s suf : string) : bool :=
  String.eqb s suf ||
  match s with
  | EmptyString => false
  | String _ s' => endswith s' suf
  end.

Fixpoint before_last_dot (s : string) : option string :=
  match s with
  | EmptyString => None
  | String c s' =>
      match before_last_dot s' with
      | Some t => Some (String c t)
      | None => if Ascii.eqb c "."%char then Some EmptyString else None
      end
  end.

(** [s.rsplit(".", 1)[0]] *)
Definition rsplit_dot_head (s : string) : string :=
  default s (before_last_dot s).

Fixpoint replace_from (pat repl : string) (skip : nat) (s : string) : string :=
  match s with
  | EmptyString => EmptyString
  | String c s' =>
      match skip with
      | S k => replace_from pat repl k s'
      | O => if String.prefix pat s
             then repl +:+ replace_from pat repl (String.length pat - 1) s'
             else String c (replace_from pat repl 0 s')
      end
  end.

(** The characters that stand for something else than themselves in a
    regular expression of Python's [re]. *)
Definition metacharacter (c : ascii) : bool :=
  existsb (Ascii.eqb c)
    ["."; "^"; "$"; "*"; "+"; "?"; "{"; "}"; "["; "]"; "|"; "("; ")";
     Ascii.ascii_of_nat 92]%char.

(** A pattern that [re] matches literally: it holds no metacharacter. *)
Fixpoint literal_pattern (pat : string) : bool :=
  match pat with
  | EmptyString => true
  | String c pat' => negb (metacharacter c) && literal_pattern pat'
  end.

(** [re.sub(pat, repl, s)] for a [literal_pattern] that is not empty: every
    non-overlapping occurrence, leftmost first, is replaced.  For the
    empty pattern and the empty replacement [re.sub] returns [s].  It is
    what [re.sub] computes for such patterns only: a pattern with
    metacharacters matches other strings, or is refused with [re.error]. *)
Definition re_sub (pat repl s : string) : string :=
  match pat with
  | EmptyString => s
  | _ => replace_from pat repl 0 s
  end.

Definition backslash : ascii := Ascii.ascii_of_nat 92.

Fixpoint slashes (s : string) : string :=
  match s with
  | EmptyString => EmptyString
  | String c s' =>
      String (if Ascii.eqb c backslash then "/"%char else c) (slashes s')
  end.

(** [x in l] on a list of strings. *)
Definition inb (x : string) (l : list string) : bool := bool_decide (x ∈ l).

Fixpoint drop_chars (n : nat) (s : string) : string :=
  match n, s with
  | S k, String _ s' => drop_chars k s'
  | _, _ => s
  end.

(** The leftmost occurrence of [pat] in [s]: what is before it and what is
    after it. *)
Fixpoint cut (pat s : string) : option (string * string) :=
  if String.prefix pat s then Some (EmptyString, drop_chars (String.length pat) s)
  else match s with
       | EmptyString => None
       | String c s' =>
           match cut pat s' with
           | Some (before, after) => Some (String c before, after)
           | None => None
           end
       end.

Fixpoint split_at (turns : nat) (pat s : string) : list string :=
  match turns with
  | O => [s]
  | S n => match cut pat s with
           | None => [s]
           | Some (before, after) => before :: split_at n pat after
           end
  end.

(** [re.split(pat, s)] for a [literal_pattern] that is not empty, and for
    such patterns only.  Every match takes at least one character, so there
    are no more matches than [s] has characters.  For the empty pattern [s]
    is returned unsplit. *)
Definition re_split (pat s : string) : list string :=
  match pat with
  | EmptyString => [s]
  | _ => split_at (String.length s) pat s
  end.

Definition newline : ascii := Ascii.ascii_of_nat 10.

(** The lines a text file yields when iterated over, each with its newline. *)
Fixpoint readlines (s : string) : list string :=
  match s with
  | EmptyString => []
  | String c s' =>
      if Ascii.eqb c newline then String c EmptyString :: readlines s'
      else match readlines s' with
           | [] => [String c EmptyString]
           | l :: ls => String c l :: ls
           end
  end.

(** [re.sub('\\n', '', s)]: every newline is taken out. *)
Fixpoint remove_newlines (s : string) : string :=
  match s with
  | EmptyString => EmptyString
  | String c s' =>
      if Ascii.eqb c newline then remove_newlines s'
      else String c (remove_newlines s')
  end.

(** [re.sub(' - .*', '', s)]: from each [" - "] on, the rest of the line is
    taken out; [.] does not match a newline, which stays.  [dropping] tells
    whether the scan is inside a match. *)
Fixpoint sub_dash_to_eol (dropping : bool) (s : string) : string :=
  match s with
  | EmptyString => EmptyString
  | String c s' =>
      if Ascii.eqb c newline then String c (sub_dash_to_eol false s')
      else if dropping then sub_dash_to_eol true s'
      else if String.prefix " - " s then sub_dash_to_eol true s'
      else String c (sub_dash_to_eol false s')
  end.

(** [" - "] occurs in [s] before its first newline. *)
Fixpoint line_has_dash (s : string) : bool :=
  String.prefix " - " s ||
  match s with
  | EmptyString => false
  | String c s' => if Ascii.eqb c newline then false else line_has_dash s'
  end.

(** [re.sub('.* - ', '', s)]: [.*] is greedy, so on each line everything up
    to and including the last [" - "] is taken out.  [pending] counts the
    characters of a [" - "] just met that are still to be dropped. *)
Fixpoint sub_to_last_dash (pending : nat) (s : string) : string :=
  match s with
  | EmptyString => EmptyString
  | String c s' =>
      if Ascii.eqb c newline then String c (sub_to_last_dash 0 s')
      else if String.prefix " - " s then sub_to_last_dash 2 s'
      else if line_has_dash s' then sub_to_last_dash 0 s'
      else match pending with
           | S k => sub_to_last_dash k s'
           | O => String c (sub_to_last_dash 0 s')
           end
  end.

(** Whitespace as [str.strip()] takes it off ASCII text: tab, newline,
    vertical tab, form feed, carriage return and space. *)
Definition isspace (c : ascii) : bool :=
  let n := nat_of_ascii c in
  (Nat.leb 9 n && Nat.leb n 13) || Nat.eqb n 32.

Fixpoint lstrip (s : string) : string :=
  match s with
  | EmptyString => EmptyString
  | String c s' => if isspace c then lstrip s' else s
  end.

Fixpoint rstrip (s : string) : string :=
  match s with
  | EmptyString => EmptyString
  | String c s' =>
      match rstrip s' with
      | EmptyString => if isspace c then EmptyString else String c EmptyString
      | t => String c t
      end
  end.

(** [s.strip()] *)
Definition strip (s : string) : string := rstrip (lstrip s).

(** A string as a condition: the empty string is false. *)
Definition truthy (s : string) : bool :=
  match s with
  | EmptyString => false
  | String _ _ => true
  end.

End Py.

Import Py.

Notation "'let!' x ':=' m 'in' k" := (bind m (fun x => k))
  (at level 10, x name, m at level 100, k at level 200).
Notation "m ;; k" := (bind m (fun _ => k))
  (at level 100, k at level 200, right associativity).

(** ** The local disk, [os], [os.path] and [numpy] *)

Module OS.

(** A numpy array as this program builds and reads them: a one-dimensional
    array of fixed-width strings (every item padded with NUL characters up
    to [itemsize]), or the empty float array that [array([])] gives. *)
Inductive ndarray : Type :=
| StrArray (itemsize : nat) (items : list string)
| EmptyFloatArray.

Inductive content : Type :=
| Bytes (raw : string)                     (* anything that is no archive *)
| Npz (members : list (string * ndarray)). (* a .npz archive *)

Inductive node : Type :=
| Dir
| File (c : content).

(** [busy] counts, for a path, how many further attempts to delete, rename
    or overwrite it the OS will refuse because another process still holds
    a handle on it. *)
Record Disk : Type := mkDisk {
  files : gmap string node;
  busy : gmap string nat
}.

Definition busy_count (d : Disk) (p : string) : nat := default 0 (busy d !! p).

Definition exists_ (d : Disk) (p : string) : bool :=
  match files d !! p with Some _ => true | None => false end.

Definition isfile (d : Disk) (p : string) : bool :=
  match files d !! p with Some (File _) => true | _ => false end.

Definition refuse (p : string) (d : Disk) : Disk :=
  mkDisk (files d) (<[p := Nat.pred (busy_count d p)]> (busy d)).

(** [os.remove(p)] *)
Definition remove (p : string) : M Disk unit := fun d =>
  match files d !! p with
  | Some (File _) =>
      match busy_count d p with
      | O => (Return tt, mkDisk (delete p (files d)) (busy d))
      | S _ => (Raise WindowsError, refuse p d)
      end
  | _ => (Raise WindowsError, d)
  end.

(** [os.rename(src, dst)]; on Windows an existing [dst] is an error. *)
Definition rename (src dst : string) : M Disk unit := fun d =>
  match files d !! src, files d !! dst with
  | Some n, None =>
      match busy_count d src with
      | O => (Return tt, mkDisk (<[dst := n]> (delete src (files d))) (busy d))
      | S _ => (Raise WindowsError, refuse src d)
      end
  | _, _ => (Raise WindowsError, d)
  end.

(** *** numpy *)

Definition NUL : ascii := Ascii.zero.

Fixpoint nuls (n : nat) : string :=
  match n with O => EmptyString | S k => String NUL (nuls k) end.

Definition pad (width : nat) (s : string) : string :=
  s +:+ nuls (width - String.length s).

Fixpoint rstrip_nul (s : string) : string :=
  match s with
  | EmptyString => EmptyString
  | String c s' =>
      match rstrip_nul s' with
      | EmptyString => if Ascii.eqb c NUL then EmptyString
                       else String c EmptyString
      | t => String c t
      end
  end.

(** [numpy.array(itemList)] on a list of strings. *)
Definition array (itemList : list string) : ndarray :=
  match itemList with
  | [] => EmptyFloatArray
  | _ => let width := Nat.max 1 (max_list (String.length <$> itemList)) in
         StrArray width (pad width <$> itemList)
  end.

(** [a.tolist()]; reading an item drops its trailing NUL characters. *)
Definition tolist (a : ndarray) : list string :=
  match a with
  | StrArray _ items => rstrip_nul <$> items
  | EmptyFloatArray => []
  end.

(** The file [numpy.savez_compressed(file, ...)] writes: [".npz"] is
    appended to a name that does not end with it. *)
Definition npz_name (file : string) : string :=
  if endswith file ".npz" then file else file +:+ ".npz".

(** [numpy.savez_compressed(file, list=a)] *)
Definition savez_compressed (file : string) (a : ndarray) : M Disk unit :=
  fun d =>
    let name := npz_name file in
    match files d !! name with
    | Some Dir => (Raise IOError, d)
    | _ =>
        match busy_count d name with
        | O => (Return tt,
                mkDisk (<[name := File (Npz [("list", a)])]> (files d)) (busy d))
        | S _ => (Raise IOError, refuse name d)
        end
    end.

(** [numpy.load(file=file, allow_pickle=False)] *)
Definition load (file : string) : M Disk (list (string * ndarray)) :=
  fun d =>
    match files d !! file with
    | Some (File (Npz members)) => (Return members, d)
    | Some (File (Bytes _)) => (Raise ValueError, d)
    | _ => (Raise IOError, d)
    end.

Fixpoint assoc (k : string) (members : list (string * ndarray)) : option ndarray :=
  match members with
  | [] => None
  | (k', a) :: rest => if String.eqb k k' then Some a else assoc k rest
  end.

(** [data.f.<name>] *)
Definition member {S} (data : list (string * ndarray)) (name : string)
  : M S ndarray :=
  match assoc name data with
  | Some a => ret a
  | None => raise AttributeError
  end.

End OS.

(** ** [src/libs/lib.py] *)

Module Lib.

Import OS.

(** [Lib.dump_list_into_file] *)
Definition dump_list_into_file (itemList : list string) (filePath : string)
  : M Disk unit :=
  try_except
    (let npList := array itemList in
     savez_compressed filePath npList)
    (fun e => ret tt).

(** [Lib.load_file_as_list] *)
Definition load_file_as_list (filePath : string) : M Disk (list string) :=
  let items := [] in
  let! is_file := gets (fun d => isfile d filePath) in
  if is_file then
    finally_return items
      (try_except
         (let! data := load filePath in
          let! a := member data "list" in
          ret (tolist a))
         (fun e => ret items))
  else
    ret items.

(** [Lib.get_remote_path_from_local_path]; [None] is Python's [None]. *)
Definition get_remote_path_from_local_path (localPath localRoot remoteRoot : string)
  : option string :=
  let localRoot_adj := slashes localRoot in
  let localFilePath_adj := slashes localPath in
  let postfix := re_split localRoot_adj localFilePath_adj in
  if 1 <? length postfix then
    let subPath := nth 1 postfix EmptyString in
    Some (remoteRoot +:+ subPath)
  else
    None.

(** [Lib.get_items_in_list_with_subString] *)
Definition get_items_in_list_with_subString
    (list : Datatypes.list string) (subString : string) : Datatypes.list string :=
  foldl (fun subList item =>
           if contains subString item then subList ++ [item] else subList)
        [] list.

End Lib.

(** ** [src/megaManager.py] *)

Module MegaManager.

Import OS Lib.

(** *** External collaborators

    The classes [MegaTools_Lib], [CompressImages_Lib] and [FFMPEG_Lib] of the
    [libs] package wrap external executables and are not part of the
    sources at hand.  Each is taken as a parameter: a record of the methods
    the program calls, what a call answers being the environment's choice. *)

Record MegaTools_Lib : Type := {
  (* username, password, remotePath *)
  get_remote_file_data_recursively : string -> string -> string -> list string;
  get_file_type_from_megals_line_data : string -> string;
  get_file_extension_from_megals_line_data : string -> string;
  get_file_path_from_megals_line_data : string -> string;
  get_remote_file_paths_recursively : string -> string -> string -> list string;
  (* username, password, remoteFilePath; the answer is the call's outcome *)
  remove_remote_file : string -> string -> string -> bool
}.

(** The transcoders read and write the local disk. *)
Record CompressImages_Lib : Type := {
  compress_image_file : Disk -> string -> bool * Disk
}.

Record FFMPEG_Lib : Type := {
  (* filePath, targetPath *)
  compress_video_file : Disk -> string -> string -> bool * Disk
}.

(** Calls that leave the process, in the order they are made. *)
Inductive event : Type :=
| CompressImage (filePath : string)
| CompressVideo (filePath targetPath : string)
| RemoveRemoteFile (username password remoteFilePath : string)
| ExportAccountsDetails.

#[export] Instance event_eq_dec : EqDecision event.
Proof. solve_decision. Defined.

(** *** Configuration *)

Record PathMapping : Type := {
  localPath : string;
  remotePath : string
}.

Record SyncProfile : Type := {
  profileName : string;
  username : string;
  password : string;
  pathMappings : list PathMapping
}.

Record Config : Type := {
  WORKING_DIR : string;
  localRoot : string;
  remoteRoot : string;
  syncProfiles : list SyncProfile;
  (* [None]: the attribute [self.__foundUserPass] does not exist.  Its one
     assignment, in [_setup], is commented out; it exists only when the
     constructor was given it as a keyword, which [_assign_attributes]
     turns into an attribute. *)
  foundUserPass : option (list (string * string));
  download : bool;
  upload : bool;
  removeRemote : bool;
  removeIncomplete : bool;
  compressAll : bool;
  compressImages : bool;
  compressVideos : bool
}.

Definition COMPRESSION_IMAGE_EXTENSIONS : list string := [".jpg"; ".jpeg"; ".png"].
Definition COMPRESSION_VIDEO_EXTENSIONS : list string := [".avi"; ".mp4"; ".wmv"].

(** *** The object's mutable attributes, the disk and the calls made *)

(** A [threading.Thread]; [ident] stands for the object's identity, which
    is what [list.remove] compares. *)
Record Thread : Type := mkThread {
  ident : nat;
  name : string
}.

#[export] Instance Thread_eq_dec : EqDecision Thread.
Proof. solve_decision. Defined.

Record State : Type := mkState {
  compressedImageFiles : list string;
  unableToCompressImageFiles : list string;
  compressedVideoFiles : list string;
  unableToCompressVideoFiles : list string;
  removedRemoteFiles : list string;
  compressedFiles : list string;     (* the attribute [self.compressedFiles] *)
  threads : list Thread;
  disk : Disk;
  calls : list event
}.

Definition set_compressedImageFiles (v : list string) (s : State) : State :=
  mkState v (unableToCompressImageFiles s) (compressedVideoFiles s)
    (unableToCompressVideoFiles s) (removedRemoteFiles s) (compressedFiles s)
    (threads s) (disk s) (calls s).
Definition set_unableToCompressImageFiles (v : list string) (s : State) : State :=
  mkState (compressedImageFiles s) v (compressedVideoFiles s)
    (unableToCompressVideoFiles s) (removedRemoteFiles s) (compressedFiles s)
    (threads s) (disk s) (calls s).
Definition set_compressedVideoFiles (v : list string) (s : State) : State :=
  mkState (compressedImageFiles s) (unableToCompressImageFiles s) v
    (unableToCompressVideoFiles s) (removedRemoteFiles s) (compressedFiles s)
    (threads s) (disk s) (calls s).
Definition set_unableToCompressVideoFiles (v : list string) (s : State) : State :=
  mkState (compressedImageFiles s) (unableToCompressImageFiles s)
    (compressedVideoFiles s) v (removedRemoteFiles s) (compressedFiles s)
    (threads s) (disk s) (calls s).
Definition set_removedRemoteFiles (v : list string) (s : State) : State :=
  mkState (compressedImageFiles s) (unableToCompressImageFiles s)
    (compressedVideoFiles s) (unableToCompressVideoFiles s) v (compressedFiles s)
    (threads s) (disk s) (calls s).
Definition set_compressedFiles (v : list string) (s : State) : State :=
  mkState (compressedImageFiles s) (unableToCompressImageFiles s)
    (compressedVideoFiles s) (unableToCompressVideoFiles s)
    (removedRemoteFiles s) v (threads s) (disk s) (calls s).
Definition set_threads (v : list Thread) (s : State) : State :=
  mkState (compressedImageFiles s) (unableToCompressImageFiles s)
    (compressedVideoFiles s) (unableToCompressVideoFiles s)
    (removedRemoteFiles s) (compressedFiles s) v (disk s) (calls s).
Definition set_disk (v : Disk) (s : State) : State :=
  mkState (compressedImageFiles s) (unableToCompressImageFiles s)
    (compressedVideoFiles s) (unableToCompressVideoFiles s)
    (removedRemoteFiles s) (compressedFiles s) (threads s) v (calls s).
Definition set_calls (v : list event) (s : State) : State :=
  mkState (compressedImageFiles s) (unableToCompressImageFiles s)
    (compressedVideoFiles s) (unableToCompressVideoFiles s)
    (removedRemoteFiles s) (compressedFiles s) (threads s) (disk s) v.

(** A statement on the disk, run from a method of the object. *)
Definition on_disk {A} (m : M Disk A) : M State A :=
  fun s => let (r, d) := m (disk s) in (r, set_disk d s).

Definition record_call (e : event) : M State unit :=
  modify (fun s => set_calls (calls s ++ [e]) s).

Section Methods.

Variable cfg : Config.
Variable megaTools : MegaTools_Lib.
Variable compressImages_lib : CompressImages_Lib.
Variable ffmpeg : FFMPEG_Lib.

Definition COMPRESSED_IMAGES_FILE : string :=
  WORKING_DIR cfg +:+ "\data\compressed_images.npz".
Definition UNABLE_TO_COMPRESS_IMAGES_FILE : string :=
  WORKING_DIR cfg +:+ "\data\unable_to_compress_images.npz".
Definition COMPRESSED_VIDEOS_FILE : string :=
  WORKING_DIR cfg +:+ "\data\compressed_videos.npz".
Definition UNABLE_TO_COMPRESS_VIDEOS_FILE : string :=
  WORKING_DIR cfg +:+ "\data\unable_to_compress_videos.npz".
Definition REMOVED_REMOTE_FILES : string :=
  WORKING_DIR cfg +:+ "\data\removed_remote_files.npz".

(** [self.__compressImages_lib.compress_image_file(filePath=...)] *)
Definition call_compress_image_file (filePath : string) : M State bool :=
  fun s =>
    let (result, d) := compress_image_file compressImages_lib (disk s) filePath in
    (Return result, set_calls (calls s ++ [CompressImage filePath]) (set_disk d s)).

(** [self.__ffmpeg.compress_video_file(filePath, targetPath=...)] *)
Definition call_compress_video_file (filePath targetPath : string)
  : M State bool :=
  fun s =>
    let (result, d) := compress_video_file ffmpeg (disk s) filePath targetPath in
    (Return result,
     set_calls (calls s ++ [CompressVideo filePath targetPath]) (set_disk d s)).

(** [self.__megaTools.remove_remote_file(username=..., password=...,
    remoteFilePath=...)] *)
Definition call_remove_remote_file (username password remoteFilePath : string)
  : M State bool :=
  record_call (RemoveRemoteFile username password remoteFilePath) ;;
  ret (remove_remote_file megaTools username password remoteFilePath).

(** The body of the [for line in lines] loop of
    [_find_image_files_to_compress]. *)
Definition image_line (localRoot_adj remoteRoot line : string) : M State unit :=
  let remote_type := get_file_type_from_megals_line_data megaTools line in
  let remote_fileExt := get_file_extension_from_megals_line_data megaTools line in
  let remote_filePath := get_file_path_from_megals_line_data megaTools line in
  let file_subPath := re_sub remoteRoot "" remote_filePath in
  let local_filePath := localRoot_adj +:+ file_subPath in
  let! s := get in
  if String.eqb remote_type "0"
     && inb remote_fileExt COMPRESSION_IMAGE_EXTENSIONS
     && isfile (disk s) local_filePath
     && negb (inb local_filePath (compressedImageFiles s))
     && negb (inb local_filePath (unableToCompressImageFiles s))
  then
    let newFilePath := rsplit_dot_head local_filePath +:+ "_NEW.mp4" in
    let! result := call_compress_image_file local_filePath in
    if (result : bool) then
      let compressPath_backup := local_filePath +:+ ".compressimages-backup" in
      let! backup_exists := gets (fun s => exists_ (disk s) compressPath_backup) in
      if (backup_exists : bool) then
        try_except_WindowsError
          (on_disk (OS.remove compressPath_backup)) (ret tt) ;;
        modify (set_compressedFiles []) ;;
        modify (fun s => set_compressedFiles (compressedFiles s ++ [local_filePath]) s) ;;
        let! itemList := gets compressedImageFiles in
        on_disk (dump_list_into_file itemList COMPRESSED_IMAGES_FILE)
      else
        modify (fun s => set_unableToCompressImageFiles
                           (unableToCompressImageFiles s ++ [local_filePath]) s) ;;
        let! itemList := gets unableToCompressImageFiles in
        on_disk (dump_list_into_file itemList UNABLE_TO_COMPRESS_IMAGES_FILE)
    else
      modify (fun s => set_unableToCompressImageFiles
                         (unableToCompressImageFiles s ++ [local_filePath]) s) ;;
      let! itemList := gets unableToCompressImageFiles in
      on_disk (dump_list_into_file itemList UNABLE_TO_COMPRESS_IMAGES_FILE)
  else
    ret tt.

(** [MegaManager._find_image_files_to_compress] *)
Definition _find_image_files_to_compress
    (username password localRoot remoteRoot : string) : M State unit :=
  let localRoot_adj := slashes localRoot in
  let lines :=
    get_remote_file_data_recursively megaTools username password remoteRoot in
  match lines with
  | [] => ret tt
  | _ => for_each lines (image_line localRoot_adj remoteRoot)
  end.

(** The body of the [for line in lines] loop of
    [_find_video_files_to_compress]. *)
Definition video_line (localRoot_adj remoteRoot line : string) : M State unit :=
  let remote_type := get_file_type_from_megals_line_data megaTools line in
  let remote_fileExt := get_file_extension_from_megals_line_data megaTools line in
  let remote_filePath := get_file_path_from_megals_line_data megaTools line in
  let file_subPath := re_sub remoteRoot "" remote_filePath in
  let local_filePath := localRoot_adj +:+ file_subPath in
  let! s := get in
  if String.eqb remote_type "0"
     && inb remote_fileExt COMPRESSION_VIDEO_EXTENSIONS
     && isfile (disk s) local_filePath
     && negb (inb local_filePath (compressedVideoFiles s))
     && negb (inb local_filePath (unableToCompressVideoFiles s))
  then
    let newFilePath := rsplit_dot_head local_filePath +:+ "_NEW.mp4" in
    let! stale := gets (fun s => exists_ (disk s) newFilePath) in
    (if (stale : bool)
     then retry_loop 100 (on_disk (OS.remove newFilePath))
     else ret tt) ;;
    let! result := call_compress_video_file local_filePath newFilePath in
    let! new_exists := gets (fun s => exists_ (disk s) newFilePath) in
    if (result : bool) && new_exists then
      retry_loop 100 (on_disk (OS.remove local_filePath)) ;;
      retry_loop 100
        (on_disk (OS.rename newFilePath (re_sub "_NEW" "" newFilePath))) ;;
      modify (fun s => set_compressedVideoFiles
                         (compressedVideoFiles s ++ [newFilePath]) s) ;;
      let! itemList := gets compressedVideoFiles in
      on_disk (dump_list_into_file itemList COMPRESSED_VIDEOS_FILE)
    else if new_exists then
      on_disk (OS.remove newFilePath)
    else
      ret tt
  else
    ret tt.

(** [MegaManager._find_video_files_to_compress] *)
Definition _find_video_files_to_compress
    (username password localRoot remoteRoot : string) : M State unit :=
  let localRoot_adj := slashes localRoot in
  let lines :=
    get_remote_file_data_recursively megaTools username password remoteRoot in
  match lines with
  | [] => ret tt
  | _ => for_each lines (video_line localRoot_adj remoteRoot)
  end.

(** [MegaManager._get_remote_files_that_dont_exist_locally], from the
    listing on.  The [chdir(self.__megaToolsDir)] before it is not
    modelled: no modelled call reads the working directory, and a [chdir]
    that raises ends the function before anything is changed. *)
Definition _get_remote_files_that_dont_exist_locally
    (username password : string) : M State (list string) :=
  let localRoot_adj := slashes (localRoot cfg) in
  let remoteFiles :=
    get_remote_file_paths_recursively megaTools username password
      (remoteRoot cfg) in
  let! s := get in
  ret (foldl
         (fun dontExistLocally remote_filePath =>
            let file_subPath := re_sub (remoteRoot cfg) "" remote_filePath in
            let local_filePath := localRoot_adj +:+ file_subPath in
            if negb (exists_ (disk s) local_filePath)
            then dontExistLocally ++ [local_filePath]
            else dontExistLocally)
         [] remoteFiles).

(** The inner loop of [_delete_remote_files_that_dont_exist_locally]:
    [for removed_file in self.__removedRemoteFiles], which sets the flag
    and breaks at the first entry that occurs in [filePath]. *)
Fixpoint higherDirRemoved (removed : list string) (filePath : string) : bool :=
  match removed with
  | [] => false
  | removed_file :: rest =>
      if contains removed_file filePath then true
      else higherDirRemoved rest filePath
  end.

(** The body of the [for filePath in dontExistLocally] loop. *)
Definition delete_one (username password filePath : string) : M State unit :=
  let! removed := gets removedRemoteFiles in
  if negb (inb filePath removed) then
    if negb (higherDirRemoved removed filePath) then
      modify (fun s => set_removedRemoteFiles
                         (removedRemoteFiles s ++ [filePath]) s) ;;
      call_remove_remote_file username password filePath ;;
      let! itemList := gets removedRemoteFiles in
      on_disk (dump_list_into_file itemList REMOVED_REMOTE_FILES)
    else ret tt
  else ret tt.

(** [MegaManager._delete_remote_files_that_dont_exist_locally] *)
Definition _delete_remote_files_that_dont_exist_locally
    (username password : string) : M State unit :=
  let! dontExistLocally :=
    _get_remote_files_that_dont_exist_locally username password in
  for_each dontExistLocally (delete_one username password).

(** *** The thread registry *)

(** [self.__threads.append(t); t.start()].  Only the registry is
    modelled; the thread's body runs concurrently. *)
Definition start_thread (thread_name : string) : M State unit :=
  modify (fun s =>
    set_threads (threads s ++ [mkThread (length (threads s)) thread_name]) s).

(** [MegaManager._create_thread_create_profiles_data_file] *)
Definition _create_thread_create_profiles_data_file : M State unit :=
  start_thread "thread_create_profiles_data_file".

(** [MegaManager._create_profiles_data_file], the body of the thread above:
    it registers one detail-gathering thread per profile.  It runs while
    the main flow goes on; [Poll] below lets its threads reach the registry
    at any turn of the wait loop. *)
Definition _create_profiles_data_file : M State unit :=
  for_each (syncProfiles cfg) (fun profile =>
    start_thread ("thread_megaFile_" +:+ profileName profile)).

(** [MegaManager._create_threads_local_unfinished_file_remover] *)
Definition _create_threads_local_unfinished_file_remover : M State unit :=
  for_each (syncProfiles cfg) (fun profile =>
    for_each (pathMappings profile) (fun pathMapping =>
      start_thread ("thread_unfinishedFileRemover_" +:+ profileName profile))).

(** [MegaManager._create_thread_download] *)
Definition _create_thread_download : M State unit :=
  start_thread "thread_download".

(** [MegaManager._create_thread_upload] *)
Definition _create_thread_upload : M State unit :=
  start_thread "thread_upload".

(** [self.__foundUserPass]: reading an attribute that does not exist raises
    [AttributeError]. *)
Definition read_foundUserPass : M State (list (string * string)) :=
  match foundUserPass cfg with
  | Some accounts => ret accounts
  | None => raise AttributeError
  end.

(** [MegaManager._create_threads_removed_remote_file_deletion] *)
Definition _create_threads_removed_remote_file_deletion : M State unit :=
  let! l := on_disk (load_file_as_list REMOVED_REMOTE_FILES) in
  modify (set_removedRemoteFiles l) ;;
  let! accounts := read_foundUserPass in
  for_each accounts (fun account =>
    start_thread ("thread_remoteFileRemover_" +:+ fst account)).

(** [MegaManager._create_thread_compress_image_files] *)
Definition _create_thread_compress_image_files : M State unit :=
  let! l := on_disk (load_file_as_list COMPRESSED_IMAGES_FILE) in
  modify (set_compressedImageFiles l) ;;
  let! l := on_disk (load_file_as_list UNABLE_TO_COMPRESS_IMAGES_FILE) in
  modify (set_unableToCompressImageFiles l) ;;
  start_thread "thread_compressImages".

(** [MegaManager._create_thread_compress_video_files] *)
Definition _create_thread_compress_video_files : M State unit :=
  let! l := on_disk (load_file_as_list COMPRESSED_VIDEOS_FILE) in
  modify (set_compressedVideoFiles l) ;;
  let! l := on_disk (load_file_as_list UNABLE_TO_COMPRESS_VIDEOS_FILE) in
  modify (set_unableToCompressVideoFiles l) ;;
  start_thread "thread_compressVideos".

(** The part of [MegaManager.run] that creates the threads, up to the
    call of [_wait_for_threads_to_finish]. *)
Definition run_create_threads : M State unit :=
  _create_thread_create_profiles_data_file ;;
  (if removeIncomplete cfg
   then _create_threads_local_unfinished_file_remover else ret tt) ;;
  (if download cfg then _create_thread_download else ret tt) ;;
  (if upload cfg then _create_thread_upload else ret tt) ;;
  (if removeRemote cfg
   then _create_threads_removed_remote_file_deletion else ret tt) ;;
  (if compressAll cfg then
     _create_thread_compress_image_files ;;
     _create_thread_compress_video_files
   else if compressImages cfg then
     _create_thread_compress_image_files
   else if compressVideos cfg then
     _create_thread_compress_video_files
   else ret tt).

(** [MegaManager._all_profiles_image_compression] *)
Definition _all_profiles_image_compression : M State unit :=
  for_each (syncProfiles cfg) (fun profile =>
    for_each (pathMappings profile) (fun pathMapping =>
      _find_image_files_to_compress (username profile) (password profile)
        (localPath pathMapping) (remotePath pathMapping))).

(** [MegaManager._all_profiles_video_compression] *)
Definition _all_profiles_video_compression : M State unit :=
  for_each (syncProfiles cfg) (fun profile =>
    for_each (pathMappings profile) (fun pathMapping =>
      _find_video_files_to_compress (username profile) (password profile)
        (localPath pathMapping) (remotePath pathMapping))).

(** Which of the set attributes the object has: each pair of sets is created
    by the function that starts its worker, and reading an attribute that
    was never created raises [AttributeError]. *)
Record Started : Type := {
  started_remote : bool;   (* [_create_threads_removed_remote_file_deletion] ran *)
  started_images : bool;   (* [_create_thread_compress_image_files] ran *)
  started_videos : bool    (* [_create_thread_compress_video_files] ran *)
}.

Definition read_attribute {A} (has : bool) (f : State -> A) : M State A :=
  if has then gets f else raise AttributeError.

(** [Lib.kill_running_processes_with_name]: it acts on other processes only;
    [kill procName] is how the call ends. *)
Definition call_kill (kill : string -> result unit) (procName : string)
  : M State unit :=
  fun s => (kill procName, s).

(** [MegaManager._tear_down] *)
Definition _tear_down (started : Started) (kill : string -> result unit)
  : M State unit :=
  try_except
    ((if removeRemote cfg then
        let! itemList := read_attribute (started_remote started) removedRemoteFiles in
        on_disk (dump_list_into_file itemList REMOVED_REMOTE_FILES)
      else ret tt) ;;
     (if compressImages cfg then
        let! itemList := read_attribute (started_images started) compressedImageFiles in
        on_disk (dump_list_into_file itemList COMPRESSED_IMAGES_FILE) ;;
        let! itemList :=
          read_attribute (started_images started) unableToCompressImageFiles in
        on_disk (dump_list_into_file itemList UNABLE_TO_COMPRESS_IMAGES_FILE)
      else ret tt) ;;
     (if compressVideos cfg then
        let! itemList := read_attribute (started_videos started) compressedVideoFiles in
        on_disk (dump_list_into_file itemList COMPRESSED_VIDEOS_FILE) ;;
        let! itemList :=
          read_attribute (started_videos started) unableToCompressVideoFiles in
        on_disk (dump_list_into_file itemList UNABLE_TO_COMPRESS_VIDEOS_FILE)
      else ret tt) ;;
     call_kill kill "megacopy.exe" ;;
     call_kill kill "megals.exe" ;;
     call_kill kill "megadf.exe" ;;
     call_kill kill "ffmpeg.exe")
    (fun e => ret tt).

End Methods.

(** *** Waiting for the threads *)

(** What the environment shows at one turn of the [while] loop of
    [_wait_for_threads_to_finish]: the threads other threads have appended
    to the registry since the last turn, the reading of [time()], and what
    [isAlive()] answers for a thread during the turn. *)
Record Poll : Type := mkPoll {
  spawned : list Thread;
  now : Z;
  isAlive : Thread -> bool
}.

(** [l.remove(x)]: the first element equal to [x] is taken out. *)
Fixpoint list_remove (x : Thread) (l : list Thread) : list Thread :=
  match l with
  | [] => []
  | y :: l' => if decide (y = x) then l' else y :: list_remove x l'
  end.

(** [for thread in self.__threads], whose body removes from the list it
    iterates over.  Python's list iterator keeps an index [i] and stops
    when [i] reaches the current length.  No turn takes more steps than
    the list is long when it starts, which is what [steps] is given. *)
Fixpoint poll_threads (steps : nat) (alive : Thread -> bool) (i : nat)
    (registry : list Thread) (megaFileThreads_found : bool)
  : list Thread * bool :=
  match steps with
  | O => (registry, megaFileThreads_found)
  | S steps' =>
      match registry !! i with
      | None => (registry, megaFileThreads_found)
      | Some thread =>
          if negb (alive thread) then
            poll_threads steps' alive (S i) (list_remove thread registry)
              megaFileThreads_found
          else if contains "megaFile" (name thread) then
            poll_threads steps' alive (S i) registry true
          else
            poll_threads steps' alive (S i) registry megaFileThreads_found
      end
  end.

Inductive wait_status : Type :=
| Finished     (* the registry is empty: the [while] loop ended *)
| TimedOut     (* the [return] of the timeout branch *)
| Waiting.     (* the environment gave no further poll *)

(** [MegaManager._export_accounts_details_dict]; only the call is
    recorded. *)
Definition _export_accounts_details_dict : M State unit :=
  record_call ExportAccountsDetails.

(** The [while len(self.__threads) > 0] loop of
    [_wait_for_threads_to_finish]. *)
Fixpoint wait_loop (polls : list Poll) (startTime timeout : Z)
    (megaFileFinished : bool) (s : State) : wait_status * State :=
  match polls with
  | [] => (match threads s with [] => Finished | _ => Waiting end, s)
  | poll :: polls' =>
      let s := set_threads (threads s ++ spawned poll) s in
      match threads s with
      | [] => (Finished, s)
      | _ =>
          if negb (timeout <? now poll - startTime)%Z then
            let '(registry, megaFileThreads_found) :=
              poll_threads (length (threads s)) (isAlive poll) 0 (threads s) false in
            let s := set_threads registry s in
            if negb megaFileThreads_found && negb megaFileFinished then
              let s := snd (_export_accounts_details_dict s) in
              wait_loop polls' startTime timeout true s
            else
              wait_loop polls' startTime timeout megaFileFinished s
          else (TimedOut, s)
      end
  end.

(** [MegaManager._wait_for_threads_to_finish]; [startTime] is the first
    reading of [time()]. *)
Definition _wait_for_threads_to_finish (startTime : Z) (polls : list Poll)
    (timeout : Z) (s : State) : wait_status * State :=
  wait_loop polls startTime timeout false s.

(** How many times the export was called. *)
Definition exports (s : State) : nat :=
  length (filter (fun e => e = ExportAccountsDetails) (calls s)).

(** *** The accounts file *)

Section Accounts.

(** The bytes of a [.npz] archive, should one be opened as text. *)
Variable archive_text : list (string * ndarray) -> string.

(** [open(file, "r")] and reading it whole. *)
Definition read_text (file : string) : M Disk string := fun d =>
  match files d !! file with
  | Some (File (Bytes raw)) => (Return raw, d)
  | Some (File (Npz members)) => (Return (archive_text members), d)
  | _ => (Raise IOError, d)
  end.

(** The body of the [for line in ins] loop of [_get_accounts_user_pass]; a
    dict with the keys [user] and [pass] is a pair. *)
Definition account_of_line (foundUserPass : list (string * string)) (line : string)
  : list (string * string) :=
  if contains "-" line && contains "@" line then
    let username := remove_newlines (sub_dash_to_eol false line) in
    let password := remove_newlines (sub_to_last_dash 0 line) in
    foundUserPass ++ [(username, password)]
  else foundUserPass.

(** [MegaManager._get_accounts_user_pass] *)
Definition _get_accounts_user_pass (file : string)
  : M Disk (list (string * string)) :=
  let foundUserPass := [] in
  try_except
    (let! text := read_text file in
     ret (foldl account_of_line foundUserPass (readlines text)))
    (fun e => ret foundUserPass).

End Accounts.

(** *** The configuration file *)

Module ConfigFile.

(** The object [SyncProfile(profileName=..., username=..., password=...,
    pathMappings=...)] as [_import_config_profile_data] builds it: an
    argument is [None] when no line of the block gave it. *)
Record SyncProfileObj : Type := mkSyncProfileObj {
  profileName : option string;
  username : option string;
  password : option string;
  pathMappings : list PathMapping
}.

(** The attributes [_import_config_file_data] assigns; [None] is an
    attribute that has not been assigned. *)
Record Attributes : Type := mkAttributes {
  megaToolsDir : option string;
  ffmpegExePath : option string;
  megaAccountsPath : option string;
  megaAccountsOutputPath : option string;
  syncProfiles : list SyncProfileObj;
  localRoot : option string;
  remoteRoot : option string
}.

(** An open text file is the list of its lines not read yet;
    [readline()] answers the empty string at the end of the file. *)
Definition readline (ins : list string) : string * list string :=
  match ins with
  | [] => (EmptyString, [])
  | line :: rest => (line, rest)
  end.

(** [split('=', line)[1].strip()]; [None] stands for the [IndexError] of
    [[1]] on a line without [=]. *)
Definition value_of (line : string) : option string :=
  strip <$> (re_split "=" line !! 1%nat).

(** The [while] loop of [_import_config_profile_data]; [profile] holds the
    locals [profileName], [username], [password] and [pathMappings].  Every
    turn reads a line, so the loop makes no more turns than the file has
    lines left, plus the one that sees the end. *)
Fixpoint profile_loop (turns : nat) (line : string) (profile : SyncProfileObj)
    (fileObject : list string) : option (SyncProfileObj * list string) :=
  match turns with
  | O => Some (profile, fileObject)
  | S n =>
      if negb (String.prefix "[Profile" line) && truthy line then
        '(profile, fileObject) ←
          (if String.prefix "ProfileName=" line then
             value ← value_of line;
             Some (mkSyncProfileObj (Some value) (username profile)
                     (password profile) (pathMappings profile), fileObject)
           else if String.prefix "Username=" line then
             value ← value_of line;
             Some (mkSyncProfileObj (profileName profile) (Some value)
                     (password profile) (pathMappings profile), fileObject)
           else if String.prefix "Password=" line then
             value ← value_of line;
             Some (mkSyncProfileObj (profileName profile) (username profile)
                     (Some value) (pathMappings profile), fileObject)
           else if String.prefix "LocalPath" line then
             localPath ← value_of line;
             let '(line, fileObject) := readline fileObject in
             if String.prefix "RemotePath" line then
               remotePath ← value_of line;
               let pathMappingObj := Build_PathMapping localPath remotePath in
               Some (mkSyncProfileObj (profileName profile) (username profile)
                       (password profile)
                       (pathMappings profile ++ [pathMappingObj]), fileObject)
             else Some (profile, fileObject)
           else Some (profile, fileObject));
        let '(line, fileObject) := readline fileObject in
        profile_loop n line profile fileObject
      else Some (profile, fileObject)
  end.

(** The result is the profile object and the file as the call leaves it. *)
Definition _import_config_profile_data (fileObject : list string)
  : option (SyncProfileObj * list string) :=
  let turns := S (length fileObject) in
  let '(line, fileObject) := readline fileObject in
  profile_loop turns line (mkSyncProfileObj None None None []) fileObject.

Definition set_megaToolsDir (v : string) (self : Attributes) : Attributes :=
  mkAttributes (Some v) (ffmpegExePath self) (megaAccountsPath self)
    (megaAccountsOutputPath self) (syncProfiles self) (localRoot self)
    (remoteRoot self).
Definition set_ffmpegExePath (v : string) (self : Attributes) : Attributes :=
  mkAttributes (megaToolsDir self) (Some v) (megaAccountsPath self)
    (megaAccountsOutputPath self) (syncProfiles self) (localRoot self)
    (remoteRoot self).
Definition set_megaAccountsPath (v : string) (self : Attributes) : Attributes :=
  mkAttributes (megaToolsDir self) (ffmpegExePath self) (Some v)
    (megaAccountsOutputPath self) (syncProfiles self) (localRoot self)
    (remoteRoot self).
Definition set_megaAccountsOutputPath (v : string) (self : Attributes)
  : Attributes :=
  mkAttributes (megaToolsDir self) (ffmpegExePath self) (megaAccountsPath self)
    (Some v) (syncProfiles self) (localRoot self) (remoteRoot self).
Definition append_syncProfile (p : SyncProfileObj) (self : Attributes)
  : Attributes :=
  mkAttributes (megaToolsDir self) (ffmpegExePath self) (megaAccountsPath self)
    (megaAccountsOutputPath self) (syncProfiles self ++ [p]) (localRoot self)
    (remoteRoot self).
Definition set_localRoot (v : string) (self : Attributes) : Attributes :=
  mkAttributes (megaToolsDir self) (ffmpegExePath self) (megaAccountsPath self)
    (megaAccountsOutputPath self) (syncProfiles self) (Some v)
    (remoteRoot self).
Definition set_remoteRoot (v : string) (self : Attributes) : Attributes :=
  mkAttributes (megaToolsDir self) (ffmpegExePath self) (megaAccountsPath self)
    (megaAccountsOutputPath self) (syncProfiles self) (localRoot self)
    (Some v).

(** The [while line] loop of [_import_config_file_data] on the open file
    [ins]. *)
Fixpoint file_loop (turns : nat) (line : string) (ins : list string)
    (self : Attributes) : option Attributes :=
  match turns with
  | O => Some self
  | S n =>
      if truthy line then
        '(ins, self) ←
          (if String.prefix "MEGATOOLS_DIR=" line then
             value ← value_of line; Some (ins, set_megaToolsDir value self)
           else if String.prefix "FFMPEG_EXE_PATH=" line then
             value ← value_of line; Some (ins, set_ffmpegExePath value self)
           else if String.prefix "MEGA_ACCOUNTS=" line then
             value ← value_of line; Some (ins, set_megaAccountsPath value self)
           else if String.prefix "MEGA_ACCOUNTS_OUTPUT=" line then
             value ← value_of line;
             Some (ins, set_megaAccountsOutputPath value self)
           else if String.prefix "[Profile" line then
             '(profile, ins) ← _import_config_profile_data ins;
             Some (ins, append_syncProfile profile self)
           else if String.prefix "LOCAL_ROOT=" line then
             value ← value_of line; Some (ins, set_localRoot value self)
           else if String.prefix "REMOTE_ROOT=" line then
             value ← value_of line; Some (ins, set_remoteRoot value self)
           else Some (ins, self));
        let '(line, ins) := readline ins in
        file_loop n line ins self
      else Some self
  end.

Section Opening.

Variable archive_text : list (string * ndarray) -> string.

(** [None] stands for an exception that leaves the function: the one of
    [open] on a file that cannot be read, or an [IndexError]. *)
Definition _import_config_file_data (d : Disk) (megaManager_configPath : string)
    (self : Attributes) : option Attributes :=
  match read_text archive_text megaManager_configPath d with
  | (Return text, _) =>
      let ins := readlines text in
      let turns := S (length ins) in
      let '(line, ins) := readline ins in
      file_loop turns line ins self
  | (Raise _, _) => None
  end.

End Opening.

End ConfigFile.

End MegaManager.

(** ** Predicates used to state the properties *)

Module Spec.

Import OS.

(** A path string holds no NUL character: no file system accepts one. *)
Fixpoint path_string (s : string) : bool :=
  match s with
  | EmptyString => true
  | String c s' => negb (Ascii.eqb c NUL) && path_string s'
  end.

(** The OS lets [file] be (over)written: it is no directory and no other
    process holds it. *)
Definition writable (d : Disk) (file : string) : bool :=
  match files d !! file with
  | Some Dir => false
  | _ => Nat.eqb (busy_count d file) 0
  end.

(** [file] is absent, or is not an archive with a member called [list]. *)
Definition absent_or_corrupt (d : Disk) (file : string) : bool :=
  match files d !! file with
  | Some (File (Npz members)) =>
      match assoc "list" members with Some _ => false | None => true end
  | _ => true
  end.

Import MegaManager Lib.

(** What one turn of the deletion loop does. *)
Definition delete_one_result (cfg : Config) (username password filePath : string)
    (s : State) : State :=
  if negb (inb filePath (removedRemoteFiles s))
     && negb (higherDirRemoved (removedRemoteFiles s) filePath)
  then
    let removed := removedRemoteFiles s ++ [filePath] in
    set_disk
      (snd (dump_list_into_file removed (REMOVED_REMOTE_FILES cfg) (disk s)))
      (set_calls (calls s ++ [RemoveRemoteFile username password filePath])
         (set_removedRemoteFiles removed s))
  else s.

(** The entries the loop has added to the set, each with its delete call. *)
Definition pruned (username password : string) (s0 s : State)
    (added : list string) : Prop :=
  removedRemoteFiles s = removedRemoteFiles s0 ++ added /\
  calls s = calls s0 ++ (RemoveRemoteFile username password <$> added) /\
  forall q, q ∈ added -> higherDirRemoved (removedRemoteFiles s0) q = false.

(** The local path the compression pipelines compute for a listing line,
    for a remote root that is a [literal_pattern]. *)
Definition local_file_path (megaTools : MegaTools_Lib)
    (localRoot_adj remoteRoot line : string) : string :=
  localRoot_adj +:+
  re_sub remoteRoot "" (get_file_path_from_megals_line_data megaTools line).

(** The target the video pipeline has the transcoder write to. *)
Definition new_file_path (local_filePath : string) : string :=
  rsplit_dot_head local_filePath +:+ "_NEW.mp4".

(** A turn of the wait loop in which nothing is appended to the registry,
    the timeout has not expired and every thread has finished. *)
Definition quiet (startTime timeout : Z) (poll : Poll) : Prop :=
  spawned poll = [] /\
  (now poll - startTime <= timeout)%Z /\
  forall thread, isAlive poll thread = false.

(** The names of the registered threads, oldest first. *)
Definition thread_names (s : State) : list string := name <$> threads s.

(** [m] returns, having appended threads with the names [ns] to the
    registry. *)
Definition appends (m : M State unit) (ns : list string) : Prop :=
  forall s, exists s',
    m s = (Return tt, s') /\ thread_names s' = thread_names s ++ ns.

(** The threads [run] creates before it looks at the compression flags. *)
Definition scheduled_before_compression (cfg : Config) : list string :=
  ["thread_create_profiles_data_file"] ++
  (if removeIncomplete cfg
   then concat ((fun profile =>
                   concat ((fun _ : PathMapping =>
                              ["thread_unfinishedFileRemover_" +:+ profileName profile])
                           <$> pathMappings profile))
                <$> syncProfiles cfg)
   else []) ++
  (if download cfg then ["thread_download"] else []) ++
  (if upload cfg then ["thread_upload"] else []) ++
  (if removeRemote cfg
   then concat ((fun account : string * string =>
                   ["thread_remoteFileRemover_" +:+ fst account])
                <$> default [] (foundUserPass cfg))
   else []).

(** [m] raises [e], having appended threads with the names [ns] to the
    registry. *)
Definition stops (m : M State unit) (e : exn) (ns : list string) : Prop :=
  forall s, exists s',
    m s = (Raise e, s') /\ thread_names s' = thread_names s ++ ns.

(** No remote root of a path mapping holds a metacharacter of regular
    expressions: the compression pipelines use each as a pattern for
    [re.sub]. *)
Definition literal_remote_roots (cfg : Config) : Prop :=
  Forall (fun profile =>
            Forall (fun pathMapping =>
                      literal_pattern (remotePath pathMapping) = true)
              (pathMappings profile))
    (syncProfiles cfg).

(** A thread name that is not one of the two compression workers'. *)
Definition not_a_compression_thread (n : string) : Prop :=
  String.prefix "thread_compress" n = false.

(** No entry of [l] holds an entry that comes before it as a substring: no
    path is listed after a directory above it, nor twice. *)
Definition ancestor_free (l : list string) : Prop :=
  forall l1 x l2 r, l = l1 ++ x :: l2 -> r ∈ l1 -> contains r x = false.

(** Each path of [added], in turn, passes the substring guard against
    [base] and the paths added before it. *)
Fixpoint grown (base added : list string) : Prop :=
  match added with
  | [] => True
  | x :: rest => higherDirRemoved base x = false /\ grown (base ++ [x]) rest
  end.

(** The local path computed for a remote path by the pruning pipeline,
    for a remote root that is a [literal_pattern]. *)
Definition pruning_local_path (cfg : Config) (remote_filePath : string) : string :=
  slashes (localRoot cfg) +:+ re_sub (remoteRoot cfg) "" remote_filePath.

(** The store file of the removed-remote-files set holds the set of [s]. *)
Definition removed_set_stored (cfg : Config) (s : State) : Prop :=
  files (disk s) !! REMOVED_REMOTE_FILES cfg
  = Some (File (Npz [("list", array (removedRemoteFiles s))])).

(** The listing line is a plain file with an image extension. *)
Definition image_eligible (megaTools : MegaTools_Lib) (line : string) : bool :=
  String.eqb (get_file_type_from_megals_line_data megaTools line) "0"
  && inb (get_file_extension_from_megals_line_data megaTools line)
       COMPRESSION_IMAGE_EXTENSIONS.

(** The listing line is a plain file with a video extension. *)
Definition video_eligible (megaTools : MegaTools_Lib) (line : string) : bool :=
  String.eqb (get_file_type_from_megals_line_data megaTools line) "0"
  && inb (get_file_extension_from_megals_line_data megaTools line)
       COMPRESSION_VIDEO_EXTENSIONS.

(** What the image pipeline does not touch. *)
Definition image_frame (s s' : State) : Prop :=
  compressedImageFiles s' = compressedImageFiles s /\
  compressedVideoFiles s' = compressedVideoFiles s /\
  unableToCompressVideoFiles s' = unableToCompressVideoFiles s /\
  removedRemoteFiles s' = removedRemoteFiles s /\
  threads s' = threads s.

(** What the video pipeline does not touch. *)
Definition video_frame (s s' : State) : Prop :=
  compressedImageFiles s' = compressedImageFiles s /\
  unableToCompressImageFiles s' = unableToCompressImageFiles s /\
  unableToCompressVideoFiles s' = unableToCompressVideoFiles s /\
  compressedFiles s' = compressedFiles s /\
  removedRemoteFiles s' = removedRemoteFiles s /\
  threads s' = threads s.

(** From [s] to [s'] the image transcoder was called on the paths [called],
    in that order, and nothing else was called; the paths [appended] were
    appended to the unable-to-compress-images set, each of them one of the
    paths called; the set has no duplicates if it had none. *)
Definition image_run (s s' : State) (called appended : list string) : Prop :=
  calls s' = calls s ++ (CompressImage <$> called) /\
  unableToCompressImageFiles s' = unableToCompressImageFiles s ++ appended /\
  (forall q, q ∈ appended -> q ∈ called) /\
  (NoDup (unableToCompressImageFiles s) -> NoDup (unableToCompressImageFiles s')) /\
  image_frame s s'.

(** From [s] to [s'] the video transcoder was called on the paths [called],
    in that order, each with its [_NEW.mp4] target, and nothing else was
    called; the compressed-videos set has received the targets of the paths
    [recorded], each of them one of the paths called. *)
Definition video_run (s s' : State) (called recorded : list string) : Prop :=
  calls s' = calls s ++ ((fun q => CompressVideo q (new_file_path q)) <$> called) /\
  compressedVideoFiles s' = compressedVideoFiles s ++ (new_file_path <$> recorded) /\
  (forall q, q ∈ recorded -> q ∈ called) /\
  video_frame s s'.

(** A statement ended normally or with [WindowsError]. *)
Definition returned_or_WindowsError (r : result unit) : Prop :=
  r = Return tt \/ r = Raise WindowsError.

(** The items at the second, fourth, ... place of a list. *)
Fixpoint odds {A} (l : list A) : list A :=
  match l with
  | [] => []
  | _ :: l' => match l' with
               | [] => []
               | y :: rest => y :: odds rest
               end
  end.

(** A turn of the wait loop before the timeout in which every thread is
    still running. *)
Definition all_running (startTime timeout : Z) (poll : Poll) : Prop :=
  (now poll - startTime <= timeout)%Z /\
  forall thread, isAlive poll thread = true.

(** What [load_file_as_list] reads from a file: the items of the archive's
    [list] member; nothing when the file is absent, a directory, no archive,
    or an archive without that member. *)
Definition stored_list (d : Disk) (file : string) : list string :=
  match files d !! file with
  | Some (File (Npz members)) =>
      match assoc "list" members with
      | Some a => tolist a
      | None => []
      end
  | _ => []
  end.


(** Every set attribute that teardown reads under the flags of [cfg]
    exists. *)
Definition attributes_exist (cfg : Config) (started : Started) : Prop :=
  (removeRemote cfg = true -> started_remote started = true) /\
  (compressImages cfg = true -> started_images started = true) /\
  (compressVideos cfg = true -> started_videos started = true).

(** The disk after [itemList] was dumped to [file], if [enabled]. *)
Definition flushed (enabled : bool) (itemList : list string) (file : string)
    (d : Disk) : Disk :=
  if enabled then snd (dump_list_into_file itemList file d) else d.

(** The disk after the dumps of teardown. *)
Definition teardown_disk (cfg : Config) (s : State) : Disk :=
  flushed (compressVideos cfg) (unableToCompressVideoFiles s)
    (UNABLE_TO_COMPRESS_VIDEOS_FILE cfg)
    (flushed (compressVideos cfg) (compressedVideoFiles s)
       (COMPRESSED_VIDEOS_FILE cfg)
       (flushed (compressImages cfg) (unableToCompressImageFiles s)
          (UNABLE_TO_COMPRESS_IMAGES_FILE cfg)
          (flushed (compressImages cfg) (compressedImageFiles s)
             (COMPRESSED_IMAGES_FILE cfg)
             (flushed (removeRemote cfg) (removedRemoteFiles s)
                (REMOVED_REMOTE_FILES cfg) (disk s))))).

(** A string without a space and without a newline. *)
Fixpoint no_space (s : string) : bool :=
  match s with
  | EmptyString => true
  | String c s' =>
      negb (Ascii.eqb c " "%char) && negb (Ascii.eqb c newline) && no_space s'
  end.

(** The line of the accounts file for an account. *)
Definition account_line (account : string * string) : string :=
  fst account +:+ " - " +:+ snd account +:+ String newline EmptyString.



(** A string without a newline. *)
Fixpoint no_newline (s : string) : bool :=
  match s with
  | EmptyString => true
  | String c s' => negb (Ascii.eqb c newline) && no_newline s'
  end.

(** *** The configuration file *)

Fixpoint all_chars (f : ascii -> bool) (s : string) : bool :=
  match s with
  | EmptyString => true
  | String c s' => f c && all_chars f s'
  end.

(** The printable ASCII characters, the space among them. *)
Definition printable (c : ascii) : bool :=
  let n := nat_of_ascii c in Nat.leb 32 n && Nat.leb n 126.

(** A value that a line [key=value] can hold: printable characters, no
    [=], no white space at either end. *)
Definition config_value (v : string) : Prop :=
  all_chars printable v = true /\
  contains "=" v = false /\
  match v with EmptyString => True | String c _ => isspace c = false end /\
  rstrip v = v.

Definition setting_line (key value : string) : string :=
  key +:+ "=" +:+ value +:+ String newline EmptyString.

Definition mapping_lines (m : PathMapping) : list string :=
  [setting_line "LocalPath" (localPath m);
   setting_line "RemotePath" (remotePath m)].

(** The lines of a profile after its header. *)
Definition profile_lines (p : SyncProfile) : list string :=
  setting_line "ProfileName" (profileName p)
  :: setting_line "Username" (username p)
  :: setting_line "Password" (password p)
  :: concat (mapping_lines <$> pathMappings p).

Definition header_line (tag : string) : string :=
  "[Profile" +:+ tag +:+ String newline EmptyString.

(** A profile of the configuration file under its header [[Profile<tag>]. *)
Definition profile_block (b : string * SyncProfile) : list string :=
  header_line (fst b) :: profile_lines (snd b).

Definition config_profile (p : SyncProfile) : Prop :=
  config_value (profileName p) /\ config_value (username p) /\
  config_value (password p) /\
  Forall (fun m => config_value (localPath m) /\ config_value (remotePath m))
    (pathMappings p).

(** The object built for a profile all of whose parts were read. *)
Definition built (p : SyncProfile) : ConfigFile.SyncProfileObj :=
  ConfigFile.mkSyncProfileObj (Some (profileName p)) (Some (username p))
    (Some (password p)) (pathMappings p).

(** The items at the first, third, ... place of a list. *)
Definition evens {A} (l : list A) : list A :=
  match l with
  | [] => []
  | x :: l' => x :: odds l'
  end.

(** The text of a file from its lines. *)
Definition join_lines (lines : list string) : string :=
  foldr String.app EmptyString lines.

(** The loops of the two import functions, about to read the next of
    [lines]. *)
Definition resume_profile (turns : nat) (lines : list string)
    (profile : ConfigFile.SyncProfileObj)
  : option (ConfigFile.SyncProfileObj * list string) :=
  ConfigFile.profile_loop turns (fst (ConfigFile.readline lines)) profile
    (snd (ConfigFile.readline lines)).

Definition resume_file (turns : nat) (lines : list string)
    (self : ConfigFile.Attributes) : option ConfigFile.Attributes :=
  ConfigFile.file_loop turns (fst (ConfigFile.readline lines))
    (snd (ConfigFile.readline lines)) self.

(** The names of the settings [_import_config_file_data] knows. *)
Definition setting_keys : list string :=
  ["MEGATOOLS_DIR"; "FFMPEG_EXE_PATH"; "MEGA_ACCOUNTS"; "MEGA_ACCOUNTS_OUTPUT";
   "LOCAL_ROOT"; "REMOTE_ROOT"].

(** The assignment a setting stands for. *)
Definition assign (self : ConfigFile.Attributes) (setting : string * string)
  : ConfigFile.Attributes :=
  let (key, value) := setting in
  if String.eqb key "MEGATOOLS_DIR" then ConfigFile.set_megaToolsDir value self
  else if String.eqb key "FFMPEG_EXE_PATH" then
    ConfigFile.set_ffmpegExePath value self
  else if String.eqb key "MEGA_ACCOUNTS" then
    ConfigFile.set_megaAccountsPath value self
  else if String.eqb key "MEGA_ACCOUNTS_OUTPUT" then
    ConfigFile.set_megaAccountsOutputPath value self
  else if String.eqb key "LOCAL_ROOT" then ConfigFile.set_localRoot value self
  else if String.eqb key "REMOTE_ROOT" then ConfigFile.set_remoteRoot value self
  else self.

(** [self] with further profiles appended to its list of them. *)
Definition with_profiles (ps : list ConfigFile.SyncProfileObj)
    (self : ConfigFile.Attributes) : ConfigFile.Attributes :=
  ConfigFile.mkAttributes (ConfigFile.megaToolsDir self)
    (ConfigFile.ffmpegExePath self) (ConfigFile.megaAccountsPath self)
    (ConfigFile.megaAccountsOutputPath self)
    (ConfigFile.syncProfiles self ++ ps) (ConfigFile.localRoot self)
    (ConfigFile.remoteRoot self).

End Spec.

(** ** Concrete inputs *)

Module Samples.

Import OS MegaManager.

Definition empty_disk : Disk := mkDisk ∅ ∅.

Definition store_file : string := "C:\mm\data\compressed_images.npz".

Definition profile_ann : SyncProfile :=
  {| profileName := "ann";
     username := "ann@example.org";
     password := "secret";
     pathMappings := [ {| localPath := "C:\sync"; remotePath := "/Root" |} ] |}.

Definition sample_cfg (all images videos : bool) : Config :=
  {| WORKING_DIR := "C:\mm";
     localRoot := "C:\sync";
     remoteRoot := "/Root";
     syncProfiles := [profile_ann];
     foundUserPass := None;
     download := false;
     upload := false;
     removeRemote := true;
     removeIncomplete := true;
     compressAll := all;
     compressImages := images;
     compressVideos := videos |}.

Definition cfg0 : Config := sample_cfg false true true.

(** A remote account holding the files listed in [remote]; one listing line
    per file, the line being the file's remote path.  [deleted] is what
    every delete call answers. *)
Definition sample_megaTools (remote : list string) (deleted : bool)
  : MegaTools_Lib :=
  {| get_remote_file_data_recursively := fun _ _ _ => remote;
     get_file_type_from_megals_line_data := fun _ => "0";
     get_file_extension_from_megals_line_data := fun line =>
       if endswith line ".jpg" then ".jpg"
       else if endswith line ".mp4" then ".mp4" else "";
     get_file_path_from_megals_line_data := fun line => line;
     get_remote_file_paths_recursively := fun _ _ _ => remote;
     remove_remote_file := fun _ _ _ => deleted |}.

Definition initial (d : Disk) : State :=
  {| compressedImageFiles := [];
     unableToCompressImageFiles := [];
     compressedVideoFiles := [];
     unableToCompressVideoFiles := [];
     removedRemoteFiles := [];
     compressedFiles := [];
     threads := [];
     disk := d;
     calls := [] |}.

(** An image transcoder that answers [ok] and, when [sidecar] is set, leaves
    the backup of the original next to it. *)
Definition sample_compressImages (ok sidecar : bool) : CompressImages_Lib :=
  {| compress_image_file := fun d filePath =>
       (ok,
        if sidecar
        then mkDisk (<[filePath +:+ ".compressimages-backup" := File (Bytes "jpeg")]>
                       (files d)) (busy d)
        else d) |}.

(** A video transcoder that answers [ok] and, when [writes] is set, leaves a
    file at the target path. *)
Definition sample_ffmpeg (ok writes : bool) : FFMPEG_Lib :=
  {| compress_video_file := fun d filePath targetPath =>
       (ok,
        if writes
        then mkDisk (<[targetPath := File (Bytes "h264")]> (files d)) (busy d)
        else d) |}.

(** A local tree with one picture and one clip. *)
Definition media_disk : Disk :=
  mkDisk (<["C:/sync/pic.jpg" := File (Bytes "jpeg")]>
            (<["C:/sync/clip.mp4" := File (Bytes "mpeg")]> ∅)) ∅.

(** A registry with the thread that creates the detail gatherers and one
    detail gatherer. *)
Definition gathering : State :=
  set_threads [mkThread 0 "thread_create_profiles_data_file";
               mkThread 1 "thread_megaFile_ann"] (initial empty_disk).

(** The gatherer is still running when the timeout expires. *)
Definition polls_until_timeout : list Poll :=
  [ mkPoll [] 1 (fun _ => true);
    mkPoll [] 100000 (fun _ => true) ].

(** Both threads have finished at the first turn. *)
Definition polls_all_finished : list Poll :=
  [ mkPoll [] 1 (fun _ => false);
    mkPoll [] 2 (fun _ => false);
    mkPoll [] 3 (fun _ => false) ].

(** A registry with a finished download thread ahead of a running detail
    gatherer. *)
Definition download_then_gatherer : State :=
  set_threads [mkThread 0 "thread_download";
               mkThread 1 "thread_megaFile_ann"] (initial empty_disk).

Definition gatherer_alive : Thread -> bool :=
  fun thread => Nat.eqb (ident thread) 1.

(** A configuration with no category enabled. *)
Definition cfg_idle : Config :=
  {| WORKING_DIR := "C:\mm";
     localRoot := "C:\sync";
     remoteRoot := "/Root";
     syncProfiles := [profile_ann];
     foundUserPass := None;
     download := false;
     upload := false;
     removeRemote := false;
     removeIncomplete := false;
     compressAll := false;
     compressImages := false;
     compressVideos := false |}.

(** Both compression categories enabled, and pruning off. *)
Definition cfg_compress : Config :=
  {| WORKING_DIR := "C:\mm";
     localRoot := "C:\sync";
     remoteRoot := "/Root";
     syncProfiles := [profile_ann];
     foundUserPass := None;
     download := true;
     upload := false;
     removeRemote := false;
     removeIncomplete := true;
     compressAll := false;
     compressImages := true;
     compressVideos := true |}.

(** Every worker was created. *)
Definition all_started : Started :=
  {| started_remote := true; started_images := true; started_videos := true |}.

(** The sets at the end of a run. *)
Definition end_of_run : State :=
  set_removedRemoteFiles ["C:/sync/old.txt"]
    (set_compressedImageFiles ["C:/sync/pic.jpg"]
       (set_unableToCompressImageFiles ["C:/sync/bad.png"]
          (set_compressedVideoFiles ["C:/sync/clip_NEW.mp4"]
             (set_unableToCompressVideoFiles ["C:/sync/bad.avi"]
                (initial empty_disk))))).

(** Three finished threads. *)
Definition three_threads : list Thread :=
  [mkThread 0 "thread_download"; mkThread 1 "thread_upload";
   mkThread 2 "thread_compressImages"].

(** Two turns in which every thread is still running. *)
Definition polls_all_running : list Poll :=
  [ mkPoll [] 1 (fun _ => true);
    mkPoll [mkThread 2 "thread_megaFile_bob"] 2 (fun _ => true) ].




Definition no_archive_text : list (string * ndarray) -> string :=
  fun _ => EmptyString.

Definition profile_bob : SyncProfile :=
  {| profileName := "bob";
     username := "bob@example.org";
     password := "pw-2";
     pathMappings := [ {| localPath := "D:\bob"; remotePath := "/Root/bob" |};
                       {| localPath := "D:\pics"; remotePath := "/Root/pics" |} ] |}.

Definition profile_cy : SyncProfile :=
  {| profileName := "cy";
     username := "cy@example.org";
     password := "pw-3";
     pathMappings := [] |}.

Definition three_blocks : list (string * SyncProfile) :=
  [("0]", profile_ann); ("1]", profile_bob); ("2]", profile_cy)].

Definition config_file : string := "C:\mm\megaManager.cfg".

Definition profiles_disk : Disk :=
  mkDisk (<[config_file :=
              File (Bytes (Spec.join_lines
                             (concat (Spec.profile_block <$> three_blocks))))]> ∅)
    ∅.

Definition three_settings : list (string * string) :=
  [("MEGATOOLS_DIR", "C:\megatools"); ("LOCAL_ROOT", "C:\a");
   ("LOCAL_ROOT", "C:\sync")].

Definition settings_disk : Disk :=
  mkDisk (<[config_file :=
              File (Bytes (Spec.join_lines
                             ((fun kv => Spec.setting_line (fst kv) (snd kv))
                                <$> three_settings)))]> ∅)
    ∅.

Definition no_attributes : ConfigFile.Attributes :=
  ConfigFile.mkAttributes None None None None [] None None.

End Samples.

(** * Properties *)

Import OS Lib MegaManager Spec Samples.

(** ** The persistent list store *)

Section ListStore.

Lemma rstrip_nul_nuls n : rstrip_nul (nuls n) = EmptyString.
Proof.
  induction n as [|n IH]; simpl; [reflexivity|].
  rewrite IH. reflexivity.
Qed.

Lemma rstrip_nul_path_string s n :
  path_string s = true -> rstrip_nul (s +:+ nuls n) = s.
Proof.
  induction s as [|c s IH]; simpl; intros H.
  - apply rstrip_nul_nuls.
  - apply andb_true_iff in H as [Hc Hs].
    rewrite (IH Hs).
    apply negb_true_iff in Hc. rewrite Hc.
    destruct s; reflexivity.
Qed.

Lemma rstrip_nul_pad width s :
  path_string s = true -> rstrip_nul (pad width s) = s.
Proof. apply rstrip_nul_path_string. Qed.

Lemma tolist_array (x : list string) :
  Forall (fun s => path_string s = true) x -> tolist (array x) = x.
Proof.
  intros Hx. destruct x as [|s x]; [reflexivity|].
  unfold array, tolist.
  generalize (Nat.max 1 (max_list (String.length <$> s :: x))). intros width.
  induction Hx as [|t l Ht _ IH]; [reflexivity|].
  rewrite !fmap_cons, IH, rstrip_nul_pad by assumption. reflexivity.
Qed.

Lemma dump_writable d x filePath :
  writable d (npz_name filePath) = true ->
  dump_list_into_file x filePath d =
    (Return tt,
     mkDisk (<[npz_name filePath := File (Npz [("list", array x)])]> (files d))
            (busy d)).
Proof.
  unfold writable, dump_list_into_file, try_except, savez_compressed.
  intros H.
  destruct (files d !! npz_name filePath) as [[|c]|];
    try discriminate;
    apply Nat.eqb_eq in H; rewrite H; reflexivity.
Qed.

(** The list read back equals the list written, item by item. *)
Lemma dump_then_load d x filePath :
  Forall (fun s => path_string s = true) x ->
  writable d (npz_name filePath) = true ->
  fst (load_file_as_list (npz_name filePath)
         (snd (dump_list_into_file x filePath d))) = Return x.
Proof.
  intros Hx Hw. rewrite (dump_writable _ _ _ Hw). simpl.
  unfold load_file_as_list, bind, gets, isfile, finally_return, try_except,
    load, member, ret. simpl.
  repeat (rewrite lookup_insert_eq; simpl).
  rewrite (tolist_array _ Hx). reflexivity.
Qed.

(** C6. Round trip of the persistent list store: when a non-empty list
    [x] of distinct path strings is dumped and the write is not refused,
    loading the file that was written returns a list with exactly the
    paths of [x]. *)
Theorem list_store_round_trip d (x : list string) filePath :
  x <> [] ->
  NoDup x ->
  Forall (fun s => path_string s = true) x ->
  writable d (npz_name filePath) = true ->
  exists items,
    fst (load_file_as_list (npz_name filePath)
           (snd (dump_list_into_file x filePath d))) = Return items /\
    forall p, p ∈ items <-> p ∈ x.
Proof.
  intros _ _ Hx Hw. exists x. split; [|tauto].
  apply dump_then_load; assumption.
Qed.

(** C7. Loading fails soft: [load_file_as_list] always returns a list of
    strings, never raises and leaves the disk as it is; the list is empty
    when the file is absent or is no readable archive. *)
Theorem load_file_as_list_fails_soft d filePath :
  (exists items : list string,
      load_file_as_list filePath d = (Return items, d)) /\
  (absent_or_corrupt d filePath = true ->
   load_file_as_list filePath d = (Return [], d)).
Proof.
  unfold absent_or_corrupt, load_file_as_list, bind, gets, isfile,
    finally_return, try_except, load, member, ret, raise.
  destruct (files d !! filePath) as [[|[raw|members]]|] eqn:E; simpl;
    try rewrite E; simpl; eauto.
  destruct (assoc "list" members); simpl; split; eauto; discriminate.
Qed.

Lemma endswith_app a b suf :
  endswith b suf = true -> endswith (a +:+ b) suf = true.
Proof.
  intros H. induction a as [|c a IH]; simpl; [exact H|].
  rewrite IH. apply orb_true_r.
Qed.

(** The five store files of the program are written under their own name. *)
Lemma store_files_keep_their_name (cfg : Config) :
  npz_name (COMPRESSED_IMAGES_FILE cfg) = COMPRESSED_IMAGES_FILE cfg /\
  npz_name (UNABLE_TO_COMPRESS_IMAGES_FILE cfg) = UNABLE_TO_COMPRESS_IMAGES_FILE cfg /\
  npz_name (COMPRESSED_VIDEOS_FILE cfg) = COMPRESSED_VIDEOS_FILE cfg /\
  npz_name (UNABLE_TO_COMPRESS_VIDEOS_FILE cfg) = UNABLE_TO_COMPRESS_VIDEOS_FILE cfg /\
  npz_name (REMOVED_REMOTE_FILES cfg) = REMOVED_REMOTE_FILES cfg.
Proof.
  unfold npz_name, COMPRESSED_IMAGES_FILE, UNABLE_TO_COMPRESS_IMAGES_FILE,
    COMPRESSED_VIDEOS_FILE, UNABLE_TO_COMPRESS_VIDEOS_FILE, REMOVED_REMOTE_FILES.
  repeat split; rewrite endswith_app; reflexivity.
Qed.

End ListStore.

(** ** The remote pruning pipeline *)

Section Pruning.

Variable cfg : Config.
Variable megaTools : MegaTools_Lib.
Variables username password : string.

Lemma dump_list_into_file_returns itemList filePath d :
  fst (dump_list_into_file itemList filePath d) = Return tt.
Proof.
  unfold dump_list_into_file, try_except, savez_compressed, ret.
  destruct (files d !! npz_name filePath) as [[|c]|];
    try reflexivity; destruct (busy_count d (npz_name filePath)); reflexivity.
Qed.

Lemma on_disk_dump itemList filePath s :
  on_disk (dump_list_into_file itemList filePath) s =
    (Return tt, set_disk (snd (dump_list_into_file itemList filePath (disk s))) s).
Proof.
  unfold on_disk.
  pose proof (dump_list_into_file_returns itemList filePath (disk s)) as H.
  destruct (dump_list_into_file itemList filePath (disk s)) as [r d].
  simpl in *. subst r. reflexivity.
Qed.

Lemma prefix_contains r p : String.prefix r p = true -> contains r p = true.
Proof. intros H. destruct p; simpl in *; rewrite H; reflexivity. Qed.

Lemma higherDirRemoved_true removed r p :
  r ∈ removed -> contains r p = true -> higherDirRemoved removed p = true.
Proof.
  intros Hin Hc. induction removed as [|x l IH]; [inversion Hin|].
  simpl. apply elem_of_cons in Hin as [->|Hin].
  - rewrite Hc. reflexivity.
  - rewrite (IH Hin). destruct (contains x p); reflexivity.
Qed.

Lemma delete_one_eq filePath s :
  delete_one cfg megaTools username password filePath s =
    (Return tt, delete_one_result cfg username password filePath s).
Proof.
  unfold delete_one, delete_one_result, bind, gets, modify,
    call_remove_remote_file, record_call, bind, modify, ret.
  destruct (inb filePath (removedRemoteFiles s)); simpl; [reflexivity|].
  destruct (higherDirRemoved (removedRemoteFiles s) filePath); simpl;
    [reflexivity|].
  rewrite on_disk_dump. reflexivity.
Qed.

Lemma higherDirRemoved_app l1 l2 p :
  higherDirRemoved (l1 ++ l2) p = higherDirRemoved l1 p || higherDirRemoved l2 p.
Proof.
  induction l1 as [|x l1 IH]; simpl; [reflexivity|].
  destruct (contains x p); simpl; [reflexivity|apply IH].
Qed.

Lemma delete_loop_pruned l s0 s added :
  pruned username password s0 s added ->
  exists s' added',
    for_each l (delete_one cfg megaTools username password) s = (Return tt, s') /\
    pruned username password s0 s' added'.
Proof.
  revert s added. induction l as [|p l IH]; intros s added Hp.
  - exists s, added. split; [reflexivity|assumption].
  - simpl. unfold bind at 1. rewrite delete_one_eq.
    unfold delete_one_result.
    destruct (negb (inb p (removedRemoteFiles s))
              && negb (higherDirRemoved (removedRemoteFiles s) p)) eqn:G.
    + apply (IH _ (added ++ [p])).
      destruct Hp as (Hr & Hc & Hq). unfold pruned; simpl.
      apply andb_true_iff in G as [_ G]. apply negb_true_iff in G.
      rewrite Hr in G |- *. rewrite Hc.
      rewrite fmap_app, <- !app_assoc. repeat split; try reflexivity.
      intros q Hin. apply elem_of_app in Hin as [Hin|Hin]; [auto|].
      apply list_elem_of_singleton in Hin. subst q.
      rewrite higherDirRemoved_app in G.
      apply orb_false_iff in G as [G _]. exact G.
    + apply (IH _ added Hp).
Qed.

(** C4. Prefix guard: when an entry [r] recorded in the
    removed-remote-files set is a prefix of [p], the turn of the deletion
    loop for [p] changes nothing: no delete call is issued and [p] is not
    appended.  And the whole pruning pipeline, started with such an [r] in
    the set, returns having appended a list [added] of paths to the set and
    issued one delete call for each of them and no other call, [p] not
    being among them. *)
Theorem prefix_guard (s : State) (r p : string) :
  r ∈ removedRemoteFiles s ->
  String.prefix r p = true ->
  delete_one cfg megaTools username password p s = (Return tt, s) /\
  exists s' added,
    _delete_remote_files_that_dont_exist_locally cfg megaTools
      username password s = (Return tt, s') /\
    removedRemoteFiles s' = removedRemoteFiles s ++ added /\
    calls s' = calls s ++ (RemoveRemoteFile username password <$> added) /\
    (p ∉ added).
Proof.
  intros Hin Hpre.
  pose proof (higherDirRemoved_true _ r p Hin (prefix_contains _ _ Hpre)) as Hh.
  split.
  { rewrite delete_one_eq. unfold delete_one_result.
    rewrite Hh, andb_false_r. reflexivity. }
  unfold _delete_remote_files_that_dont_exist_locally,
    _get_remote_files_that_dont_exist_locally.
  unfold bind at 1. unfold bind at 1. unfold get, ret.
  match goal with |- context [for_each ?l _ _] =>
    destruct (delete_loop_pruned l s s []) as (s' & added & Hrun & Hr & Hc & Hq)
  end.
  { unfold pruned. rewrite app_nil_r. simpl. rewrite app_nil_r.
    repeat split. intros q Hq. inversion Hq. }
  exists s', added. repeat split; try assumption.
  intros Hp. apply Hq in Hp. rewrite Hh in Hp. discriminate.
Qed.

Lemma foldl_dont_exist (d : Disk) (local : string -> string) remoteFiles acc q :
  q ∈ foldl (fun dontExistLocally remote_filePath =>
               if negb (exists_ d (local remote_filePath))
               then dontExistLocally ++ [local remote_filePath]
               else dontExistLocally) acc remoteFiles ->
  q ∈ acc \/
  exists remote_filePath, remote_filePath ∈ remoteFiles /\ q = local remote_filePath.
Proof.
  revert acc. induction remoteFiles as [|x l IH]; intros acc Hq; simpl in Hq; [auto|].
  apply IH in Hq as [Hq|(x' & Hx' & ->)].
  - destruct (negb (exists_ d (local x))); [|auto].
    apply elem_of_app in Hq as [Hq|Hq]; [auto|].
    apply list_elem_of_singleton in Hq. right. exists x.
    split; [apply list_elem_of_here|assumption].
  - right. exists x'. split; [apply list_elem_of_further|]; auto.
Qed.

Lemma delete_loop_calls l s e :
  e ∈ calls (snd (for_each l (delete_one cfg megaTools username password) s)) ->
  e ∈ calls s \/ exists q, q ∈ l /\ e = RemoveRemoteFile username password q.
Proof.
  revert s. induction l as [|p l IH]; intros s He; [auto|].
  simpl in He. unfold bind at 1 in He. rewrite delete_one_eq in He.
  apply IH in He as [He|(q & Hq & ->)].
  - unfold delete_one_result in He.
    destruct (negb (inb p (removedRemoteFiles s))
              && negb (higherDirRemoved (removedRemoteFiles s) p)); [|auto].
    simpl in He. apply elem_of_app in He as [He|He]; [auto|].
    apply list_elem_of_singleton in He. right. exists p.
    split; [apply list_elem_of_here|assumption].
  - right. exists q. split; [apply list_elem_of_further|]; auto.
Qed.

(** Every delete call the pruning pipeline issues carries a computed local
    path: the local root, slashes normalised, followed by what is left of a
    listed remote path once the remote root is taken out. *)
Lemma delete_calls_carry_local_paths (s : State) (e : event) :
  e ∈ calls (snd (_delete_remote_files_that_dont_exist_locally cfg megaTools
                    username password s)) ->
  e ∈ calls s \/
  exists remote_filePath,
    remote_filePath ∈ get_remote_file_paths_recursively megaTools
                        username password (remoteRoot cfg) /\
    e = RemoveRemoteFile username password
          (slashes (localRoot cfg) +:+ re_sub (remoteRoot cfg) "" remote_filePath).
Proof.
  unfold _delete_remote_files_that_dont_exist_locally,
    _get_remote_files_that_dont_exist_locally.
  unfold bind at 1. unfold bind at 1. unfold get, ret.
  intros He. apply delete_loop_calls in He as [He|(q & Hq & ->)]; [auto|].
  right.
  apply (foldl_dont_exist (disk s)
           (fun remote_filePath =>
              slashes (localRoot cfg) +:+ re_sub (remoteRoot cfg) "" remote_filePath))
    in Hq as [Hq|(x & Hx & ->)]; [inversion Hq|].
  exists x. auto.
Qed.


(** C5 at a concrete input. The remote file [/Root/x.jpg] has no local
    counterpart and passes both guards: the delete call is issued with the
    computed local path [C:/sync/x.jpg], not with the remote path. *)
Lemma delete_call_receives_local_path :
  calls (snd (_delete_remote_files_that_dont_exist_locally cfg0
                (sample_megaTools ["/Root/x.jpg"] true)
                "ann@example.org" "secret" (initial empty_disk)))
  = [RemoveRemoteFile "ann@example.org" "secret" "C:/sync/x.jpg"].
Proof. vm_compute. reflexivity. Qed.

End Pruning.

(** ** The compression pipelines *)

Section Compression.

Variable cfg : Config.
Variable megaTools : MegaTools_Lib.
Variable compressImages_lib : CompressImages_Lib.
Variable ffmpeg : FFMPEG_Lib.

Lemma on_disk_eq {A} (m : M Disk A) s :
  on_disk m s = (fst (m (disk s)), set_disk (snd (m (disk s))) s).
Proof. unfold on_disk. destruct (m (disk s)); reflexivity. Qed.

Lemma retry_loop_on_disk n (m : M Disk unit) s :
  exists d, retry_loop n (on_disk m) s = (Return tt, set_disk d s).
Proof.
  revert s. induction n as [|n IH]; intros s; simpl.
  - exists (disk s). destruct s; reflexivity.
  - rewrite on_disk_eq. destruct (m (disk s)) as [[[]|e] d]; simpl.
    + exists d. reflexivity.
    + destruct (IH (set_disk d s)) as [d' H]. exists d'. rewrite H. reflexivity.
Qed.

Lemma remove_raises_WindowsError p d e d' :
  OS.remove p d = (Raise e, d') -> e = WindowsError.
Proof.
  unfold OS.remove.
  destruct (files d !! p) as [[|c]|]; try (intros [= <- _]; reflexivity).
  destruct (busy_count d p); intros [=]; auto.
Qed.

(** What one listing line can change in the image pipeline. *)
Lemma image_line_effect localRoot_adj remoteRoot line s :
  let local_filePath := local_file_path megaTools localRoot_adj remoteRoot line in
  exists s',
    image_line cfg megaTools compressImages_lib localRoot_adj remoteRoot line s
      = (Return tt, s') /\
    compressedImageFiles s' = compressedImageFiles s /\
    (unableToCompressImageFiles s' = unableToCompressImageFiles s \/
     unableToCompressImageFiles s' =
       unableToCompressImageFiles s ++ [local_filePath]) /\
    (calls s' = calls s \/
     ((local_filePath ∉ compressedImageFiles s) /\
      (local_filePath ∉ unableToCompressImageFiles s) /\
      calls s' = calls s ++ [CompressImage local_filePath])).
Proof.
  intros local_filePath.
  unfold image_line. fold (local_file_path megaTools localRoot_adj remoteRoot line).
  fold local_filePath. unfold bind at 1. unfold get.
  match goal with |- context [if ?g then _ else _] => destruct g eqn:G end.
  2:{ exists s. unfold ret. auto. }
  repeat (apply andb_true_iff in G as [G ?]).
  assert (Hc : local_filePath ∉ compressedImageFiles s).
  { unfold inb in *. intros Hin.
    rewrite (bool_decide_eq_true_2 _ Hin) in *. discriminate. }
  assert (Hu : local_filePath ∉ unableToCompressImageFiles s).
  { unfold inb in *. intros Hin.
    rewrite (bool_decide_eq_true_2 _ Hin) in *. discriminate. }
  unfold bind, call_compress_image_file, gets, modify, try_except_WindowsError, ret.
  destruct (compress_image_file compressImages_lib (disk s) local_filePath)
    as [[|] d]; simpl.
  - destruct (exists_ d (local_filePath +:+ ".compressimages-backup")); simpl.
    + rewrite on_disk_eq. simpl.
      destruct (OS.remove (local_filePath +:+ ".compressimages-backup") d)
        as [[[]|e] d'] eqn:R; simpl.
      * rewrite on_disk_dump. eexists; split; [reflexivity|]; simpl; auto 10.
      * apply remove_raises_WindowsError in R. subst e.
        rewrite on_disk_dump. eexists; split; [reflexivity|]; simpl; auto 10.
    + rewrite on_disk_dump. eexists; split; [reflexivity|]; simpl; auto 10.
  - rewrite on_disk_dump. eexists; split; [reflexivity|]; simpl; auto 10.
Qed.

Arguments retry_loop : simpl never.

(** What one listing line can change in the video pipeline.  The line's
    turn may end in an exception: the [remove] of its [elif] branch is not
    guarded. *)
Lemma video_line_effect localRoot_adj remoteRoot line s :
  let local_filePath := local_file_path megaTools localRoot_adj remoteRoot line in
  exists r s',
    video_line cfg megaTools ffmpeg localRoot_adj remoteRoot line s = (r, s') /\
    unableToCompressVideoFiles s' = unableToCompressVideoFiles s /\
    (compressedVideoFiles s' = compressedVideoFiles s \/
     compressedVideoFiles s' =
       compressedVideoFiles s ++ [new_file_path local_filePath]) /\
    (calls s' = calls s \/
     ((local_filePath ∉ compressedVideoFiles s) /\
      (local_filePath ∉ unableToCompressVideoFiles s) /\
      calls s' = calls s ++
        [CompressVideo local_filePath (new_file_path local_filePath)])).
Proof.
  intros local_filePath.
  unfold video_line. fold (local_file_path megaTools localRoot_adj remoteRoot line).
  fold local_filePath. fold (new_file_path local_filePath).
  unfold bind at 1. unfold get.
  match goal with |- context [if ?g then _ else _] => destruct g eqn:G end.
  2:{ exists (Return tt), s. unfold ret. auto. }
  repeat (apply andb_true_iff in G as [G ?]).
  assert (Hc : local_filePath ∉ compressedVideoFiles s).
  { unfold inb in *. intros Hin.
    rewrite (bool_decide_eq_true_2 _ Hin) in *. discriminate. }
  assert (Hu : local_filePath ∉ unableToCompressVideoFiles s).
  { unfold inb in *. intros Hin.
    rewrite (bool_decide_eq_true_2 _ Hin) in *. discriminate. }
  unfold bind at 1. unfold gets at 1.
  unfold bind at 1.
  assert (exists d1,
    (if exists_ (disk s) (new_file_path local_filePath)
     then retry_loop 100 (on_disk (OS.remove (new_file_path local_filePath)))
     else ret tt) s = (Return tt, set_disk d1 s)) as [d1 Hstale].
  { destruct (exists_ (disk s) (new_file_path local_filePath)).
    - apply retry_loop_on_disk.
    - exists (disk s). destruct s; reflexivity. }
  rewrite Hstale.
  unfold bind at 1. unfold call_compress_video_file. simpl disk.
  destruct (compress_video_file ffmpeg d1 local_filePath
              (new_file_path local_filePath)) as [result d2].
  unfold bind at 1. unfold gets at 1. cbn [disk set_calls set_disk].
  destruct result, (exists_ d2 (new_file_path local_filePath)); cbn [andb].
  - unfold bind at 1.
    match goal with |- context [retry_loop 100 ?m ?st] =>
      destruct (retry_loop_on_disk 100 (OS.remove local_filePath) st) as [d3 H3]
    end.
    rewrite H3.
    unfold bind at 1.
    match goal with |- context [retry_loop 100 (on_disk ?m) ?st] =>
      destruct (retry_loop_on_disk 100 m st) as [d4 H4]
    end.
    rewrite H4.
    unfold bind, modify, gets. rewrite on_disk_dump.
    eexists _, _. split; [reflexivity|]. simpl. auto 10.
  - eexists _, _. split; [reflexivity|]. simpl. auto 10.
  - rewrite on_disk_eq. eexists _, _. split; [reflexivity|]. simpl. auto 10.
  - eexists _, _. split; [reflexivity|]. simpl. auto 10.
Qed.

(** The calls [new] made since [s0] hold no image transcoding of [p], and
    [p] is still in one of the two image sets. *)
Lemma image_loop p s0 lines localRoot_adj remoteRoot s new :
  calls s = calls s0 ++ new ->
  CompressImage p ∉ new ->
  p ∈ compressedImageFiles s \/ p ∈ unableToCompressImageFiles s ->
  exists s' new',
    for_each lines
      (image_line cfg megaTools compressImages_lib localRoot_adj remoteRoot) s
      = (Return tt, s') /\
    calls s' = calls s0 ++ new' /\
    (CompressImage p ∉ new') /\
    (p ∈ compressedImageFiles s' \/ p ∈ unableToCompressImageFiles s').
Proof.
  revert s new. induction lines as [|line lines IH]; intros s new Hcalls Hnew Hp.
  - exists s, new. auto.
  - simpl. unfold bind at 1.
    destruct (image_line_effect localRoot_adj remoteRoot line s)
      as (s1 & -> & Hci & Hui & Hcl).
    assert (Hp1 : p ∈ compressedImageFiles s1 \/ p ∈ unableToCompressImageFiles s1).
    { rewrite Hci. destruct Hp as [Hp|Hp]; [auto|right].
      destruct Hui as [->| ->]; [assumption|]. apply elem_of_app; auto. }
    destruct Hcl as [Hcl|(Hn1 & Hn2 & Hcl)].
    + apply (IH s1 new); [congruence|assumption|assumption].
    + apply (IH s1 (new ++ [CompressImage
               (local_file_path megaTools localRoot_adj remoteRoot line)])).
      * rewrite Hcl, Hcalls, <- app_assoc. reflexivity.
      * intros Hin. apply elem_of_app in Hin as [Hin|Hin]; [auto|].
        apply list_elem_of_singleton in Hin. injection Hin as Heq.
        subst p. tauto.
      * assumption.
Qed.

Lemma video_loop p s0 lines localRoot_adj remoteRoot s new :
  calls s = calls s0 ++ new ->
  (forall targetPath, CompressVideo p targetPath ∉ new) ->
  p ∈ compressedVideoFiles s \/ p ∈ unableToCompressVideoFiles s ->
  exists r s' new',
    for_each lines
      (video_line cfg megaTools ffmpeg localRoot_adj remoteRoot) s = (r, s') /\
    calls s' = calls s0 ++ new' /\
    (forall targetPath, CompressVideo p targetPath ∉ new') /\
    (p ∈ compressedVideoFiles s' \/ p ∈ unableToCompressVideoFiles s').
Proof.
  revert s new. induction lines as [|line lines IH]; intros s new Hcalls Hnew Hp.
  - exists (Return tt), s, new. auto.
  - simpl. unfold bind at 1.
    destruct (video_line_effect localRoot_adj remoteRoot line s)
      as (r & s1 & -> & Huv & Hcv & Hcl).
    assert (Hp1 : p ∈ compressedVideoFiles s1 \/ p ∈ unableToCompressVideoFiles s1).
    { rewrite Huv. destruct Hp as [Hp|Hp]; [left|auto].
      destruct Hcv as [->| ->]; [assumption|]. apply elem_of_app; auto. }
    assert (exists new1, calls s1 = calls s0 ++ new1 /\
              forall targetPath, CompressVideo p targetPath ∉ new1)
      as (new1 & Hcalls1 & Hnew1).
    { destruct Hcl as [Hcl|(Hn1 & Hn2 & Hcl)].
      - exists new. split; [congruence|assumption].
      - eexists (new ++ [_]). split.
        + rewrite Hcl, Hcalls, <- app_assoc. reflexivity.
        + intros targetPath Hin. apply elem_of_app in Hin as [Hin|Hin].
          * exact (Hnew _ Hin).
          * apply list_elem_of_singleton in Hin. injection Hin as Heq _.
            subst p. tauto. }
    destruct r as [[]|e].
    + apply (IH s1 new1); assumption.
    + exists (Raise e), s1, new1. auto.
Qed.

(** C1. The compression pipelines skip processed files.  A path [p] that is
    in the compressed-images or the unable-to-compress-images set when the
    image pipeline starts is not handed to the image transcoder by that run,
    and is still in one of the two sets when the run returns, so that the
    same holds of the next run; likewise for the video pipeline and the two
    video sets, whether the run returns or ends in an exception. *)
Theorem compression_skips_processed_files
    (username password localRoot remoteRoot : string) (s : State) (p : string) :
  (p ∈ compressedImageFiles s \/ p ∈ unableToCompressImageFiles s ->
   exists s' new,
     _find_image_files_to_compress cfg megaTools compressImages_lib
       username password localRoot remoteRoot s = (Return tt, s') /\
     calls s' = calls s ++ new /\
     (CompressImage p ∉ new) /\
     (p ∈ compressedImageFiles s' \/ p ∈ unableToCompressImageFiles s')) /\
  (p ∈ compressedVideoFiles s \/ p ∈ unableToCompressVideoFiles s ->
   exists r s' new,
     _find_video_files_to_compress cfg megaTools ffmpeg
       username password localRoot remoteRoot s = (r, s') /\
     calls s' = calls s ++ new /\
     (forall targetPath, CompressVideo p targetPath ∉ new) /\
     (p ∈ compressedVideoFiles s' \/ p ∈ unableToCompressVideoFiles s')).
Proof.
  split; intros Hp.
  - unfold _find_image_files_to_compress.
    destruct (get_remote_file_data_recursively megaTools username password
                remoteRoot) as [|line lines] eqn:E.
    + exists s, []. rewrite app_nil_r. repeat split; auto. intros H; inversion H.
    + apply (image_loop p s (line :: lines) _ _ s []); auto.
      * rewrite app_nil_r. reflexivity.
      * intros H; inversion H.
  - unfold _find_video_files_to_compress.
    destruct (get_remote_file_data_recursively megaTools username password
                remoteRoot) as [|line lines] eqn:E.
    + exists (Return tt), s, []. rewrite app_nil_r. repeat split; auto.
      intros t H; inversion H.
    + apply (video_loop p s (line :: lines) _ _ s []); auto.
      * rewrite app_nil_r. reflexivity.
      * intros t H; inversion H.
Qed.

(** C3 at a concrete input. The picture [C:/sync/pic.jpg] is eligible, the
    transcoder reports success and leaves the backup sidecar.  The sidecar
    is deleted, but the path goes into the attribute [compressedFiles]
    and not into the compressed-images set: that set stays empty, and it is
    the empty set that is dumped to the store file. *)
Theorem image_success_is_not_recorded :
  let s' := snd (_find_image_files_to_compress cfg0
                   (sample_megaTools ["/Root/pic.jpg"] true)
                   (sample_compressImages true true)
                   "ann@example.org" "secret" "C:\sync" "/Root"
                   (initial media_disk)) in
  calls s' = [CompressImage "C:/sync/pic.jpg"] /\
  exists_ (disk s') "C:/sync/pic.jpg.compressimages-backup" = false /\
  compressedImageFiles s' = [] /\
  compressedFiles s' = ["C:/sync/pic.jpg"] /\
  fst (load_file_as_list (COMPRESSED_IMAGES_FILE cfg0) (disk s')) = Return [].
Proof. vm_compute. repeat split; reflexivity. Qed.

(** The image pipeline leaves the compressed-images set as it found it,
    whatever the listing and the transcoder. *)
Lemma image_pipeline_keeps_compressed_set
    (username password localRoot remoteRoot : string) (s : State) :
  compressedImageFiles
    (snd (_find_image_files_to_compress cfg megaTools compressImages_lib
            username password localRoot remoteRoot s))
  = compressedImageFiles s.
Proof.
  unfold _find_image_files_to_compress.
  destruct (get_remote_file_data_recursively megaTools username password
              remoteRoot) as [|line lines]; [reflexivity|].
  generalize (line :: lines). clear line lines. intros lines.
  revert s. induction lines as [|line lines IH]; intros s; [reflexivity|].
  simpl. unfold bind at 1.
  destruct (image_line_effect (slashes localRoot) remoteRoot line s)
    as (s1 & -> & Hci & _).
  rewrite IH. exact Hci.
Qed.

(** A second run of the image pipeline transcodes the same picture again. *)
Lemma compressed_image_is_transcoded_again :
  let run := _find_image_files_to_compress cfg0
               (sample_megaTools ["/Root/pic.jpg"] true)
               (sample_compressImages true true)
               "ann@example.org" "secret" "C:\sync" "/Root" in
  calls (snd (run (snd (run (initial media_disk)))))
  = [CompressImage "C:/sync/pic.jpg"; CompressImage "C:/sync/pic.jpg"].
Proof. vm_compute. reflexivity. Qed.

(** C8 at a concrete input. The clip [C:/sync/clip.mp4] is eligible, the
    transcoder reports failure and leaves no output file.  The path is
    recorded nowhere: the unable-to-compress-videos set stays empty. *)
Theorem video_failure_is_not_recorded :
  let s' := snd (_find_video_files_to_compress cfg0
                   (sample_megaTools ["/Root/clip.mp4"] true)
                   (sample_ffmpeg false false)
                   "ann@example.org" "secret" "C:\sync" "/Root"
                   (initial media_disk)) in
  calls s' = [CompressVideo "C:/sync/clip.mp4" "C:/sync/clip_NEW.mp4"] /\
  exists_ (disk s') "C:/sync/clip_NEW.mp4" = false /\
  unableToCompressVideoFiles s' = [] /\
  compressedVideoFiles s' = [].
Proof. vm_compute. repeat split; reflexivity. Qed.

(** The video pipeline leaves the unable-to-compress-videos set as it found
    it, whatever the listing and the transcoder. *)
Lemma video_pipeline_keeps_unable_set
    (username password localRoot remoteRoot : string) (s : State) :
  unableToCompressVideoFiles
    (snd (_find_video_files_to_compress cfg megaTools ffmpeg
            username password localRoot remoteRoot s))
  = unableToCompressVideoFiles s.
Proof.
  unfold _find_video_files_to_compress.
  destruct (get_remote_file_data_recursively megaTools username password
              remoteRoot) as [|line lines]; [reflexivity|].
  generalize (line :: lines). clear line lines. intros lines.
  revert s. induction lines as [|line lines IH]; intros s; [reflexivity|].
  simpl. unfold bind at 1.
  destruct (video_line_effect (slashes localRoot) remoteRoot line s)
    as (r & s1 & -> & Huv & _).
  destruct r; [rewrite IH|]; exact Huv.
Qed.

(** The other half of the classification holds: the transcoder reports
    failure but leaves an output file; the file is deleted and neither video
    set changes. *)
Lemma video_failure_with_output_is_discarded :
  let s' := snd (_find_video_files_to_compress cfg0
                   (sample_megaTools ["/Root/clip.mp4"] true)
                   (sample_ffmpeg false true)
                   "ann@example.org" "secret" "C:\sync" "/Root"
                   (initial media_disk)) in
  exists_ (disk s') "C:/sync/clip_NEW.mp4" = false /\
  unableToCompressVideoFiles s' = [] /\
  compressedVideoFiles s' = [].
Proof. vm_compute. repeat split; reflexivity. Qed.

End Compression.

(** ** The thread orchestrator *)

Section Orchestrator.

Lemma list_remove_keeps (x t : Thread) l :
  t ∈ l -> t <> x -> t ∈ list_remove x l.
Proof.
  induction l as [|y l IH]; intros Hin Hne; [inversion Hin|].
  simpl. apply elem_of_cons in Hin as [->|Hin].
  - destruct (decide (y = x)); [contradiction|]. apply list_elem_of_here.
  - destruct (decide (y = x)); [assumption|].
    apply list_elem_of_further. auto.
Qed.

Lemma list_remove_length x l : length (list_remove x l) <= length l.
Proof.
  induction l as [|y l IH]; simpl; [lia|].
  destruct (decide (y = x)); simpl; lia.
Qed.

(** When a turn has seen a running detail gatherer, a running thread is
    left in the registry. *)
Lemma poll_threads_found steps alive i registry found :
  (found = true -> exists t, t ∈ registry /\ alive t = true) ->
  snd (poll_threads steps alive i registry found) = true ->
  exists t, t ∈ fst (poll_threads steps alive i registry found) /\ alive t = true.
Proof.
  revert i registry found.
  induction steps as [|steps IH]; intros i registry found Hinv; simpl; [exact Hinv|].
  destruct (registry !! i) as [thread|] eqn:E; simpl; [|exact Hinv].
  destruct (alive thread) eqn:A; simpl.
  - assert (Hin : thread ∈ registry) by (apply list_elem_of_lookup; eauto).
    destruct (contains "megaFile" (name thread)); apply IH; eauto.
  - apply IH. intros Hf. destruct (Hinv Hf) as (t & Hin & Ht).
    exists t. split; [|assumption].
    apply list_remove_keeps; [assumption|]. intros ->. congruence.
Qed.

Lemma poll_threads_nonempty n alive registry :
  snd (poll_threads n alive 0 registry false) = true ->
  fst (poll_threads n alive 0 registry false) <> [].
Proof.
  intros H. apply poll_threads_found in H as (t & Hin & _); [|discriminate].
  intros E. rewrite E in Hin. inversion Hin.
Qed.

Lemma poll_threads_length steps alive i registry found :
  length (fst (poll_threads steps alive i registry found)) <= length registry.
Proof.
  revert i registry found.
  induction steps as [|steps IH]; intros i registry found; simpl; [lia|].
  destruct (registry !! i) as [thread|]; simpl; [|lia].
  destruct (alive thread); simpl.
  - destruct (contains "megaFile" (name thread)); apply IH.
  - etransitivity; [apply IH|apply list_remove_length].
Qed.

Lemma exports_export s :
  exports (snd (_export_accounts_details_dict s)) = exports s + 1.
Proof.
  unfold exports, _export_accounts_details_dict, record_call, modify. simpl.
  rewrite filter_app, length_app. reflexivity.
Qed.

Lemma wait_loop_cons poll polls startTime timeout flag s :
  wait_loop (poll :: polls) startTime timeout flag s =
    let registry := threads s ++ spawned poll in
    match registry with
    | [] => (Finished, set_threads registry s)
    | _ =>
        if negb (timeout <? now poll - startTime)%Z then
          let turn := poll_threads (length registry) (isAlive poll) 0 registry false in
          if negb (snd turn) && negb flag then
            wait_loop polls startTime timeout true
              (snd (_export_accounts_details_dict (set_threads (fst turn) s)))
          else
            wait_loop polls startTime timeout flag (set_threads (fst turn) s)
        else (TimedOut, set_threads registry s)
    end.
Proof.
  cbv zeta. cbn [wait_loop threads set_threads].
  destruct (threads s ++ spawned poll) as [|t registry]; [reflexivity|].
  destruct (negb (timeout <? now poll - startTime)%Z); [|reflexivity].
  destruct (poll_threads (length (t :: registry)) (isAlive poll) 0
              (t :: registry) false) as [registry' found].
  reflexivity.
Qed.

Lemma wait_loop_nil startTime timeout flag s :
  wait_loop [] startTime timeout flag s =
    (match threads s with [] => Finished | _ => Waiting end, s).
Proof. reflexivity. Qed.

Lemma poll_threads_dead_head steps alive t registry found :
  alive t = false ->
  poll_threads (S steps) alive 0 (t :: registry) found =
    poll_threads steps alive 1 registry found.
Proof.
  intros H. simpl. rewrite H. simpl.
  destruct (decide (t = t)); [reflexivity|contradiction].
Qed.

Arguments wait_loop : simpl never.
Arguments poll_threads : simpl never.

(** The export count along the wait loop: unchanged once the flag is set;
    otherwise raised by one at most, and by one exactly when the loop ends
    on an empty registry that was not empty to start with. *)
Lemma wait_loop_exports polls startTime timeout :
  forall megaFileFinished s,
    let r := wait_loop polls startTime timeout megaFileFinished s in
    if megaFileFinished then exports (snd r) = exports s
    else (exports (snd r) = exports s \/ exports (snd r) = exports s + 1) /\
         (threads s <> [] -> fst r = Finished -> exports (snd r) = exports s + 1).
Proof.
  induction polls as [|poll polls IH]; intros flag s; cbv zeta.
  - rewrite wait_loop_nil. destruct flag; [reflexivity|]. split; [auto|].
    intros Hne. destruct (threads s); [contradiction|].
    cbn [fst]. intros H. discriminate H.
  - rewrite wait_loop_cons. cbv zeta.
    destruct (threads s ++ spawned poll) as [|t registry] eqn:E.
    { destruct flag; [reflexivity|]. split; [auto|].
      intros Hne. apply app_eq_nil in E as [E _]. contradiction. }
    destruct (negb (timeout <? now poll - startTime)%Z).
    2:{ destruct flag; [reflexivity|]. split; [auto|].
        cbn [fst]. intros _ H. discriminate H. }
    pose proof (poll_threads_nonempty (length (t :: registry)) (isAlive poll)
                  (t :: registry)) as Hne'.
    destruct (poll_threads (length (t :: registry)) (isAlive poll) 0
                (t :: registry) false) as [registry' found].
    cbn [fst snd] in *.
    destruct flag.
    + replace (negb found && negb true) with false
        by (destruct found; reflexivity).
      exact (IH true (set_threads registry' s)).
    + destruct found; cbn [negb andb].
      * specialize (IH false (set_threads registry' s)).
        destruct IH as [IH1 IH2]. split; [exact IH1|].
        intros _ Hfin. exact (IH2 (Hne' eq_refl) Hfin).
      * specialize (IH true
          (snd (_export_accounts_details_dict (set_threads registry' s)))).
        cbv zeta in IH. rewrite IH, exports_export.
        change (exports (set_threads registry' s)) with (exports s). auto.
Qed.

(** C2, as the code has it. The export of the account details is called at
    most once by [_wait_for_threads_to_finish], however many threads there
    are; it is called exactly once when the wait, started on a registry that
    is not empty, ends because the registry has emptied. *)
Theorem export_at_most_once_and_once_when_finished
    (startTime : Z) (polls : list Poll) (timeout : Z) (s : State) :
  let r := _wait_for_threads_to_finish startTime polls timeout s in
  (exports (snd r) = exports s \/ exports (snd r) = exports s + 1) /\
  (threads s <> [] -> fst r = Finished -> exports (snd r) = exports s + 1).
Proof.
  exact (wait_loop_exports polls startTime timeout false s).
Qed.

(** The wait does end on an empty registry: when every turn is quiet, as
    many turns as there are threads empty the registry. *)
Lemma wait_finishes polls startTime timeout flag s :
  Forall (quiet startTime timeout) polls ->
  length (threads s) <= length polls ->
  fst (wait_loop polls startTime timeout flag s) = Finished.
Proof.
  revert flag s. induction polls as [|poll polls IH]; intros flag s Hq Hlen.
  - rewrite wait_loop_nil. destruct (threads s); [reflexivity|simpl in Hlen; lia].
  - rewrite wait_loop_cons. cbv zeta.
    apply Forall_cons in Hq as [(Hsp & Hnow & Hdead) Hq].
    rewrite Hsp, app_nil_r.
    destruct (threads s) as [|t registry] eqn:E; [reflexivity|].
    replace (timeout <? now poll - startTime)%Z with false
      by (symmetry; apply Z.ltb_ge; lia).
    cbn [negb].
    assert (Hshrink :
      length (fst (poll_threads (length (t :: registry)) (isAlive poll) 0
                     (t :: registry) false)) <= length registry).
    { cbn [length]. rewrite (poll_threads_dead_head _ _ _ _ _ (Hdead t)).
      apply poll_threads_length. }
    simpl in Hlen.
    destruct (negb _ && negb flag); apply IH; try assumption;
      simpl in *; lia.
Qed.

(** C2 as stated fails at a timeout. One detail gatherer is registered and
    still running when the timeout of 99999 seconds expires: the wait
    returns and the export has not been called. *)
Lemma export_skipped_on_timeout :
  let r := _wait_for_threads_to_finish 0 polls_until_timeout 99999 gathering in
  fst r = TimedOut /\ exports (snd r) = 0 /\ exports (snd r) <> 1.
Proof. vm_compute. repeat split. discriminate. Qed.

(** Removing from the registry while iterating over it skips the thread
    that follows a finished one.  With a finished download thread ahead of
    a running detail gatherer, the turn does not look at the gatherer and
    the export is called while the gatherer is running and registered. *)
Lemma export_while_detail_gatherer_runs :
  let r := _wait_for_threads_to_finish 0 [mkPoll [] 1 gatherer_alive] 99999
             download_then_gatherer in
  exports (snd r) = 1 /\
  threads (snd r) = [mkThread 1 "thread_megaFile_ann"] /\
  gatherer_alive (mkThread 1 "thread_megaFile_ann") = true.
Proof. vm_compute. repeat split. Qed.

End Orchestrator.

(** ** Scheduling *)

Section Scheduling.

Variable cfg : Config.

Lemma load_file_as_list_returns filePath d :
  exists items, load_file_as_list filePath d = (Return items, d).
Proof.
  unfold load_file_as_list, bind, gets, isfile, finally_return, try_except,
    load, member, ret, raise.
  destruct (files d !! filePath) as [[|[raw|members]]|] eqn:E; simpl;
    try rewrite E; simpl; eauto.
  destruct (assoc "list" members); simpl; eauto.
Qed.

Lemma on_disk_load filePath s :
  exists items, on_disk (load_file_as_list filePath) s = (Return items, s).
Proof.
  destruct (load_file_as_list_returns filePath (disk s)) as [items H].
  exists items. rewrite on_disk_eq, H. destruct s; reflexivity.
Qed.

Lemma appends_ret : appends (ret tt) [].
Proof. intros s. exists s. rewrite app_nil_r. auto. Qed.

Lemma appends_start thread_name : appends (start_thread thread_name) [thread_name].
Proof.
  intros s. eexists. split; [reflexivity|].
  unfold thread_names. simpl. rewrite fmap_app. reflexivity.
Qed.

Lemma appends_bind m k a b :
  appends m a -> appends k b -> appends (m ;; k) (a ++ b).
Proof.
  intros Hm Hk s. destruct (Hm s) as (s1 & E1 & N1).
  destruct (Hk s1) as (s2 & E2 & N2).
  exists s2. unfold bind. rewrite E1, E2. split; [reflexivity|].
  rewrite N2, N1, app_assoc. reflexivity.
Qed.

Lemma appends_if (b : bool) m ns :
  appends m ns -> appends (if b then m else ret tt) (if b then ns else []).
Proof. destruct b; [auto|intros _; apply appends_ret]. Qed.

Lemma appends_for_each {A} (l : list A) body (F : A -> list string) :
  (forall x, appends (body x) (F x)) ->
  appends (for_each l body) (concat (F <$> l)).
Proof.
  intros H. induction l as [|x l IH]; simpl.
  - apply appends_ret.
  - apply appends_bind; auto.
Qed.

(** Reading a store file into one of the sets registers no thread. *)
Lemma appends_load filePath (set : list string -> State -> State) k ns :
  (forall v s, threads (set v s) = threads s) ->
  appends k ns ->
  appends (let! l := on_disk (load_file_as_list filePath) in modify (set l) ;; k) ns.
Proof.
  intros Hset Hk s. destruct (on_disk_load filePath s) as [items E].
  destruct (Hk (set items s)) as (s' & E' & N').
  exists s'. unfold bind at 1. rewrite E. unfold bind, modify. rewrite E'.
  split; [reflexivity|]. rewrite N'. unfold thread_names. rewrite Hset.
  reflexivity.
Qed.

Lemma appends_compress_image_files :
  appends (_create_thread_compress_image_files cfg) ["thread_compressImages"].
Proof.
  unfold _create_thread_compress_image_files.
  apply appends_load; [reflexivity|].
  apply appends_load; [reflexivity|].
  apply appends_start.
Qed.

Lemma appends_compress_video_files :
  appends (_create_thread_compress_video_files cfg) ["thread_compressVideos"].
Proof.
  unfold _create_thread_compress_video_files.
  apply appends_load; [reflexivity|].
  apply appends_load; [reflexivity|].
  apply appends_start.
Qed.

(** The compression workers [run] creates, by its three flags. *)
Lemma appends_compression :
  appends
    (if compressAll cfg then
       _create_thread_compress_image_files cfg ;;
       _create_thread_compress_video_files cfg
     else if compressImages cfg then _create_thread_compress_image_files cfg
     else if compressVideos cfg then _create_thread_compress_video_files cfg
     else ret tt)
    (if compressAll cfg then ["thread_compressImages"; "thread_compressVideos"]
     else if compressImages cfg then ["thread_compressImages"]
     else if compressVideos cfg then ["thread_compressVideos"]
     else []).
Proof.
  destruct (compressAll cfg).
  - apply (appends_bind _ _ ["thread_compressImages"] ["thread_compressVideos"]).
    + apply appends_compress_image_files.
    + apply appends_compress_video_files.
  - destruct (compressImages cfg); [apply appends_compress_image_files|].
    destruct (compressVideos cfg); [apply appends_compress_video_files|].
    apply appends_ret.
Qed.

Lemma appends_removed_remote_file_deletion accounts :
  foundUserPass cfg = Some accounts ->
  appends (_create_threads_removed_remote_file_deletion cfg)
    (concat ((fun account : string * string =>
                ["thread_remoteFileRemover_" +:+ fst account]) <$> accounts)).
Proof.
  intros Hf. unfold _create_threads_removed_remote_file_deletion.
  apply appends_load; [reflexivity|].
  unfold read_foundUserPass. rewrite Hf.
  apply (appends_for_each accounts _
           (fun account => ["thread_remoteFileRemover_" +:+ fst account])).
  intros account. apply appends_start.
Qed.

(** Without the attribute, the function ends in [AttributeError] once it
    has loaded the set. *)
Lemma stops_removed_remote_file_deletion :
  foundUserPass cfg = None ->
  stops (_create_threads_removed_remote_file_deletion cfg) AttributeError [].
Proof.
  intros Hf s. unfold _create_threads_removed_remote_file_deletion.
  destruct (on_disk_load (REMOVED_REMOTE_FILES cfg) s) as [items E].
  exists (set_removedRemoteFiles items s).
  unfold bind at 1. rewrite E. unfold bind, modify, read_foundUserPass.
  rewrite Hf. split; [reflexivity|]. rewrite app_nil_r. reflexivity.
Qed.

Lemma stops_bind m k a e b :
  appends m a -> stops k e b -> stops (m ;; k) e (a ++ b).
Proof.
  intros Hm Hk s. destruct (Hm s) as (s1 & E1 & N1).
  destruct (Hk s1) as (s2 & E2 & N2).
  exists s2. unfold bind. rewrite E1, E2. split; [reflexivity|].
  rewrite N2, N1, app_assoc. reflexivity.
Qed.

Lemma stops_first m (k : M State unit) e a : stops m e a -> stops (m ;; k) e a.
Proof.
  intros Hm s. destruct (Hm s) as (s1 & E1 & N1).
  exists s1. unfold bind. rewrite E1. auto.
Qed.

Lemma appends_unfinished_file_remover :
  appends
    (if removeIncomplete cfg
     then _create_threads_local_unfinished_file_remover cfg else ret tt)
    (if removeIncomplete cfg
     then concat ((fun profile =>
                     concat ((fun _ : PathMapping =>
                                ["thread_unfinishedFileRemover_"
                                 +:+ profileName profile])
                             <$> pathMappings profile))
                  <$> syncProfiles cfg)
     else []).
Proof.
  apply appends_if. unfold _create_threads_local_unfinished_file_remover.
  apply (appends_for_each (syncProfiles cfg) _
           (fun profile =>
              concat ((fun _ : PathMapping =>
                         ["thread_unfinishedFileRemover_" +:+ profileName profile])
                      <$> pathMappings profile))).
  intros profile.
  apply (appends_for_each (pathMappings profile) _
           (fun _ => ["thread_unfinishedFileRemover_" +:+ profileName profile])).
  intros _. apply appends_start.
Qed.

Lemma appends_run_create_threads :
  (removeRemote cfg = true -> foundUserPass cfg <> None) ->
  appends (run_create_threads cfg)
    (scheduled_before_compression cfg ++
     (if compressAll cfg then ["thread_compressImages"; "thread_compressVideos"]
      else if compressImages cfg then ["thread_compressImages"]
      else if compressVideos cfg then ["thread_compressVideos"]
      else [])).
Proof.
  intros Haccounts.
  unfold run_create_threads, scheduled_before_compression.
  rewrite <- !app_assoc.
  apply appends_bind; [apply appends_start|].
  apply appends_bind; [apply appends_unfinished_file_remover|].
  apply appends_bind; [apply appends_if, appends_start|].
  apply appends_bind; [apply appends_if, appends_start|].
  apply appends_bind; [|apply appends_compression].
  destruct (removeRemote cfg); [|apply appends_ret].
  destruct (foundUserPass cfg) as [accounts|] eqn:Hf;
    [|exfalso; apply Haccounts; reflexivity].
  apply (appends_removed_remote_file_deletion accounts Hf).
Qed.

(** With pruning on and no [self.__foundUserPass], the thread-creating
    part of [run] ends in [AttributeError] before it looks at the
    compression flags: what it has registered by then is what comes before
    the compression workers. *)
Lemma stops_run_create_threads :
  removeRemote cfg = true -> foundUserPass cfg = None ->
  stops (run_create_threads cfg) AttributeError (scheduled_before_compression cfg).
Proof.
  intros Hr Hf.
  unfold run_create_threads, scheduled_before_compression.
  apply stops_bind; [apply appends_start|].
  apply stops_bind; [apply appends_unfinished_file_remover|].
  apply stops_bind; [apply appends_if, appends_start|].
  apply stops_bind; [apply appends_if, appends_start|].
  rewrite Hr, Hf. apply stops_first, stops_removed_remote_file_deletion, Hf.
Qed.

Lemma elem_of_concat (x : string) (ls : list (list string)) :
  x ∈ concat ls -> exists l, x ∈ l /\ l ∈ ls.
Proof.
  induction ls as [|l ls IH]; simpl; intros H; [inversion H|].
  apply elem_of_app in H as [H|H].
  - exists l. split; [assumption|apply list_elem_of_here].
  - destruct (IH H) as (l' & Hx & Hl). exists l'.
    split; [assumption|apply list_elem_of_further; assumption].
Qed.

Lemma scheduled_before_compression_names n :
  n ∈ scheduled_before_compression cfg -> not_a_compression_thread n.
Proof.
  unfold scheduled_before_compression, not_a_compression_thread.
  rewrite !elem_of_app. intros [H|[H|[H|[H|H]]]].
  - apply list_elem_of_singleton in H. subst n. reflexivity.
  - destruct (removeIncomplete cfg); [|inversion H].
    apply elem_of_concat in H as (l & Hn & Hl).
    apply list_elem_of_fmap in Hl as (profile & -> & _).
    apply elem_of_concat in Hn as (l & Hn & Hl).
    apply list_elem_of_fmap in Hl as (pm & -> & _).
    apply list_elem_of_singleton in Hn. subst n. reflexivity.
  - destruct (download cfg); [|inversion H].
    apply list_elem_of_singleton in H. subst n. reflexivity.
  - destruct (upload cfg); [|inversion H].
    apply list_elem_of_singleton in H. subst n. reflexivity.
  - destruct (removeRemote cfg); [|inversion H].
    apply elem_of_concat in H as (l & Hn & Hl).
    apply list_elem_of_fmap in Hl as (account & -> & _).
    apply list_elem_of_singleton in Hn. subst n. reflexivity.
Qed.

(** C9. Precedence of the compression flags. Started on an empty registry
    in a run that gets past the creation of the pruning threads (pruning is
    off, or the attribute [self.__foundUserPass] exists), the
    thread-creating part of [run] returns, and: with compress-images and
    compress-videos both set and compress-all not set, the image worker is
    registered and the video worker is not; in general the video worker is
    registered exactly when compress-all is set, or compress-videos is set
    and compress-images is not. *)
Theorem compression_flag_precedence (s : State) :
  threads s = [] ->
  (removeRemote cfg = true -> foundUserPass cfg <> None) ->
  exists s',
    run_create_threads cfg s = (Return tt, s') /\
    (compressAll cfg = false -> compressImages cfg = true ->
     compressVideos cfg = true ->
     "thread_compressImages" ∈ thread_names s' /\
     ("thread_compressVideos" ∉ thread_names s')) /\
    ("thread_compressVideos" ∈ thread_names s' <->
     compressAll cfg = true \/
     (compressVideos cfg = true /\ compressImages cfg = false)).
Proof.
  intros Hempty Haccounts.
  destruct (appends_run_create_threads Haccounts s) as (s' & E & N).
  exists s'. split; [exact E|].
  unfold thread_names at 2 in N. rewrite Hempty, fmap_nil, app_nil_l in N.
  rewrite N. clear N E.
  assert (Hv : "thread_compressVideos" ∉ scheduled_before_compression cfg).
  { intros H. apply scheduled_before_compression_names in H. discriminate H. }
  split.
  - intros Hall Himages _. rewrite Hall, Himages. split.
    + apply elem_of_app. right. apply list_elem_of_here.
    + intros H. apply elem_of_app in H as [H|H]; [auto|].
      apply list_elem_of_singleton in H. discriminate H.
  - rewrite elem_of_app.
    destruct (compressAll cfg), (compressImages cfg), (compressVideos cfg);
      split;
      try (intros [H|H]; [contradiction|];
           repeat (apply elem_of_cons in H as [H|H]; try discriminate H);
           try (inversion H; fail); auto);
      try (intros [H|[H1 H2]]; discriminate);
      try (intros _; right; repeat constructor).
Qed.

(** With C9: the run that does not get past the creation of the pruning
    threads.  With pruning on and no [self.__foundUserPass], [run] leaves
    its [try] block with [AttributeError] and no compression worker is
    registered, whatever the compression flags. *)
Lemma no_compression_worker_without_accounts (s : State) :
  threads s = [] ->
  removeRemote cfg = true -> foundUserPass cfg = None ->
  exists s',
    run_create_threads cfg s = (Raise AttributeError, s') /\
    forall n, n ∈ thread_names s' -> not_a_compression_thread n.
Proof.
  intros Hempty Hr Hf.
  destruct (stops_run_create_threads Hr Hf s) as (s' & E & N).
  exists s'. split; [exact E|].
  unfold thread_names at 2 in N. rewrite Hempty, fmap_nil, app_nil_l in N.
  rewrite N. apply scheduled_before_compression_names.
Qed.

End Scheduling.

(** ** Strings and paths of [lib.py] *)

Section LibPaths.

Lemma append_cons c (a b : string) : String c a +:+ b = String c (a +:+ b).
Proof. reflexivity. Qed.

Lemma append_nil (b : string) : EmptyString +:+ b = b.
Proof. reflexivity. Qed.

Lemma prefix_app a post : String.prefix a (a +:+ post) = true.
Proof.
  induction a as [|c a IH]; [rewrite append_nil; destruct post; reflexivity|].
  rewrite append_cons. simpl.
  destruct (ascii_dec c c); [exact IH|contradiction].
Qed.

Lemma prefix_split a b : String.prefix a b = true -> exists post, b = a +:+ post.
Proof.
  revert b. induction a as [|c a IH]; intros b H.
  - exists b. reflexivity.
  - destruct b as [|d b]; simpl in H; [discriminate|].
    destruct (ascii_dec c d) as [->|]; [|discriminate].
    destruct (IH b H) as [post ->]. exists post. reflexivity.
Qed.

Lemma string_app_assoc (a b c : string) : (a +:+ b) +:+ c = a +:+ (b +:+ c).
Proof.
  induction a as [|x a IH]; [reflexivity|].
  rewrite !append_cons. f_equal. exact IH.
Qed.

Lemma contains_nil pat :
  contains pat EmptyString = String.prefix pat EmptyString.
Proof. simpl. apply orb_false_r. Qed.

Lemma contains_cons pat c s :
  contains pat (String c s) = String.prefix pat (String c s) || contains pat s.
Proof. reflexivity. Qed.

(** [contains] is Python's substring test. *)
Lemma contains_split pat s :
  contains pat s = true <-> exists pre post, s = pre +:+ pat +:+ post.
Proof.
  split.
  - induction s as [|c s IH]; intros H.
    + rewrite contains_nil in H. apply prefix_split in H as [post ->].
      exists EmptyString, post. reflexivity.
    + rewrite contains_cons in H. apply orb_true_iff in H as [H|H].
      * apply prefix_split in H as [post ->]. exists EmptyString, post. reflexivity.
      * destruct (IH H) as (pre & post & ->). exists (String c pre), post. reflexivity.
  - intros (pre & post & ->). induction pre as [|c pre IH].
    + rewrite append_nil.
      destruct (pat +:+ post) eqn:E;
        [rewrite contains_nil|rewrite contains_cons]; rewrite <- E, prefix_app;
        reflexivity.
    + rewrite append_cons, contains_cons, IH. apply orb_true_r.
Qed.

Lemma contains_trans a b c :
  contains a b = true -> contains b c = true -> contains a c = true.
Proof.
  intros Hab Hbc.
  apply contains_split in Hab as (p1 & q1 & ->).
  apply contains_split in Hbc as (p2 & q2 & ->).
  apply contains_split. exists (p2 +:+ p1), (q1 +:+ q2).
  rewrite !string_app_assoc. reflexivity.
Qed.

Lemma contains_empty s : contains EmptyString s = true.
Proof. destruct s; reflexivity. Qed.

Lemma get_items_foldl (subString : string) l acc :
  foldl (fun subList item =>
           if contains subString item then subList ++ [item] else subList) acc l
  = acc ++ List.filter (contains subString) l.
Proof.
  revert acc. induction l as [|x l IH]; intros acc; simpl.
  - rewrite app_nil_r. reflexivity.
  - rewrite IH. destruct (contains subString x); [|reflexivity].
    rewrite <- app_assoc. reflexivity.
Qed.

Lemma get_items_filter l subString :
  get_items_in_list_with_subString l subString = List.filter (contains subString) l.
Proof. unfold get_items_in_list_with_subString. apply get_items_foldl. Qed.

(** X1. Narrowing a selection. When [s1] occurs in [s2], selecting the items
    with [s2] among those already selected with [s1] gives what selecting
    with [s2] in the whole list gives: the first selection has lost none of
    them, and their order is kept. *)
Theorem get_items_narrowing (l : list string) (s1 s2 : string) :
  contains s1 s2 = true ->
  get_items_in_list_with_subString (get_items_in_list_with_subString l s1) s2
  = get_items_in_list_with_subString l s2.
Proof.
  intros H. rewrite !get_items_filter.
  induction l as [|x l IH]; simpl; [reflexivity|].
  destruct (contains s2 x) eqn:E2.
  - rewrite (contains_trans _ _ _ H E2). simpl. rewrite E2, IH. reflexivity.
  - destruct (contains s1 x); simpl; [rewrite E2|]; exact IH.
Qed.

(** X2. The empty substring selects every item, and an item is selected
    exactly when it is in the list and can be written with the substring
    inside it. *)
Theorem get_items_selects (l : list string) (subString item : string) :
  get_items_in_list_with_subString l EmptyString = l /\
  (item ∈ get_items_in_list_with_subString l subString <->
   item ∈ l /\ exists pre post, item = pre +:+ subString +:+ post).
Proof.
  rewrite !get_items_filter. split.
  - induction l as [|x l IH]; simpl; [reflexivity|].
    rewrite contains_empty, IH. reflexivity.
  - rewrite <- contains_split, list_elem_of_In, filter_In, <- list_elem_of_In.
    reflexivity.
Qed.

Lemma slashes_app a b : slashes (a +:+ b) = slashes a +:+ slashes b.
Proof.
  induction a as [|c a IH]; [reflexivity|].
  rewrite append_cons. simpl. rewrite append_cons. f_equal. exact IH.
Qed.

Lemma slashes_idem a : slashes (slashes a) = slashes a.
Proof.
  induction a as [|c a IH]; simpl; [reflexivity|]. rewrite IH.
  destruct (Ascii.eqb c backslash) eqn:E; [reflexivity|]. rewrite E. reflexivity.
Qed.

Lemma drop_chars_app a b : drop_chars (String.length a) (a +:+ b) = b.
Proof.
  induction a as [|c a IH]; [rewrite append_nil; destruct b; reflexivity|].
  rewrite append_cons. simpl. exact IH.
Qed.

Lemma cut_nil pat :
  cut pat EmptyString =
    if String.prefix pat EmptyString
    then Some (EmptyString, drop_chars (String.length pat) EmptyString) else None.
Proof. reflexivity. Qed.

Lemma cut_cons pat c s :
  cut pat (String c s) =
    if String.prefix pat (String c s)
    then Some (EmptyString, drop_chars (String.length pat) (String c s))
    else match cut pat s with
         | Some (before, after) => Some (String c before, after)
         | None => None
         end.
Proof. reflexivity. Qed.

Lemma cut_none pat s : cut pat s = None <-> contains pat s = false.
Proof.
  induction s as [|c s IH].
  - rewrite cut_nil, contains_nil.
    destruct (String.prefix pat EmptyString); split; congruence.
  - rewrite cut_cons, contains_cons.
    destruct (String.prefix pat (String c s)); simpl; [split; congruence|].
    rewrite <- IH. destruct (cut pat s) as [[b a]|]; split; congruence.
Qed.

Lemma cut_at_prefix pat r : cut pat (pat +:+ r) = Some (EmptyString, r).
Proof.
  destruct (pat +:+ r) eqn:E; [rewrite cut_nil|rewrite cut_cons];
    rewrite <- E, prefix_app, drop_chars_app; reflexivity.
Qed.

(** Splitting a string that starts with the pattern and holds it nowhere
    else: an empty part, then the rest. *)
Lemma re_split_under_root pat r :
  pat <> EmptyString ->
  contains pat r = false ->
  re_split pat (pat +:+ r) = [EmptyString; r].
Proof.
  intros Hne Hr. unfold re_split. destruct pat as [|c pat]; [contradiction|].
  change (String.length (String c pat +:+ r))
    with (S (String.length (pat +:+ r))).
  cbn [split_at]. rewrite cut_at_prefix.
  apply cut_none in Hr.
  destruct (String.length (pat +:+ r)); cbn [split_at]; [reflexivity|].
  rewrite Hr. reflexivity.
Qed.

Lemma split_at_nonempty n pat s : split_at n pat s <> [].
Proof.
  destruct n; simpl; [discriminate|].
  destruct (cut pat s) as [[b a]|]; discriminate.
Qed.

Lemma slashes_nonempty a : a <> EmptyString -> slashes a <> EmptyString.
Proof. destruct a; [contradiction|discriminate]. Qed.

(** X3. For a local root that is not empty and, slashes normalised, holds
    no metacharacter of regular expressions (it is a pattern for
    [re.split]), [get_remote_path_from_local_path] answers [None] exactly
    when the normalised root does not occur in the normalised local path. *)
Theorem get_remote_path_none (localPath localRoot remoteRoot : string) :
  localRoot <> EmptyString ->
  literal_pattern (slashes localRoot) = true ->
  (get_remote_path_from_local_path localPath localRoot remoteRoot = None <->
   contains (slashes localRoot) (slashes localPath) = false).
Proof.
  intros Hne _. apply slashes_nonempty in Hne.
  unfold get_remote_path_from_local_path, re_split.
  destruct (slashes localRoot) as [|c root] eqn:E; [contradiction|].
  rewrite <- cut_none.
  destruct (slashes localPath) as [|d path] eqn:P.
  - simpl. destruct (ascii_dec c c); split; reflexivity.
  - cbn [String.length split_at].
    destruct (cut (String c root) (String d path)) as [[b a]|]; cbn [length].
    + pose proof (split_at_nonempty (String.length path) (String c root) a) as Hs.
      destruct (split_at (String.length path) (String c root) a);
        [contradiction|]. simpl. split; discriminate.
    + simpl. split; reflexivity.
Qed.

(** X4. For a local path that is the local root followed by [rest], the
    root holding, slashes normalised, no metacharacter of regular
    expressions and occurring nowhere in [rest], the answer is the remote
    root followed by [rest] with its backslashes turned into slashes. *)
Theorem get_remote_path_under_root (localRoot rest remoteRoot : string) :
  localRoot <> EmptyString ->
  literal_pattern (slashes localRoot) = true ->
  contains (slashes localRoot) (slashes rest) = false ->
  get_remote_path_from_local_path (localRoot +:+ rest) localRoot remoteRoot
  = Some (remoteRoot +:+ slashes rest).
Proof.
  intros Hne _ Hr. unfold get_remote_path_from_local_path.
  rewrite slashes_app, re_split_under_root;
    [reflexivity|apply slashes_nonempty; assumption|assumption].
Qed.

Lemma replace_from_skip pat repl t u :
  replace_from pat repl (String.length t) (t +:+ u) = replace_from pat repl 0 u.
Proof.
  induction t as [|c t IH]; [reflexivity|].
  rewrite append_cons. simpl. exact IH.
Qed.

Lemma replace_from_absent pat s :
  contains pat s = false -> replace_from pat EmptyString 0 s = s.
Proof.
  induction s as [|c s IH]; [reflexivity|].
  rewrite contains_cons. intros H. apply orb_false_iff in H as [H1 H2].
  change (replace_from pat EmptyString 0 (String c s)) with
    (if String.prefix pat (String c s)
     then EmptyString +:+ replace_from pat EmptyString (String.length pat - 1) s
     else String c (replace_from pat EmptyString 0 s)).
  rewrite H1, (IH H2). reflexivity.
Qed.

Lemma replace_from_cons0 pat repl c s :
  replace_from pat repl 0 (String c s) =
    if String.prefix pat (String c s)
    then repl +:+ replace_from pat repl (String.length pat - 1) s
    else String c (replace_from pat repl 0 s).
Proof. reflexivity. Qed.

(** Taking the remote root out of a remote path under it. *)
Lemma re_sub_under_root root sub :
  root <> EmptyString ->
  contains root sub = false ->
  re_sub root EmptyString (root +:+ sub) = sub.
Proof.
  intros Hne Hs. destruct root as [|c root]; [contradiction|].
  unfold re_sub. rewrite append_cons, replace_from_cons0.
  rewrite <- (append_cons c root sub), prefix_app, append_nil.
  change (String.length (String c root) - 1) with (String.length root - 0).
  rewrite Nat.sub_0_r.
  rewrite replace_from_skip. apply replace_from_absent. exact Hs.
Qed.

(** X5. The two path mappings are inverse to each other.  For roots that
    hold no metacharacter of regular expressions (the remote root is a
    pattern for [re.sub], the normalised local root one for [re.split])
    and a remote path that is the remote root followed by [sub], where
    [sub] holds neither root nor a backslash, the local path the pipelines
    compute is the normalised local root followed by [sub], and
    [get_remote_path_from_local_path] maps it back to the remote path. *)
Theorem remote_local_remote (megaTools : MegaTools_Lib)
    (localRoot remoteRoot sub line : string) :
  localRoot <> EmptyString ->
  remoteRoot <> EmptyString ->
  literal_pattern (slashes localRoot) = true ->
  literal_pattern remoteRoot = true ->
  get_file_path_from_megals_line_data megaTools line = remoteRoot +:+ sub ->
  contains remoteRoot sub = false ->
  contains (slashes localRoot) sub = false ->
  slashes sub = sub ->
  let local_filePath :=
    local_file_path megaTools (slashes localRoot) remoteRoot line in
  local_filePath = slashes localRoot +:+ sub /\
  get_remote_path_from_local_path local_filePath localRoot remoteRoot
  = Some (remoteRoot +:+ sub).
Proof.
  intros Hl Hr _ _ Hline Hs1 Hs2 Hs3. cbv zeta. unfold local_file_path.
  rewrite Hline, (re_sub_under_root _ _ Hr Hs1). split; [reflexivity|].
  unfold get_remote_path_from_local_path.
  rewrite slashes_app, slashes_idem, Hs3, re_split_under_root;
    [reflexivity|apply slashes_nonempty; assumption|assumption].
Qed.

End LibPaths.

(** ** More on the remote pruning pipeline *)

Section PruningEffects.

Variable cfg : Config.
Variable megaTools : MegaTools_Lib.
Variables username password : string.

Lemma foldl_dont_exist_filter (d : Disk) (local : string -> string) remoteFiles acc :
  foldl (fun dontExistLocally remote_filePath =>
           if negb (exists_ d (local remote_filePath))
           then dontExistLocally ++ [local remote_filePath]
           else dontExistLocally) acc remoteFiles
  = acc ++ List.filter (fun q => negb (exists_ d q)) (local <$> remoteFiles).
Proof.
  revert acc. induction remoteFiles as [|x l IH]; intros acc; simpl.
  - rewrite app_nil_r. reflexivity.
  - rewrite IH. destruct (negb (exists_ d (local x))); [|reflexivity].
    rewrite <- app_assoc. reflexivity.
Qed.

Lemma get_dont_exist_locally_eq (s : State) :
  _get_remote_files_that_dont_exist_locally cfg megaTools username password s
  = (Return
       (List.filter (fun q => negb (exists_ (disk s) q))
          (pruning_local_path cfg <$>
           get_remote_file_paths_recursively megaTools username password
             (remoteRoot cfg))),
     s).
Proof.
  unfold _get_remote_files_that_dont_exist_locally, bind, get, ret.
  rewrite (foldl_dont_exist_filter (disk s) (pruning_local_path cfg)).
  reflexivity.
Qed.

Lemma higherDirRemoved_false removed p :
  higherDirRemoved removed p = false <-> forall r, r ∈ removed -> contains r p = false.
Proof.
  induction removed as [|x l IH]; simpl.
  - split; [intros _ r Hr; inversion Hr|reflexivity].
  - destruct (contains x p) eqn:E.
    + split; [discriminate|]. intros H. rewrite <- E. apply H, list_elem_of_here.
    + rewrite IH. split.
      * intros H r Hr. apply elem_of_cons in Hr as [->|Hr]; auto.
      * intros H r Hr. apply H, list_elem_of_further, Hr.
Qed.

Lemma contains_refl p : contains p p = true.
Proof.
  apply contains_split. exists EmptyString, EmptyString.
  rewrite append_nil. clear. induction p as [|c p IH]; [reflexivity|].
  rewrite append_cons. f_equal. exact IH.
Qed.

Lemma higherDirRemoved_false_not_in removed p :
  higherDirRemoved removed p = false -> p ∉ removed.
Proof.
  intros H Hin. rewrite higherDirRemoved_false in H.
  pose proof (H p Hin) as Hc. rewrite contains_refl in Hc. discriminate.
Qed.

Lemma grown_app base a1 a2 :
  grown base (a1 ++ a2) <-> grown base a1 /\ grown (base ++ a1) a2.
Proof.
  revert base. induction a1 as [|x a1 IH]; intros base; simpl.
  - rewrite app_nil_r. tauto.
  - rewrite IH, <- app_assoc. simpl. tauto.
Qed.

Lemma grown_NoDup base added :
  NoDup base -> grown base added -> NoDup (base ++ added).
Proof.
  revert base. induction added as [|x added IH]; intros base Hb Hg; simpl in *.
  - rewrite app_nil_r. exact Hb.
  - destruct Hg as [Hx Hg].
    change (base ++ x :: added) with (base ++ [x] ++ added).
    rewrite app_assoc. apply IH; [|exact Hg].
    apply NoDup_app. repeat split; [exact Hb| |apply NoDup_singleton].
    intros y Hy Hy'. apply list_elem_of_singleton in Hy'. subst y.
    exact (higherDirRemoved_false_not_in _ _ Hx Hy).
Qed.

Lemma grown_ancestor_free l : grown [] l <-> ancestor_free l.
Proof.
  unfold ancestor_free.
  assert (G : forall base l,
    grown base l <->
    forall l1 x l2 r, l = l1 ++ x :: l2 -> r ∈ base ++ l1 -> contains r x = false).
  { clear. intros base l. revert base.
    induction l as [|y l IH]; intros base; simpl.
    - split; [|trivial]. intros _ l1 x l2 r H. destruct l1; discriminate.
    - rewrite IH, higherDirRemoved_false. split.
      + intros [H1 H2] l1 x l2 r E Hr. destruct l1 as [|z l1]; simpl in E.
        * injection E as <- <-. rewrite app_nil_r in Hr. auto.
        * injection E as <- ->. apply (H2 l1 x l2 r eq_refl).
          rewrite <- app_assoc. exact Hr.
      + intros H. split.
        * intros r Hr. apply (H [] y l r eq_refl). rewrite app_nil_r. exact Hr.
        * intros l1 x l2 r E Hr. apply (H (y :: l1) x l2 r).
          -- simpl. rewrite E. reflexivity.
          -- rewrite <- app_assoc in Hr. exact Hr. }
  rewrite G. simpl. reflexivity.
Qed.

(** One turn, field by field. *)
Lemma delete_one_fields p s :
  let s' := delete_one_result cfg username password p s in
  compressedImageFiles s' = compressedImageFiles s /\
  unableToCompressImageFiles s' = unableToCompressImageFiles s /\
  compressedVideoFiles s' = compressedVideoFiles s /\
  unableToCompressVideoFiles s' = unableToCompressVideoFiles s /\
  compressedFiles s' = compressedFiles s /\
  threads s' = threads s.
Proof.
  cbv zeta. unfold delete_one_result.
  destruct (negb (inb p (removedRemoteFiles s))
            && negb (higherDirRemoved (removedRemoteFiles s) p)); simpl; auto 10.
Qed.

Lemma delete_loop_effect l s :
  exists s' added,
    for_each l (delete_one cfg megaTools username password) s = (Return tt, s') /\
    removedRemoteFiles s' = removedRemoteFiles s ++ added /\
    calls s' = calls s ++ (RemoveRemoteFile username password <$> added) /\
    (forall q, q ∈ added -> q ∈ l) /\
    grown (removedRemoteFiles s) added /\
    (compressedImageFiles s' = compressedImageFiles s /\
     unableToCompressImageFiles s' = unableToCompressImageFiles s /\
     compressedVideoFiles s' = compressedVideoFiles s /\
     unableToCompressVideoFiles s' = unableToCompressVideoFiles s /\
     compressedFiles s' = compressedFiles s /\
     threads s' = threads s).
Proof.
  revert s. induction l as [|p l IH]; intros s.
  - exists s, []. simpl. rewrite !app_nil_r. repeat split; auto.
  - simpl. unfold bind at 1. rewrite delete_one_eq.
    pose proof (delete_one_fields p s) as Hf. cbv zeta in Hf.
    destruct (IH (delete_one_result cfg username password p s))
      as (s' & added & Hrun & Hr & Hc & Hin & Hg & Hframe).
    unfold delete_one_result in Hr, Hc, Hg.
    destruct (negb (inb p (removedRemoteFiles s))
              && negb (higherDirRemoved (removedRemoteFiles s) p)) eqn:G.
    + simpl in Hr, Hc, Hg. apply andb_true_iff in G as [_ G].
      apply negb_true_iff in G.
      destruct Hf as (? & ? & ? & ? & ? & ?).
      destruct Hframe as (? & ? & ? & ? & ? & ?).
      exists s', (p :: added). rewrite Hrun. split; [reflexivity|].
      rewrite Hr, Hc, <- !app_assoc. simpl.
      repeat split; try tauto; try congruence.
      intros q Hq. apply elem_of_cons in Hq as [->|Hq];
        [apply list_elem_of_here|apply list_elem_of_further; auto].
    + destruct Hf as (? & ? & ? & ? & ? & ?).
      destruct Hframe as (? & ? & ? & ? & ? & ?).
      exists s', added. rewrite Hrun.
      repeat split; try tauto; try congruence.
      intros q Hq. apply list_elem_of_further. auto.
Qed.

Lemma pruning_run s :
  exists s' added,
    _delete_remote_files_that_dont_exist_locally cfg megaTools username password s
      = (Return tt, s') /\
    removedRemoteFiles s' = removedRemoteFiles s ++ added /\
    calls s' = calls s ++ (RemoveRemoteFile username password <$> added) /\
    (forall q, q ∈ added ->
       exists_ (disk s) q = false /\
       exists remote_filePath,
         remote_filePath ∈ get_remote_file_paths_recursively megaTools
                             username password (remoteRoot cfg) /\
         q = pruning_local_path cfg remote_filePath) /\
    grown (removedRemoteFiles s) added /\
    (compressedImageFiles s' = compressedImageFiles s /\
     unableToCompressImageFiles s' = unableToCompressImageFiles s /\
     compressedVideoFiles s' = compressedVideoFiles s /\
     unableToCompressVideoFiles s' = unableToCompressVideoFiles s /\
     compressedFiles s' = compressedFiles s /\
     threads s' = threads s).
Proof.
  unfold _delete_remote_files_that_dont_exist_locally. unfold bind at 1.
  rewrite get_dont_exist_locally_eq.
  match goal with |- context [for_each ?l _ _] =>
    destruct (delete_loop_effect l s) as (s' & added & Hrun & Hr & Hc & Hin & Hg & Hf)
  end.
  exists s', added. repeat split; try tauto.
  - apply Hin, list_elem_of_In, filter_In in H as [_ H].
    apply negb_true_iff in H. exact H.
  - apply Hin, list_elem_of_In, filter_In in H as [H _].
    apply list_elem_of_In, list_elem_of_fmap in H as (r & -> & Hr').
    exists r. auto.
Qed.

(** X7. What a pruning run changes, for a remote root that holds no
    metacharacter of regular expressions (the root is a pattern for
    [re.sub]).  The run appends a list of paths to the
    removed-remote-files set and issues exactly one delete call for each of
    them, in that order, and no other call; every appended path was absent
    from the local disk when the run started and is the computed local path
    of a listed remote file; the other sets and the thread registry are
    left as they were.  The list is empty for a run that ends before its
    loop. *)
Theorem pruning_run_effect (s : State) :
  literal_pattern (remoteRoot cfg) = true ->
  let s' := snd (_delete_remote_files_that_dont_exist_locally cfg megaTools
                   username password s) in
  exists added,
    removedRemoteFiles s' = removedRemoteFiles s ++ added /\
    calls s' = calls s ++ (RemoveRemoteFile username password <$> added) /\
    (forall q, q ∈ added ->
       exists_ (disk s) q = false /\
       exists remote_filePath,
         remote_filePath ∈ get_remote_file_paths_recursively megaTools
                             username password (remoteRoot cfg) /\
         q = pruning_local_path cfg remote_filePath) /\
    (compressedImageFiles s' = compressedImageFiles s /\
     unableToCompressImageFiles s' = unableToCompressImageFiles s /\
     compressedVideoFiles s' = compressedVideoFiles s /\
     unableToCompressVideoFiles s' = unableToCompressVideoFiles s /\
     compressedFiles s' = compressedFiles s /\
     threads s' = threads s).
Proof.
  intros _. cbv zeta.
  destruct (pruning_run s) as (s' & added & H1 & H2 & H3 & H4 & _ & H6).
  rewrite H1. cbn [snd]. exists added. auto.
Qed.

(** X8. The pruning pipeline keeps the removed-remote-files set free of
    duplicates, and free of entries that hold an earlier entry as a
    substring: if the set is so when the run starts, it is so when the run
    returns. *)
Theorem pruning_keeps_set_ancestor_free (s : State) :
  let s' := snd (_delete_remote_files_that_dont_exist_locally cfg megaTools
                   username password s) in
  (NoDup (removedRemoteFiles s) -> NoDup (removedRemoteFiles s')) /\
  (ancestor_free (removedRemoteFiles s) -> ancestor_free (removedRemoteFiles s')).
Proof.
  cbv zeta. destruct (pruning_run s) as (s' & added & -> & Hr & _ & _ & Hg & _).
  simpl. rewrite Hr. split.
  - intros Hn. apply grown_NoDup; assumption.
  - rewrite <- !grown_ancestor_free. intros H0.
    apply grown_app. split; [exact H0|exact Hg].
Qed.

Lemma REMOVED_REMOTE_FILES_name : npz_name (REMOVED_REMOTE_FILES cfg) = REMOVED_REMOTE_FILES cfg.
Proof. apply (store_files_keep_their_name cfg). Qed.

Lemma delete_one_store p s :
  writable (disk s) (REMOVED_REMOTE_FILES cfg) = true ->
  let s' := delete_one_result cfg username password p s in
  writable (disk s') (REMOVED_REMOTE_FILES cfg) = true /\
  ((removedRemoteFiles s' = removedRemoteFiles s /\ disk s' = disk s) \/
   removed_set_stored cfg s').
Proof.
  intros Hw. cbv zeta. unfold delete_one_result.
  destruct (negb (inb p (removedRemoteFiles s))
            && negb (higherDirRemoved (removedRemoteFiles s) p)); [|auto].
  cbn [disk set_disk removedRemoteFiles set_calls set_removedRemoteFiles].
  unfold removed_set_stored.
  cbn [disk set_disk removedRemoteFiles set_calls set_removedRemoteFiles].
  rewrite dump_writable by (rewrite REMOVED_REMOTE_FILES_name; exact Hw).
  rewrite REMOVED_REMOTE_FILES_name. cbn [snd files].
  split.
  - unfold writable in *. cbn [files]. rewrite lookup_insert_eq.
    unfold busy_count in *. cbn [busy].
    destruct (files (disk s) !! REMOVED_REMOTE_FILES cfg) as [[|c]|];
      [discriminate|exact Hw|exact Hw].
  - right. apply lookup_insert_eq.
Qed.

Lemma delete_loop_store l s :
  writable (disk s) (REMOVED_REMOTE_FILES cfg) = true ->
  let s' := snd (for_each l (delete_one cfg megaTools username password) s) in
  writable (disk s') (REMOVED_REMOTE_FILES cfg) = true /\
  ((removedRemoteFiles s' = removedRemoteFiles s /\ disk s' = disk s) \/
   removed_set_stored cfg s').
Proof.
  revert s. induction l as [|p l IH]; intros s Hw; cbv zeta; [simpl; auto|].
  assert (E : for_each (p :: l) (delete_one cfg megaTools username password) s
              = for_each l (delete_one cfg megaTools username password)
                  (delete_one_result cfg username password p s)).
  { simpl. unfold bind at 1. rewrite delete_one_eq. reflexivity. }
  rewrite E. clear E.
  destruct (delete_one_store p s Hw) as [Hw1 H1]. cbv zeta in Hw1, H1.
  destruct (IH _ Hw1) as [Hw2 H2]. cbv zeta in Hw2, H2.
  split; [exact Hw2|].
  destruct H2 as [[Hr Hd]|H2]; [|auto].
  destruct H1 as [[Hr1 Hd1]|H1].
  - left. split; congruence.
  - right. unfold removed_set_stored in *. rewrite Hr, Hd. exact H1.
Qed.

Lemma load_stored_list filePath d l :
  files d !! filePath = Some (File (Npz [("list", array l)])) ->
  Forall (fun q => path_string q = true) l ->
  load_file_as_list filePath d = (Return l, d).
Proof.
  intros Hf Hl.
  unfold load_file_as_list, bind, gets, isfile, finally_return, try_except,
    load, member, ret.
  rewrite Hf. simpl. rewrite Hf. simpl. rewrite (tolist_array _ Hl). reflexivity.
Qed.

Lemma for_each_start_keeps_removed {A} (l : list A) (f : A -> string) s :
  exists s', for_each l (fun x => start_thread (f x)) s = (Return tt, s') /\
             removedRemoteFiles s' = removedRemoteFiles s.
Proof.
  revert s. induction l as [|x l IH]; intros s; simpl; [eexists; split; reflexivity|].
  destruct (IH (set_threads (threads s ++ [mkThread (length (threads s)) (f x)]) s))
    as (s' & E & Hr).
  exists s'. split; [|exact Hr].
  unfold bind at 1. unfold start_thread at 1. unfold modify. exact E.
Qed.

(** X9. What a pruning run has flushed is what the next run starts from.
    When the store file can be written, the run appends at least one path
    and the paths of the resulting set are path strings, then
    [_create_threads_removed_remote_file_deletion], run on any state with
    the disk the run has left, loads exactly the set the run ended with. *)
Theorem next_run_loads_the_removed_set (s t : State) :
  let s' := snd (_delete_remote_files_that_dont_exist_locally cfg megaTools
                   username password s) in
  writable (disk s) (REMOVED_REMOTE_FILES cfg) = true ->
  removedRemoteFiles s' <> removedRemoteFiles s ->
  Forall (fun q => path_string q = true) (removedRemoteFiles s') ->
  disk t = disk s' ->
  removedRemoteFiles (snd (_create_threads_removed_remote_file_deletion cfg t))
  = removedRemoteFiles s'.
Proof.
  cbv zeta. intros Hw Hne Hps Hd.
  assert (Hst : removed_set_stored cfg
                  (snd (_delete_remote_files_that_dont_exist_locally cfg megaTools
                          username password s))).
  { unfold _delete_remote_files_that_dont_exist_locally. unfold bind at 1.
    rewrite get_dont_exist_locally_eq.
    match goal with |- context [for_each ?l _ _] =>
      destruct (delete_loop_store l s Hw) as [_ [[Hr _]|H]]
    end; [|exact H].
    exfalso. apply Hne.
    unfold _delete_remote_files_that_dont_exist_locally. unfold bind at 1.
    rewrite get_dont_exist_locally_eq. exact Hr. }
  unfold removed_set_stored in Hst. rewrite <- Hd in Hst.
  unfold _create_threads_removed_remote_file_deletion. unfold bind at 1.
  rewrite on_disk_eq, (load_stored_list _ _ _ Hst Hps). cbn [fst snd].
  unfold bind at 1. unfold modify at 1.
  unfold bind, read_foundUserPass.
  destruct (foundUserPass cfg) as [accounts|]; [|reflexivity].
  unfold ret.
  match goal with |- context [for_each ?l ?body ?st] =>
    destruct (for_each_start_keeps_removed l
                (fun account => "thread_remoteFileRemover_" +:+ fst account) st)
      as (s2 & E & Hr)
  end.
  rewrite E. cbn [snd]. rewrite Hr. reflexivity.
Qed.

End PruningEffects.

(** ** More on the compression pipelines *)

Section CompressionEffects.

Variable cfg : Config.
Variable megaTools : MegaTools_Lib.
Variable compressImages_lib : CompressImages_Lib.
Variable ffmpeg : FFMPEG_Lib.

Lemma not_inb x l : negb (inb x l) = true -> x ∉ l.
Proof.
  unfold inb. intros H Hin. rewrite (bool_decide_eq_true_2 _ Hin) in H. discriminate.
Qed.

(** One listing line of the image pipeline, in full. *)
Lemma image_line_full localRoot_adj remoteRoot line s :
  let local_filePath := local_file_path megaTools localRoot_adj remoteRoot line in
  exists s',
    image_line cfg megaTools compressImages_lib localRoot_adj remoteRoot line s
      = (Return tt, s') /\
    image_frame s s' /\
    ((unableToCompressImageFiles s' = unableToCompressImageFiles s /\
      calls s' = calls s) \/
     (image_eligible megaTools line = true /\
      (local_filePath ∉ compressedImageFiles s) /\
      (local_filePath ∉ unableToCompressImageFiles s) /\
      calls s' = calls s ++ [CompressImage local_filePath] /\
      (unableToCompressImageFiles s' = unableToCompressImageFiles s \/
       unableToCompressImageFiles s' =
         unableToCompressImageFiles s ++ [local_filePath]))).
Proof.
  intros local_filePath.
  unfold image_line. fold (local_file_path megaTools localRoot_adj remoteRoot line).
  fold local_filePath. unfold bind at 1. unfold get.
  match goal with |- context [if ?g then _ else _] => destruct g eqn:G end.
  2:{ exists s. unfold ret, image_frame. auto 10. }
  apply andb_true_iff in G as [G Hu]. apply andb_true_iff in G as [G Hc].
  apply andb_true_iff in G as [G Hfile].
  apply not_inb in Hc. apply not_inb in Hu.
  fold (image_eligible megaTools line) in G.
  cbv zeta.
  unfold bind, call_compress_image_file, gets, modify, try_except_WindowsError, ret.
  destruct (compress_image_file compressImages_lib (disk s) local_filePath)
    as [[|] d]; simpl.
  - destruct (exists_ d (local_filePath +:+ ".compressimages-backup")); simpl.
    + rewrite on_disk_eq. simpl.
      destruct (OS.remove (local_filePath +:+ ".compressimages-backup") d)
        as [[[]|e] d'] eqn:R; simpl.
      * rewrite on_disk_dump. eexists; split; [reflexivity|].
        unfold image_frame; simpl. split; [auto 10|]. right. auto 10.
      * apply remove_raises_WindowsError in R. subst e.
        rewrite on_disk_dump. eexists; split; [reflexivity|].
        unfold image_frame; simpl. split; [auto 10|]. right. auto 10.
    + rewrite on_disk_dump. eexists; split; [reflexivity|].
      unfold image_frame; simpl. split; [auto 10|]. right. auto 10.
  - rewrite on_disk_dump. eexists; split; [reflexivity|].
    unfold image_frame; simpl. split; [auto 10|]. right. auto 10.
Qed.

Lemma image_run_refl s : image_run s s [] [].
Proof.
  unfold image_run, image_frame. simpl. rewrite !app_nil_r.
  repeat split; auto; intros q Hq; inversion Hq.
Qed.

Lemma image_run_trans s s1 s2 c1 a1 c2 a2 :
  image_run s s1 c1 a1 -> image_run s1 s2 c2 a2 ->
  image_run s s2 (c1 ++ c2) (a1 ++ a2).
Proof.
  unfold image_run, image_frame.
  intros (H1 & H2 & H3 & H4 & F1 & F2 & F3 & F4 & F5)
         (G1 & G2 & G3 & G4 & E1 & E2 & E3 & E4 & E5).
  rewrite G1, H1, G2, H2, fmap_app, <- !app_assoc.
  repeat split; try congruence.
  - intros q Hq. apply elem_of_app. apply elem_of_app in Hq as [Hq|Hq]; auto.
  - intros Hn. rewrite app_assoc, <- H2, <- G2. auto.
Qed.

Lemma image_loop_run lines localRoot_adj remoteRoot s :
  exists s' called appended,
    for_each lines
      (image_line cfg megaTools compressImages_lib localRoot_adj remoteRoot) s
      = (Return tt, s') /\
    image_run s s' called appended /\
    (forall q, q ∈ called ->
       (q ∉ compressedImageFiles s) /\ (q ∉ unableToCompressImageFiles s) /\
       exists line, line ∈ lines /\ image_eligible megaTools line = true /\
         q = local_file_path megaTools localRoot_adj remoteRoot line).
Proof.
  revert s. induction lines as [|line lines IH]; intros s.
  - exists s, [], []. split; [reflexivity|]. split; [apply image_run_refl|].
    intros q Hq. inversion Hq.
  - simpl. unfold bind at 1.
    destruct (image_line_full localRoot_adj remoteRoot line s)
      as (s1 & -> & Hf & Hstep).
    destruct (IH s1) as (s' & called & appended & -> & Hrun & Hcalled).
    assert (Hsets : forall q, q ∈ called ->
              (q ∉ compressedImageFiles s) /\ (q ∉ unableToCompressImageFiles s) /\
              exists line0, line0 ∈ line :: lines /\
                image_eligible megaTools line0 = true /\
                q = local_file_path megaTools localRoot_adj remoteRoot line0).
    { intros q Hq. destruct (Hcalled q Hq) as (Hc & Hu & l0 & Hl0 & He & ->).
      destruct Hf as (Hci & _). rewrite Hci in Hc. split; [exact Hc|]. split.
      - intros Hin. apply Hu.
        destruct Hstep as [[-> _]|(_ & _ & _ & _ & [-> | ->])]; auto.
        apply elem_of_app. auto.
      - exists l0. split; [apply list_elem_of_further; exact Hl0|auto]. }
    destruct Hstep as [[Hu Hc]|(He & Hnc & Hnu & Hc & Hu)].
    + exists s', called, appended. split; [reflexivity|]. split; [|exact Hsets].
      apply (image_run_trans s s1 s' [] [] called appended); [|exact Hrun].
      unfold image_run. simpl. rewrite !app_nil_r, Hu.
      split; [exact Hc|]. split; [reflexivity|].
      split; [intros q Hq; inversion Hq|]. split; [auto|exact Hf].
    + set (local := local_file_path megaTools localRoot_adj remoteRoot line) in *.
      destruct Hu as [Hu|Hu].
      * exists s', (local :: called), appended.
        split; [reflexivity|]. split.
        -- apply (image_run_trans s s1 s' [local] [] called appended); [|exact Hrun].
           unfold image_run. simpl. rewrite app_nil_r, Hu.
           split; [exact Hc|]. split; [reflexivity|].
           split; [intros q Hq; inversion Hq|]. split; [auto|exact Hf].
        -- intros q Hq. apply elem_of_cons in Hq as [->|Hq]; [|auto].
           split; [exact Hnc|]. split; [exact Hnu|].
           exists line. split; [apply list_elem_of_here|auto].
      * exists s', (local :: called), (local :: appended).
        split; [reflexivity|]. split.
        -- apply (image_run_trans s s1 s' [local] [local] called appended);
             [|exact Hrun].
           unfold image_run. simpl. rewrite Hu.
           split; [exact Hc|]. split; [reflexivity|].
           split; [auto|]. split; [|exact Hf]. intros Hn.
           apply NoDup_app. repeat split; [exact Hn| |apply NoDup_singleton].
           intros y Hy Hy'. apply list_elem_of_singleton in Hy'. subst y. auto.
        -- intros q Hq. apply elem_of_cons in Hq as [->|Hq]; [|auto].
           split; [exact Hnc|]. split; [exact Hnu|].
           exists line. split; [apply list_elem_of_here|auto].
Qed.

Lemma image_pipeline_run usr pw localRoot remoteRoot s :
  exists s' called appended,
    _find_image_files_to_compress cfg megaTools compressImages_lib
      usr pw localRoot remoteRoot s = (Return tt, s') /\
    image_run s s' called appended /\
    (forall q, q ∈ called ->
       (q ∉ compressedImageFiles s) /\ (q ∉ unableToCompressImageFiles s) /\
       exists line,
         line ∈ get_remote_file_data_recursively megaTools usr pw remoteRoot /\
         image_eligible megaTools line = true /\
         q = local_file_path megaTools (slashes localRoot) remoteRoot line).
Proof.
  unfold _find_image_files_to_compress.
  destruct (get_remote_file_data_recursively megaTools usr pw remoteRoot)
    as [|line lines] eqn:E.
  - exists s, [], []. split; [reflexivity|]. split; [apply image_run_refl|].
    intros q Hq. inversion Hq.
  - apply image_loop_run.
Qed.

(** X10. The image pipeline transcodes eligible files only.  For a remote
    root that holds no metacharacter of regular expressions (the root is a
    pattern for [re.sub]) it returns normally, and every call it makes is a
    call of the image transcoder on the local path of a listed line that is
    a plain file with an image extension, the path being in neither image
    set when the run starts. *)
Theorem image_pipeline_transcodes_eligible_files
    (usr pw localRoot remoteRoot : string) (s : State) :
  literal_pattern remoteRoot = true ->
  exists s' called,
    _find_image_files_to_compress cfg megaTools compressImages_lib
      usr pw localRoot remoteRoot s = (Return tt, s') /\
    calls s' = calls s ++ (CompressImage <$> called) /\
    (forall q, q ∈ called ->
       (q ∉ compressedImageFiles s) /\ (q ∉ unableToCompressImageFiles s) /\
       exists line,
         line ∈ get_remote_file_data_recursively megaTools usr pw remoteRoot /\
         image_eligible megaTools line = true /\
         q = local_file_path megaTools (slashes localRoot) remoteRoot line).
Proof.
  intros _.
  destruct (image_pipeline_run usr pw localRoot remoteRoot s)
    as (s' & called & appended & E & (Hc & _) & Hq).
  exists s', called. auto.
Qed.

Lemma image_worker_run :
  forall s, exists s' called appended,
    _all_profiles_image_compression cfg megaTools compressImages_lib s
      = (Return tt, s') /\
    image_run s s' called appended.
Proof.
  unfold _all_profiles_image_compression.
  induction (syncProfiles cfg) as [|profile profiles IH]; intros s.
  - exists s, [], []. split; [reflexivity|apply image_run_refl].
  - simpl. unfold bind at 1.
    assert (Hinner : forall s, exists s' called appended,
      for_each (pathMappings profile) (fun pathMapping =>
        _find_image_files_to_compress cfg megaTools compressImages_lib
          (username profile) (password profile)
          (localPath pathMapping) (remotePath pathMapping)) s = (Return tt, s') /\
      image_run s s' called appended).
    { clear. induction (pathMappings profile) as [|pm pms IHp]; intros s.
      - exists s, [], []. split; [reflexivity|apply image_run_refl].
      - simpl. unfold bind at 1.
        destruct (image_pipeline_run (username profile) (password profile)
                    (localPath pm) (remotePath pm) s)
          as (s1 & c1 & a1 & -> & H1 & _).
        destruct (IHp s1) as (s2 & c2 & a2 & -> & H2).
        exists s2, (c1 ++ c2), (a1 ++ a2). split; [reflexivity|].
        exact (image_run_trans _ _ _ _ _ _ _ H1 H2). }
    destruct (Hinner s) as (s1 & c1 & a1 & -> & H1).
    destruct (IH s1) as (s2 & c2 & a2 & -> & H2).
    exists s2, (c1 ++ c2), (a1 ++ a2). split; [reflexivity|].
    exact (image_run_trans _ _ _ _ _ _ _ H1 H2).
Qed.

(** X11. The image worker over all profiles and path mappings, none of
    whose remote roots holds a metacharacter of regular expressions,
    returns normally.  It calls nothing but the image transcoder; what it
    appends to the unable-to-compress-images set are paths it has handed to
    the transcoder in this run, and the set stays free of duplicates; the
    compressed-images set, both video sets, the removed-remote-files set
    and the thread registry are left as they were. *)
Theorem image_worker_effect (s : State) :
  literal_remote_roots cfg ->
  exists s' called appended,
    _all_profiles_image_compression cfg megaTools compressImages_lib s
      = (Return tt, s') /\
    calls s' = calls s ++ (CompressImage <$> called) /\
    unableToCompressImageFiles s' = unableToCompressImageFiles s ++ appended /\
    (forall q, q ∈ appended -> q ∈ called) /\
    (NoDup (unableToCompressImageFiles s) -> NoDup (unableToCompressImageFiles s')) /\
    compressedImageFiles s' = compressedImageFiles s /\
    compressedVideoFiles s' = compressedVideoFiles s /\
    unableToCompressVideoFiles s' = unableToCompressVideoFiles s /\
    removedRemoteFiles s' = removedRemoteFiles s /\
    threads s' = threads s.
Proof.
  intros _.
  destruct (image_worker_run s) as (s' & called & appended & E & H).
  exists s', called, appended. split; [exact E|]. exact H.
Qed.

(** One listing line of the video pipeline, in full. *)
Lemma video_line_full localRoot_adj remoteRoot line s :
  let local_filePath := local_file_path megaTools localRoot_adj remoteRoot line in
  exists r s',
    video_line cfg megaTools ffmpeg localRoot_adj remoteRoot line s = (r, s') /\
    video_frame s s' /\
    returned_or_WindowsError r /\
    ((compressedVideoFiles s' = compressedVideoFiles s /\ calls s' = calls s) \/
     (video_eligible megaTools line = true /\
      (local_filePath ∉ compressedVideoFiles s) /\
      (local_filePath ∉ unableToCompressVideoFiles s) /\
      calls s' = calls s ++
        [CompressVideo local_filePath (new_file_path local_filePath)] /\
      (compressedVideoFiles s' = compressedVideoFiles s \/
       compressedVideoFiles s' =
         compressedVideoFiles s ++ [new_file_path local_filePath]))).
Proof.
  intros local_filePath.
  unfold video_line. fold (local_file_path megaTools localRoot_adj remoteRoot line).
  fold local_filePath. fold (new_file_path local_filePath).
  unfold bind at 1. unfold get.
  match goal with |- context [if ?g then _ else _] => destruct g eqn:G end.
  2:{ exists (Return tt), s. unfold ret, video_frame, returned_or_WindowsError.
      auto 10. }
  apply andb_true_iff in G as [G Hu]. apply andb_true_iff in G as [G Hc].
  apply andb_true_iff in G as [G Hfile].
  apply not_inb in Hc. apply not_inb in Hu.
  fold (video_eligible megaTools line) in G.
  unfold bind at 1. unfold gets at 1.
  unfold bind at 1.
  assert (exists d1,
    (if exists_ (disk s) (new_file_path local_filePath)
     then retry_loop 100 (on_disk (OS.remove (new_file_path local_filePath)))
     else ret tt) s = (Return tt, set_disk d1 s)) as [d1 Hstale].
  { destruct (exists_ (disk s) (new_file_path local_filePath)).
    - apply retry_loop_on_disk.
    - exists (disk s). destruct s; reflexivity. }
  rewrite Hstale.
  unfold bind at 1. unfold call_compress_video_file. simpl disk.
  destruct (compress_video_file ffmpeg d1 local_filePath
              (new_file_path local_filePath)) as [result d2].
  unfold bind at 1. unfold gets at 1. cbn [disk set_calls set_disk].
  destruct result, (exists_ d2 (new_file_path local_filePath)); cbn [andb].
  - unfold bind at 1.
    match goal with |- context [retry_loop 100 ?m ?st] =>
      destruct (retry_loop_on_disk 100 (OS.remove local_filePath) st) as [d3 H3]
    end.
    rewrite H3.
    unfold bind at 1.
    match goal with |- context [retry_loop 100 (on_disk ?m) ?st] =>
      destruct (retry_loop_on_disk 100 m st) as [d4 H4]
    end.
    rewrite H4.
    unfold bind, modify, gets. rewrite on_disk_dump.
    eexists _, _. split; [reflexivity|].
    unfold video_frame, returned_or_WindowsError; simpl.
    split; [auto 10|]. split; [auto|]. right. auto 10.
  - eexists _, _. split; [reflexivity|].
    unfold video_frame, returned_or_WindowsError; simpl.
    split; [auto 10|]. split; [auto|]. right. auto 10.
  - rewrite on_disk_eq. cbn [disk set_calls set_disk].
    destruct (OS.remove (new_file_path local_filePath) d2) as [[[]|e] d3] eqn:R;
      [|apply remove_raises_WindowsError in R; subst e];
      (eexists _, _; split; [reflexivity|];
       unfold video_frame, returned_or_WindowsError; simpl;
       split; [auto 10|]; split; [auto|]; right; auto 10).
  - eexists _, _. split; [reflexivity|].
    unfold video_frame, returned_or_WindowsError; simpl.
    split; [auto 10|]. split; [auto|]. right. auto 10.
Qed.

Lemma video_run_refl s : video_run s s [] [].
Proof.
  unfold video_run, video_frame. simpl. rewrite !app_nil_r.
  split; [reflexivity|]. split; [reflexivity|].
  split; [intros q Hq; inversion Hq|auto 10].
Qed.

Lemma video_run_trans s s1 s2 c1 a1 c2 a2 :
  video_run s s1 c1 a1 -> video_run s1 s2 c2 a2 ->
  video_run s s2 (c1 ++ c2) (a1 ++ a2).
Proof.
  unfold video_run, video_frame.
  intros (H1 & H2 & H3 & F1 & F2 & F3 & F4 & F5 & F6)
         (G1 & G2 & G3 & E1 & E2 & E3 & E4 & E5 & E6).
  rewrite G1, H1, G2, H2, !fmap_app, <- !app_assoc.
  repeat split; try congruence.
  intros q Hq. apply elem_of_app. apply elem_of_app in Hq as [Hq|Hq]; auto.
Qed.

Lemma video_loop_run lines localRoot_adj remoteRoot s :
  exists r s' called recorded,
    for_each lines
      (video_line cfg megaTools ffmpeg localRoot_adj remoteRoot) s = (r, s') /\
    returned_or_WindowsError r /\
    video_run s s' called recorded /\
    (forall q, q ∈ called ->
       (q ∉ unableToCompressVideoFiles s) /\
       exists line, line ∈ lines /\ video_eligible megaTools line = true /\
         q = local_file_path megaTools localRoot_adj remoteRoot line).
Proof.
  revert s. induction lines as [|line lines IH]; intros s.
  - exists (Return tt), s, [], []. split; [reflexivity|].
    split; [left; reflexivity|]. split; [apply video_run_refl|].
    intros q Hq. inversion Hq.
  - simpl. unfold bind at 1.
    destruct (video_line_full localRoot_adj remoteRoot line s)
      as (r1 & s1 & -> & Hf & Hr1 & Hstep).
    set (local := local_file_path megaTools localRoot_adj remoteRoot line) in *.
    assert (Hone : exists c1 a1,
      video_run s s1 c1 a1 /\
      (forall q, q ∈ c1 ->
         (q ∉ unableToCompressVideoFiles s) /\
         exists line0, line0 ∈ line :: lines /\
           video_eligible megaTools line0 = true /\
           q = local_file_path megaTools localRoot_adj remoteRoot line0)).
    { destruct Hstep as [[Hcv Hc]|(He & Hnc & Hnu & Hc & Hcv)].
      - exists [], []. split.
        + unfold video_run. simpl. rewrite !app_nil_r.
          split; [exact Hc|]. split; [exact Hcv|].
          split; [intros q Hq; inversion Hq|exact Hf].
        + intros q Hq. inversion Hq.
      - assert (Hq1 : forall q, q ∈ [local] ->
                  (q ∉ unableToCompressVideoFiles s) /\
                  exists line0, line0 ∈ line :: lines /\
                    video_eligible megaTools line0 = true /\
                    q = local_file_path megaTools localRoot_adj remoteRoot line0).
        { intros q Hq. apply list_elem_of_singleton in Hq. subst q.
          split; [exact Hnu|]. exists line.
          split; [apply list_elem_of_here|auto]. }
        destruct Hcv as [Hcv|Hcv].
        + exists [local], []. split; [|exact Hq1].
          unfold video_run. simpl. rewrite app_nil_r.
          split; [exact Hc|]. split; [exact Hcv|].
          split; [intros q Hq; inversion Hq|exact Hf].
        + exists [local], [local]. split; [|exact Hq1].
          unfold video_run. simpl.
          split; [exact Hc|]. split; [exact Hcv|]. split; [auto|exact Hf]. }
    destruct Hone as (c1 & a1 & Hrun1 & Hq1).
    destruct r1 as [[]|e].
    + destruct (IH s1) as (r & s' & c2 & a2 & -> & Hr & Hrun2 & Hq2).
      exists r, s', (c1 ++ c2), (a1 ++ a2). split; [reflexivity|].
      split; [exact Hr|]. split; [exact (video_run_trans _ _ _ _ _ _ _ Hrun1 Hrun2)|].
      intros q Hq. apply elem_of_app in Hq as [Hq|Hq]; [auto|].
      destruct (Hq2 q Hq) as (Hu & l0 & Hl0 & He & ->). split.
      * destruct Hf as (_ & _ & Huv & _). rewrite <- Huv. exact Hu.
      * exists l0. split; [apply list_elem_of_further; exact Hl0|auto].
    + exists (Raise e), s1, c1, a1. auto.
Qed.

Lemma video_pipeline_run usr pw localRoot remoteRoot s :
  exists r s' called recorded,
    _find_video_files_to_compress cfg megaTools ffmpeg
      usr pw localRoot remoteRoot s = (r, s') /\
    returned_or_WindowsError r /\
    video_run s s' called recorded /\
    (forall q, q ∈ called ->
       (q ∉ unableToCompressVideoFiles s) /\
       exists line,
         line ∈ get_remote_file_data_recursively megaTools usr pw remoteRoot /\
         video_eligible megaTools line = true /\
         q = local_file_path megaTools (slashes localRoot) remoteRoot line).
Proof.
  unfold _find_video_files_to_compress.
  destruct (get_remote_file_data_recursively megaTools usr pw remoteRoot)
    as [|line lines] eqn:E.
  - exists (Return tt), s, [], []. split; [reflexivity|].
    split; [left; reflexivity|]. split; [apply video_run_refl|].
    intros q Hq. inversion Hq.
  - apply video_loop_run.
Qed.

(** X12. The video pipeline transcodes eligible files only and records
    targets.  For a remote root that holds no metacharacter of regular
    expressions (the root is a pattern for [re.sub]), and whether the run
    returns or ends in an exception, every call it has
    made is a call of the video transcoder on the local path of a listed
    line that is a plain file with a video extension, with the path's
    [_NEW.mp4] name as target; what the compressed-videos set has received
    are such target names, of paths transcoded in this run, and not the
    paths themselves. *)
Theorem video_pipeline_effect (usr pw localRoot remoteRoot : string) (s : State) :
  literal_pattern remoteRoot = true ->
  exists r s' called recorded,
    _find_video_files_to_compress cfg megaTools ffmpeg
      usr pw localRoot remoteRoot s = (r, s') /\
    calls s' = calls s ++ ((fun q => CompressVideo q (new_file_path q)) <$> called) /\
    compressedVideoFiles s' =
      compressedVideoFiles s ++ (new_file_path <$> recorded) /\
    (forall q, q ∈ recorded -> q ∈ called) /\
    (forall q, q ∈ called ->
       (q ∉ unableToCompressVideoFiles s) /\
       exists line,
         line ∈ get_remote_file_data_recursively megaTools usr pw remoteRoot /\
         video_eligible megaTools line = true /\
         q = local_file_path megaTools (slashes localRoot) remoteRoot line).
Proof.
  intros _.
  destruct (video_pipeline_run usr pw localRoot remoteRoot s)
    as (r & s' & called & recorded & E & _ & (H1 & H2 & H3 & _) & Hq).
  exists r, s', called, recorded. auto.
Qed.

Lemma video_worker_run :
  forall s, exists r s' called recorded,
    _all_profiles_video_compression cfg megaTools ffmpeg s = (r, s') /\
    returned_or_WindowsError r /\
    video_run s s' called recorded.
Proof.
  unfold _all_profiles_video_compression.
  induction (syncProfiles cfg) as [|profile profiles IH]; intros s.
  - exists (Return tt), s, [], []. split; [reflexivity|].
    split; [left; reflexivity|apply video_run_refl].
  - simpl. unfold bind at 1.
    assert (Hinner : forall s, exists r s' called recorded,
      for_each (pathMappings profile) (fun pathMapping =>
        _find_video_files_to_compress cfg megaTools ffmpeg
          (username profile) (password profile)
          (localPath pathMapping) (remotePath pathMapping)) s = (r, s') /\
      returned_or_WindowsError r /\
      video_run s s' called recorded).
    { clear. induction (pathMappings profile) as [|pm pms IHp]; intros s.
      - exists (Return tt), s, [], []. split; [reflexivity|].
        split; [left; reflexivity|apply video_run_refl].
      - simpl. unfold bind at 1.
        destruct (video_pipeline_run (username profile) (password profile)
                    (localPath pm) (remotePath pm) s)
          as (r1 & s1 & c1 & a1 & -> & Hr1 & H1 & _).
        destruct r1 as [[]|e].
        + destruct (IHp s1) as (r2 & s2 & c2 & a2 & -> & Hr2 & H2).
          exists r2, s2, (c1 ++ c2), (a1 ++ a2). split; [reflexivity|].
          split; [exact Hr2|exact (video_run_trans _ _ _ _ _ _ _ H1 H2)].
        + exists (Raise e), s1, c1, a1. auto. }
    destruct (Hinner s) as (r1 & s1 & c1 & a1 & -> & Hr1 & H1).
    destruct r1 as [[]|e].
    + destruct (IH s1) as (r2 & s2 & c2 & a2 & -> & Hr2 & H2).
      exists r2, s2, (c1 ++ c2), (a1 ++ a2). split; [reflexivity|].
      split; [exact Hr2|exact (video_run_trans _ _ _ _ _ _ _ H1 H2)].
    + exists (Raise e), s1, c1, a1. auto.
Qed.

(** X13. The video worker over all profiles and path mappings, none of
    whose remote roots holds a metacharacter of regular expressions, either
    returns normally or ends with a [WindowsError], the one that the
    unguarded removal of a failed transcode's output can raise; either way
    the two image sets, the unable-to-compress-videos set, the
    removed-remote-files set and the thread registry are left as they
    were. *)
Theorem video_worker_effect (s : State) :
  literal_remote_roots cfg ->
  exists r s',
    _all_profiles_video_compression cfg megaTools ffmpeg s = (r, s') /\
    (r = Return tt \/ r = Raise WindowsError) /\
    compressedImageFiles s' = compressedImageFiles s /\
    unableToCompressImageFiles s' = unableToCompressImageFiles s /\
    unableToCompressVideoFiles s' = unableToCompressVideoFiles s /\
    compressedFiles s' = compressedFiles s /\
    removedRemoteFiles s' = removedRemoteFiles s /\
    threads s' = threads s.
Proof.
  intros _.
  destruct (video_worker_run s) as (r & s' & called & recorded & E & Hr & H).
  exists r, s'. split; [exact E|]. split; [exact Hr|]. apply H.
Qed.

End CompressionEffects.

(** ** More on the thread orchestrator *)

Section OrchestratorEffects.

Lemma wait_loop_finished_empty polls startTime timeout :
  forall flag s,
    fst (wait_loop polls startTime timeout flag s) = Finished ->
    threads (snd (wait_loop polls startTime timeout flag s)) = [].
Proof.
  induction polls as [|poll polls IH]; intros flag s.
  - rewrite wait_loop_nil. destruct (threads s) eqn:E; [auto|discriminate].
  - rewrite wait_loop_cons. cbv zeta.
    destruct (threads s ++ spawned poll) as [|t registry] eqn:E.
    { intros _. reflexivity. }
    destruct (negb (timeout <? now poll - startTime)%Z); [|discriminate].
    destruct (negb _ && negb flag); apply IH.
Qed.

(** X14. The wait comes to an end.  When at every turn nothing is appended
    to the registry, the timeout has not expired and every thread has
    finished, then as many turns as there are threads are enough: the wait
    ends with an empty registry, and, if there was a thread to wait for,
    with exactly one export. *)
Theorem wait_ends_when_threads_have_finished
    (startTime : Z) (polls : list Poll) (timeout : Z) (s : State) :
  Forall (quiet startTime timeout) polls ->
  length (threads s) <= length polls ->
  let r := _wait_for_threads_to_finish startTime polls timeout s in
  fst r = Finished /\
  threads (snd r) = [] /\
  (threads s <> [] -> exports (snd r) = exports s + 1).
Proof.
  intros Hq Hlen. cbv zeta. unfold _wait_for_threads_to_finish.
  pose proof (wait_finishes polls startTime timeout false s Hq Hlen) as Hfin.
  split; [exact Hfin|]. split; [apply wait_loop_finished_empty; exact Hfin|].
  intros Hne.
  destruct (wait_loop_exports polls startTime timeout false s) as [_ H].
  auto.
Qed.

Lemma list_remove_sublist x l : sublist (list_remove x l) l.
Proof.
  induction l as [|y l IH]; simpl; [constructor|].
  destruct (decide (y = x)); [apply sublist_cons|apply sublist_skip]; auto;
    reflexivity.
Qed.

Lemma poll_threads_turn steps alive i registry found :
  let r := poll_threads steps alive i registry found in
  sublist (fst r) registry /\
  (forall t, t ∈ registry -> alive t = true -> t ∈ fst r) /\
  (forall t, t ∈ registry -> t ∉ fst r -> alive t = false) /\
  (snd r = true ->
   found = true \/
   exists t, t ∈ fst r /\ alive t = true /\ contains "megaFile" (name t) = true).
Proof.
  revert i registry found.
  induction steps as [|steps IH]; intros i registry found; cbv zeta.
  - change (poll_threads 0 alive i registry found) with (registry, found).
    simpl. repeat split; auto. intros t H1 H2. contradiction.
  - change (poll_threads (S steps) alive i registry found) with
      (match registry !! i with
       | None => (registry, found)
       | Some thread =>
           if negb (alive thread) then
             poll_threads steps alive (S i) (list_remove thread registry) found
           else if contains "megaFile" (name thread) then
             poll_threads steps alive (S i) registry true
           else
             poll_threads steps alive (S i) registry found
       end).
    destruct (registry !! i) as [thread|] eqn:E.
    2:{ simpl. repeat split; auto. intros t H1 H2. contradiction. }
    assert (Hin : thread ∈ registry) by (apply list_elem_of_lookup; eauto).
    destruct (alive thread) eqn:A; cbn [negb].
    + destruct (contains "megaFile" (name thread)) eqn:C.
      * destruct (IH (S i) registry true) as (H1 & H2 & H3 & _).
        repeat split; auto. intros _. right. exists thread. auto.
      * apply IH.
    + destruct (IH (S i) (list_remove thread registry) found) as (H1 & H2 & H3 & H4).
      split; [etransitivity; [exact H1|apply list_remove_sublist]|].
      split; [|split; [|exact H4]].
      * intros t Ht At. apply H2; [|exact At].
        apply list_remove_keeps; [exact Ht|]. intros ->. congruence.
      * intros t Ht Hn. destruct (alive t) eqn:At; [|reflexivity].
        exfalso. apply Hn, H2; [|exact At].
        apply list_remove_keeps; [exact Ht|]. intros ->. congruence.
Qed.

(** X15. One turn of the loop over the registry removes finished threads
    only.  The registry after the turn is the registry before it with some
    entries taken out, in the same order; every running thread is still in
    it; every thread taken out had finished; and the flag that defers the
    export is raised only if a running thread with [megaFile] in its name is
    in the registry. *)
Theorem turn_removes_finished_threads_only
    (alive : Thread -> bool) (registry : list Thread) :
  let r := poll_threads (length registry) alive 0 registry false in
  sublist (fst r) registry /\
  (forall t, t ∈ registry -> alive t = true -> t ∈ fst r) /\
  (forall t, t ∈ registry -> t ∉ fst r -> alive t = false) /\
  (snd r = true ->
   exists t, t ∈ fst r /\ alive t = true /\ contains "megaFile" (name t) = true).
Proof.
  cbv zeta.
  destruct (poll_threads_turn (length registry) alive 0 registry false)
    as (H1 & H2 & H3 & H4).
  repeat split; auto. intros Hs. destruct (H4 Hs) as [Hf|Ht]; [discriminate|exact Ht].
Qed.

Lemma list_remove_middle x kept rest :
  x ∉ kept -> list_remove x (kept ++ x :: rest) = kept ++ rest.
Proof.
  induction kept as [|y kept IH]; intros Hn; simpl.
  - destruct (decide (x = x)); [reflexivity|contradiction].
  - destruct (decide (y = x)) as [->|].
    + exfalso. apply Hn, list_elem_of_here.
    + rewrite IH; [reflexivity|]. intros H. apply Hn, list_elem_of_further, H.
Qed.

Lemma poll_threads_past_end steps alive i registry found :
  length registry <= i ->
  poll_threads steps alive i registry found = (registry, found).
Proof.
  intros H. destruct steps; [reflexivity|].
  change (poll_threads (S steps) alive i registry found) with
    (match registry !! i with
     | None => (registry, found)
     | Some thread =>
         if negb (alive thread) then
           poll_threads steps alive (S i) (list_remove thread registry) found
         else if contains "megaFile" (name thread) then
           poll_threads steps alive (S i) registry true
         else
           poll_threads steps alive (S i) registry found
     end).
  rewrite (lookup_ge_None_2 _ _ H). reflexivity.
Qed.

Lemma poll_threads_all_finished steps alive kept rest found :
  (forall t, alive t = false) ->
  NoDup (kept ++ rest) ->
  length rest <= steps ->
  poll_threads steps alive (length kept) (kept ++ rest) found
  = (kept ++ odds rest, found).
Proof.
  intros Hdead. revert kept rest.
  induction steps as [|steps IH]; intros kept rest Hn Hlen.
  - destruct rest; [reflexivity|simpl in Hlen; lia].
  - destruct rest as [|x rest].
    { simpl odds. apply poll_threads_past_end. rewrite length_app. simpl. lia. }
    change (poll_threads (S steps) alive (length kept) (kept ++ x :: rest) found)
      with
      (match (kept ++ x :: rest) !! length kept with
       | None => (kept ++ x :: rest, found)
       | Some thread =>
           if negb (alive thread) then
             poll_threads steps alive (S (length kept))
               (list_remove thread (kept ++ x :: rest)) found
           else if contains "megaFile" (name thread) then
             poll_threads steps alive (S (length kept)) (kept ++ x :: rest) true
           else
             poll_threads steps alive (S (length kept)) (kept ++ x :: rest) found
       end).
    rewrite list_lookup_middle by reflexivity.
    rewrite Hdead. cbn [negb].
    assert (Hx : x ∉ kept).
    { apply NoDup_app in Hn as (_ & Hn & _). intros Hin.
      apply (Hn x Hin), list_elem_of_here. }
    rewrite (list_remove_middle _ _ _ Hx).
    destruct rest as [|y rest].
    + simpl odds. rewrite app_nil_r. apply poll_threads_past_end. lia.
    + replace (S (length kept)) with (length (kept ++ [y]))
        by (rewrite length_app; simpl; lia).
      replace (kept ++ y :: rest) with ((kept ++ [y]) ++ rest)
        by (rewrite <- app_assoc; reflexivity).
      rewrite IH.
      * simpl odds. rewrite <- app_assoc. reflexivity.
      * rewrite <- app_assoc. simpl.
        apply NoDup_app in Hn as (Hk & Hd & Hr).
        apply NoDup_app. repeat split; [exact Hk| |].
        -- intros z Hz Hz'. apply (Hd z Hz), list_elem_of_further, Hz'.
        -- apply NoDup_cons in Hr as [_ Hr]. exact Hr.
      * simpl in Hlen. lia.
Qed.

(** X16. Removing from the registry while iterating over it skips every
    other thread.  When all the threads of a registry without repetition
    have finished, one turn removes those at the first, third, ... place
    and leaves those at the second, fourth, ... place, without having looked
    at them. *)
Theorem turn_on_finished_threads_leaves_every_other
    (alive : Thread -> bool) (registry : list Thread) :
  (forall t, alive t = false) ->
  NoDup registry ->
  poll_threads (length registry) alive 0 registry false = (odds registry, false).
Proof.
  intros Hdead Hn.
  apply (poll_threads_all_finished (length registry) alive [] registry false);
    auto.
Qed.

Lemma contains_app_r pre pat post : contains pat (pre +:+ pat +:+ post) = true.
Proof. apply contains_split. eauto. Qed.

Lemma poll_threads_all_running steps alive registry :
  (forall t, alive t = true) ->
  forall i found,
    fst (poll_threads steps alive i registry found) = registry /\
    (found = true -> snd (poll_threads steps alive i registry found) = true) /\
    (length registry <= i + steps ->
     (exists j t, i <= j /\ registry !! j = Some t /\
                  contains "megaFile" (name t) = true) ->
     snd (poll_threads steps alive i registry found) = true).
Proof.
  intros Halive. induction steps as [|steps IH]; intros i found.
  - change (poll_threads 0 alive i registry found) with (registry, found). simpl.
    repeat split; auto. intros Hlen (j & t & Hj & Ht & _).
    apply lookup_lt_Some in Ht. lia.
  - change (poll_threads (S steps) alive i registry found) with
      (match registry !! i with
       | None => (registry, found)
       | Some thread =>
           if negb (alive thread) then
             poll_threads steps alive (S i) (list_remove thread registry) found
           else if contains "megaFile" (name thread) then
             poll_threads steps alive (S i) registry true
           else
             poll_threads steps alive (S i) registry found
       end).
    destruct (registry !! i) as [thread|] eqn:E.
    2:{ simpl. repeat split; auto. intros _ (j & t & Hj & Ht & _).
        apply lookup_ge_None in E. apply lookup_lt_Some in Ht. lia. }
    rewrite Halive. cbn [negb].
    destruct (contains "megaFile" (name thread)) eqn:C.
    + destruct (IH (S i) true) as (H1 & H2 & _). auto.
    + destruct (IH (S i) found) as (H1 & H2 & H3).
      split; [exact H1|]. split; [exact H2|].
      intros Hlen (j & t & Hj & Ht & Hc). apply H3; [lia|].
      exists j, t. repeat split; auto.
      destruct (decide (j = i)) as [->|]; [|lia]. congruence.
Qed.

(** X17. No export while the detail gatherers run.  A thread created by
    [_create_profiles_data_file] for a profile, whatever the profile's
    name, is recognised by the wait loop; as long as the timeout has not
    expired and every thread is running, a wait that starts with such a
    thread in the registry goes on waiting, exports nothing, and only adds
    to the registry the threads other threads have appended. *)
Theorem no_export_while_gatherers_run
    (startTime : Z) (polls : list Poll) (timeout : Z) (s : State)
    (profile_name : string) (gatherer : Thread) :
  Forall (all_running startTime timeout) polls ->
  gatherer ∈ threads s ->
  name gatherer = "thread_megaFile_" +:+ profile_name ->
  let r := _wait_for_threads_to_finish startTime polls timeout s in
  fst r = Waiting /\
  exports (snd r) = exports s /\
  threads (snd r) = threads s ++ concat (spawned <$> polls).
Proof.
  intros Hq Hin Hname. cbv zeta. unfold _wait_for_threads_to_finish.
  assert (Htag : contains "megaFile" (name gatherer) = true).
  { rewrite Hname.
    change ("thread_megaFile_" +:+ profile_name)
      with ("thread_" +:+ "megaFile" +:+ ("_" +:+ profile_name)).
    apply contains_app_r. }
  revert s Hin. induction Hq as [|poll polls (Hnow & Halive) _ IH]; intros s Hin.
  - rewrite wait_loop_nil. simpl. rewrite app_nil_r.
    destruct (threads s); [inversion Hin|auto].
  - rewrite wait_loop_cons. cbv zeta.
    assert (Hin' : gatherer ∈ threads s ++ spawned poll)
      by (apply elem_of_app; auto).
    destruct (threads s ++ spawned poll) as [|t registry] eqn:E;
      [inversion Hin'|].
    replace (timeout <? now poll - startTime)%Z with false
      by (symmetry; apply Z.ltb_ge; lia).
    cbn [negb].
    destruct (poll_threads_all_running (length (t :: registry)) (isAlive poll)
                (t :: registry) Halive 0 false) as (H1 & _ & H3).
    rewrite H1, H3.
    + cbn [negb andb].
      destruct (IH (set_threads (t :: registry) s)) as (I1 & I2 & I3);
        [exact Hin'|].
      split; [exact I1|]. split; [exact I2|].
      rewrite I3. cbn [threads set_threads]. rewrite <- E.
      simpl. rewrite <- app_assoc. reflexivity.
    + lia.
    + apply list_elem_of_lookup in Hin' as [j Hj].
      exists j, gatherer. split; [lia|]. auto.
Qed.

End OrchestratorEffects.

(** ** Starting the workers *)

Section Starting.

Variable cfg : Config.

Lemma load_file_as_list_eq file d :
  load_file_as_list file d = (Return (stored_list d file), d).
Proof.
  unfold stored_list, load_file_as_list, bind, gets, isfile, finally_return,
    try_except, load, member, ret, raise.
  destruct (files d !! file) as [[|[raw|members]]|] eqn:E; simpl;
    try rewrite E; simpl; try reflexivity.
  destruct (assoc "list" members); reflexivity.
Qed.

Lemma on_disk_load_eq file s :
  on_disk (load_file_as_list file) s = (Return (stored_list (disk s) file), s).
Proof. rewrite on_disk_eq, load_file_as_list_eq. destruct s; reflexivity. Qed.

(** X18. Starting a compression worker replaces the two sets it works with
    by what their store files hold, an empty set standing for a file that is
    absent or unreadable; what the sets held in memory is discarded.  The
    worker's thread is registered last, the disk is not written and no
    external call is made. *)
Theorem compression_workers_start_from_the_store (s : State) :
  (exists s',
     _create_thread_compress_image_files cfg s = (Return tt, s') /\
     compressedImageFiles s' = stored_list (disk s) (COMPRESSED_IMAGES_FILE cfg) /\
     unableToCompressImageFiles s' =
       stored_list (disk s) (UNABLE_TO_COMPRESS_IMAGES_FILE cfg) /\
     threads s' = threads s ++ [mkThread (length (threads s)) "thread_compressImages"] /\
     disk s' = disk s /\ calls s' = calls s) /\
  (exists s',
     _create_thread_compress_video_files cfg s = (Return tt, s') /\
     compressedVideoFiles s' = stored_list (disk s) (COMPRESSED_VIDEOS_FILE cfg) /\
     unableToCompressVideoFiles s' =
       stored_list (disk s) (UNABLE_TO_COMPRESS_VIDEOS_FILE cfg) /\
     threads s' = threads s ++ [mkThread (length (threads s)) "thread_compressVideos"] /\
     disk s' = disk s /\ calls s' = calls s).
Proof.
  split.
  - unfold _create_thread_compress_image_files.
    unfold bind at 1. rewrite on_disk_load_eq. unfold bind at 1. unfold modify at 1.
    unfold bind at 1. rewrite on_disk_load_eq. unfold bind at 1. unfold modify at 1.
    eexists. split; [reflexivity|]. simpl. auto 10.
  - unfold _create_thread_compress_video_files.
    unfold bind at 1. rewrite on_disk_load_eq. unfold bind at 1. unfold modify at 1.
    unfold bind at 1. rewrite on_disk_load_eq. unfold bind at 1. unfold modify at 1.
    eexists. split; [reflexivity|]. simpl. auto 10.
Qed.

Lemma stored_list_dump d l file :
  Forall (fun q => path_string q = true) l ->
  writable d (npz_name file) = true ->
  stored_list (snd (dump_list_into_file l file d)) (npz_name file) = l.
Proof.
  intros Hl Hw. rewrite (dump_writable _ _ _ Hw). unfold stored_list. simpl.
  rewrite lookup_insert_eq. simpl. apply tolist_array. exact Hl.
Qed.

Lemma stored_list_dump_other d l file other :
  npz_name file <> other ->
  stored_list (snd (dump_list_into_file l file d)) other = stored_list d other.
Proof.
  intros Hne. unfold stored_list, dump_list_into_file, try_except, savez_compressed.
  destruct (files d !! npz_name file) as [[|c]|]; simpl; try reflexivity;
    destruct (busy_count d (npz_name file)); simpl;
    try rewrite (lookup_insert_ne _ _ _ _ Hne); reflexivity.
Qed.

Lemma writable_after_dump d l file other :
  writable d other = true ->
  writable (snd (dump_list_into_file l file d)) other = true.
Proof.
  intros Hw. unfold writable, dump_list_into_file, try_except, savez_compressed in *.
  destruct (decide (npz_name file = other)) as [<-|Hne].
  - destruct (files d !! npz_name file) as [[|c]|] eqn:E; try discriminate;
      apply Nat.eqb_eq in Hw; rewrite Hw; simpl; rewrite lookup_insert_eq;
      unfold busy_count in *; simpl; rewrite Hw; reflexivity.
  - destruct (files d !! npz_name file) as [[|c]|] eqn:E; simpl; try exact Hw;
      destruct (busy_count d (npz_name file)) eqn:B; simpl;
      unfold busy_count in *; simpl;
      try rewrite (lookup_insert_ne _ _ _ _ Hne); try exact Hw.
    all: destruct (files d !! other) as [[|c']|]; try discriminate; try exact Hw.
Qed.













Lemma tear_down_disk started kill s :
  attributes_exist cfg started ->
  disk (snd (_tear_down cfg started kill s)) = teardown_disk cfg s.
Proof.
  intros (H1 & H2 & H3). unfold _tear_down, teardown_disk, flushed, try_except.
  destruct started as [a b c]. simpl in H1, H2, H3.
  destruct (removeRemote cfg); [rewrite (H1 eq_refl)|];
    (destruct (compressImages cfg); [rewrite (H2 eq_refl)|]);
    (destruct (compressVideos cfg); [rewrite (H3 eq_refl)|]);
    unfold bind, read_attribute, gets, call_kill, ret; simpl;
    repeat (rewrite on_disk_dump; simpl);
    destruct (kill "megacopy.exe") as [[]|]; simpl; try reflexivity;
    destruct (kill "megals.exe") as [[]|]; simpl; try reflexivity;
    destruct (kill "megadf.exe") as [[]|]; simpl; try reflexivity;
    destruct (kill "ffmpeg.exe") as [[]|]; reflexivity.
Qed.

Lemma store_file_neq (dir a b : string) : a <> b -> dir +:+ a <> dir +:+ b.
Proof. intros Hne H. apply Hne. exact (inj (String.app dir) _ _ H). Qed.

Lemma flushed_other enabled l file other d :
  npz_name file <> other ->
  stored_list (flushed enabled l file d) other = stored_list d other.
Proof.
  intros Hne. destruct enabled; [|reflexivity]. apply stored_list_dump_other, Hne.
Qed.

Lemma flushed_writable enabled l file other d :
  writable d other = true -> writable (flushed enabled l file d) other = true.
Proof. intros Hw. destruct enabled; [|exact Hw]. apply writable_after_dump, Hw. Qed.

Lemma flushed_same l file d :
  npz_name file = file ->
  Forall (fun q => path_string q = true) l ->
  writable d file = true ->
  stored_list (flushed true l file d) file = l.
Proof.
  intros Hn Hl Hw. unfold flushed. rewrite <- Hn at 2.
  apply stored_list_dump; [exact Hl|]. rewrite Hn. exact Hw.
Qed.

(** X20. Teardown persists the sets of the enabled categories.  When the
    attributes it reads exist, then for each of the flags remove-remote,
    compress-images and compress-videos that is set, provided the store
    files of that category can be written and the sets hold path strings,
    the store files hold after teardown exactly what the sets hold in
    memory: it is what the next start of the worker loads. *)
Theorem tear_down_persists_the_enabled_sets
    (started : Started) (kill : string -> result unit) (s : State) :
  attributes_exist cfg started ->
  let d' := disk (snd (_tear_down cfg started kill s)) in
  (removeRemote cfg = true ->
   writable (disk s) (REMOVED_REMOTE_FILES cfg) = true ->
   Forall (fun q => path_string q = true) (removedRemoteFiles s) ->
   stored_list d' (REMOVED_REMOTE_FILES cfg) = removedRemoteFiles s) /\
  (compressImages cfg = true ->
   writable (disk s) (COMPRESSED_IMAGES_FILE cfg) = true ->
   writable (disk s) (UNABLE_TO_COMPRESS_IMAGES_FILE cfg) = true ->
   Forall (fun q => path_string q = true) (compressedImageFiles s) ->
   Forall (fun q => path_string q = true) (unableToCompressImageFiles s) ->
   stored_list d' (COMPRESSED_IMAGES_FILE cfg) = compressedImageFiles s /\
   stored_list d' (UNABLE_TO_COMPRESS_IMAGES_FILE cfg)
     = unableToCompressImageFiles s) /\
  (compressVideos cfg = true ->
   writable (disk s) (COMPRESSED_VIDEOS_FILE cfg) = true ->
   writable (disk s) (UNABLE_TO_COMPRESS_VIDEOS_FILE cfg) = true ->
   Forall (fun q => path_string q = true) (compressedVideoFiles s) ->
   Forall (fun q => path_string q = true) (unableToCompressVideoFiles s) ->
   stored_list d' (COMPRESSED_VIDEOS_FILE cfg) = compressedVideoFiles s /\
   stored_list d' (UNABLE_TO_COMPRESS_VIDEOS_FILE cfg)
     = unableToCompressVideoFiles s).
Proof.
  intros Hex. cbv zeta. rewrite (tear_down_disk _ _ _ Hex). unfold teardown_disk.
  destruct (store_files_keep_their_name cfg) as (N1 & N2 & N3 & N4 & N5).
  assert (Hneq : forall a b, a <> b ->
            npz_name (WORKING_DIR cfg +:+ a) = WORKING_DIR cfg +:+ a ->
            npz_name (WORKING_DIR cfg +:+ a) <> WORKING_DIR cfg +:+ b).
  { intros a b Hab ->. apply store_file_neq, Hab. }
  unfold COMPRESSED_IMAGES_FILE, UNABLE_TO_COMPRESS_IMAGES_FILE,
    COMPRESSED_VIDEOS_FILE, UNABLE_TO_COMPRESS_VIDEOS_FILE, REMOVED_REMOTE_FILES
    in *.
  split; [|split].
  - intros -> Hw Hl.
    rewrite !flushed_other by (apply Hneq; [discriminate|assumption]).
    apply flushed_same; assumption.
  - intros -> Hw1 Hw2 Hl1 Hl2. split.
    + rewrite !flushed_other by (apply Hneq; [discriminate|assumption]).
      apply flushed_same; [assumption|assumption|].
      apply flushed_writable. assumption.
    + rewrite !flushed_other by (apply Hneq; [discriminate|assumption]).
      apply flushed_same; [assumption|assumption|].
      repeat apply flushed_writable. assumption.
  - intros -> Hw1 Hw2 Hl1 Hl2. split.
    + rewrite !flushed_other by (apply Hneq; [discriminate|assumption]).
      apply flushed_same; [assumption|assumption|].
      repeat apply flushed_writable. assumption.
    + apply flushed_same; [assumption|assumption|].
      repeat apply flushed_writable. assumption.
Qed.

(** X21. Teardown writes a store file only under the flag of its own
    category.  With remove-remote, compress-images and compress-videos all
    off, and whether or not compress-all is on, teardown leaves the whole
    state, the disk included, as it was. *)
Theorem tear_down_without_category_flags
    (started : Started) (kill : string -> result unit) (s : State) :
  removeRemote cfg = false ->
  compressImages cfg = false ->
  compressVideos cfg = false ->
  _tear_down cfg started kill s = (Return tt, s).
Proof.
  intros H1 H2 H3. unfold _tear_down, try_except. rewrite H1, H2, H3.
  unfold bind, call_kill, ret.
  destruct (kill "megacopy.exe") as [[]|]; simpl; try reflexivity;
    destruct (kill "megals.exe") as [[]|]; simpl; try reflexivity;
    destruct (kill "megadf.exe") as [[]|]; simpl; try reflexivity;
    destruct (kill "ffmpeg.exe") as [[]|]; reflexivity.
Qed.

End Starting.

(** ** The accounts file *)

Section AccountsFile.

Variable archive_text : list (string * ndarray) -> string.

#[local] Abbreviation nl := (String newline EmptyString).

Lemma no_space_cons c s :
  no_space (String c s) = true ->
  Ascii.eqb c " "%char = false /\ Ascii.eqb c newline = false /\ no_space s = true.
Proof.
  simpl. intros H. apply andb_true_iff in H as [H H3].
  apply andb_true_iff in H as [H1 H2].
  apply negb_true_iff in H1. apply negb_true_iff in H2. auto.
Qed.

Lemma no_newline_cons c s :
  no_newline (String c s) = true ->
  Ascii.eqb c newline = false /\ no_newline s = true.
Proof.
  simpl. intros H. apply andb_true_iff in H as [H1 H2].
  apply negb_true_iff in H1. auto.
Qed.

Lemma no_space_no_newline s : no_space s = true -> no_newline s = true.
Proof.
  induction s as [|c s IH]; [reflexivity|]. intros H.
  apply no_space_cons in H as (_ & H2 & H3). simpl. rewrite H2, (IH H3). reflexivity.
Qed.

Lemma no_newline_app a b :
  no_newline a = true -> no_newline b = true -> no_newline (a +:+ b) = true.
Proof.
  intros Ha Hb. induction a as [|c a IH]; [exact Hb|].
  apply no_newline_cons in Ha as [H1 H2]. rewrite append_cons. simpl.
  rewrite H1, (IH H2). reflexivity.
Qed.

Lemma prefix_dash_not_space c s :
  Ascii.eqb c " "%char = false -> String.prefix " - " (String c s) = false.
Proof.
  intros H. cbn [String.prefix].
  destruct (ascii_dec " " c) as [<-|]; [discriminate H|reflexivity].
Qed.

(** *** [sub(' - .*', '', line)] *)

Lemma sub_dash_to_eol_cons dropping c s :
  sub_dash_to_eol dropping (String c s) =
    if Ascii.eqb c newline then String c (sub_dash_to_eol false s)
    else if dropping then sub_dash_to_eol true s
    else if String.prefix " - " (String c s) then sub_dash_to_eol true s
    else String c (sub_dash_to_eol false s).
Proof. reflexivity. Qed.

Lemma sub_dash_to_eol_no_space u r :
  no_space u = true ->
  sub_dash_to_eol false (u +:+ r) = u +:+ sub_dash_to_eol false r.
Proof.
  induction u as [|c u IH]; intros H; [reflexivity|].
  apply no_space_cons in H as (H1 & H2 & H3).
  rewrite !append_cons, sub_dash_to_eol_cons, H2, (prefix_dash_not_space _ _ H1).
  rewrite (IH H3). reflexivity.
Qed.

Lemma sub_dash_to_eol_dropping t r :
  no_newline t = true ->
  sub_dash_to_eol true (t +:+ r) = sub_dash_to_eol true r.
Proof.
  induction t as [|c t IH]; intros H; [reflexivity|].
  apply no_newline_cons in H as (H1 & H2).
  rewrite append_cons, sub_dash_to_eol_cons, H1. exact (IH H2).
Qed.

Lemma sub_dash_to_eol_separator r :
  sub_dash_to_eol false (" - " +:+ r) = sub_dash_to_eol true r.
Proof. destruct r; reflexivity. Qed.

Lemma sub_dash_to_eol_line u t :
  no_space u = true -> no_newline t = true ->
  sub_dash_to_eol false (u +:+ " - " +:+ t +:+ nl) = u +:+ nl.
Proof.
  intros Hu Ht. rewrite (sub_dash_to_eol_no_space _ _ Hu). f_equal.
  rewrite sub_dash_to_eol_separator.
  rewrite (sub_dash_to_eol_dropping t nl Ht). reflexivity.
Qed.

Lemma remove_newlines_no_newline t r :
  no_newline t = true -> remove_newlines (t +:+ r) = t +:+ remove_newlines r.
Proof.
  induction t as [|c t IH]; intros H; [reflexivity|].
  apply no_newline_cons in H as (H1 & H2).
  rewrite !append_cons. simpl. rewrite H1, (IH H2). reflexivity.
Qed.

Lemma remove_newlines_line t :
  no_newline t = true -> remove_newlines (t +:+ nl) = t.
Proof.
  intros H. rewrite (remove_newlines_no_newline _ _ H). simpl.
  clear. induction t as [|c t IH]; [reflexivity|].
  rewrite append_cons. f_equal. exact IH.
Qed.

(** *** [sub('.* - ', '', line)] *)

Lemma line_has_dash_cons c s :
  line_has_dash (String c s) =
    String.prefix " - " (String c s) ||
    (if Ascii.eqb c newline then false else line_has_dash s).
Proof. reflexivity. Qed.

Lemma sub_to_last_dash_cons pending c s :
  sub_to_last_dash pending (String c s) =
    if Ascii.eqb c newline then String c (sub_to_last_dash 0 s)
    else if String.prefix " - " (String c s) then sub_to_last_dash 2 s
    else if line_has_dash s then sub_to_last_dash 0 s
    else match pending with
         | S k => sub_to_last_dash k s
         | O => String c (sub_to_last_dash 0 s)
         end.
Proof. reflexivity. Qed.

Lemma line_has_dash_before t r :
  no_newline t = true -> line_has_dash (t +:+ " - " +:+ r) = true.
Proof.
  induction t as [|c t IH]; intros H.
  - rewrite append_nil. destruct r; reflexivity.
  - apply no_newline_cons in H as (H1 & H2).
    rewrite append_cons, line_has_dash_cons, H1, (IH H2). apply orb_true_r.
Qed.

Lemma line_has_dash_no_space p :
  no_space p = true -> line_has_dash (p +:+ nl) = false.
Proof.
  induction p as [|c p IH]; intros H; [reflexivity|].
  apply no_space_cons in H as (H1 & H2 & H3).
  rewrite append_cons, line_has_dash_cons, (prefix_dash_not_space _ _ H1), H2.
  exact (IH H3).
Qed.

Lemma prefix_dash_space_no_space p :
  no_space p = true -> String.prefix " - " (" " +:+ p +:+ nl) = false.
Proof.
  intros H. destruct p as [|c p]; [reflexivity|].
  apply no_space_cons in H as (H1 & H2 & H3).
  change (" " +:+ String c p +:+ nl) with (String " " (String c (p +:+ nl))).
  cbn [String.prefix].
  destruct (ascii_dec " " " ") as [_|n]; [|destruct n; reflexivity].
  destruct (ascii_dec "-" c) as [<-|]; [|reflexivity].
  destruct p as [|c' p]; [reflexivity|].
  apply no_space_cons in H3 as (H4 & _).
  rewrite append_cons. cbn [String.prefix].
  destruct (ascii_dec " " c') as [<-|]; [discriminate H4|reflexivity].
Qed.

Lemma sub_to_last_dash_before pending t r :
  no_newline t = true ->
  sub_to_last_dash pending (t +:+ " - " +:+ r) = sub_to_last_dash 2 ("- " +:+ r).
Proof.
  revert pending. induction t as [|c t IH]; intros pending H.
  - rewrite append_nil. destruct r; reflexivity.
  - apply no_newline_cons in H as (H1 & H2).
    rewrite append_cons, sub_to_last_dash_cons, H1.
    destruct (String.prefix " - " (String c (t +:+ " - " +:+ r))).
    + exact (IH 2 H2).
    + rewrite (line_has_dash_before _ _ H2). exact (IH 0 H2).
Qed.

Lemma sub_to_last_dash_no_space p :
  no_space p = true -> sub_to_last_dash 0 (p +:+ nl) = p +:+ nl.
Proof.
  induction p as [|c p IH]; intros H; [reflexivity|].
  apply no_space_cons in H as (H1 & H2 & H3).
  rewrite append_cons, sub_to_last_dash_cons, H2, (prefix_dash_not_space _ _ H1).
  rewrite (line_has_dash_no_space _ H3), (IH H3). reflexivity.
Qed.

Lemma sub_to_last_dash_line t p :
  no_newline t = true -> no_space p = true ->
  sub_to_last_dash 0 (t +:+ " - " +:+ p +:+ nl) = p +:+ nl.
Proof.
  intros Ht Hp. rewrite (sub_to_last_dash_before _ _ _ Ht).
  change ("- " +:+ p +:+ nl) with (String "-" (" " +:+ p +:+ nl)).
  rewrite sub_to_last_dash_cons.
  change (Ascii.eqb "-" newline) with false. cbv iota.
  change (String.prefix " - " (String "-" (" " +:+ p +:+ nl))) with false.
  cbv iota.
  assert (Hl : line_has_dash (" " +:+ p +:+ nl) = false).
  { change (" " +:+ p +:+ nl) with (String " " (p +:+ nl)).
    rewrite line_has_dash_cons.
    change (String " " (p +:+ nl)) with (" " +:+ p +:+ nl).
    rewrite (prefix_dash_space_no_space _ Hp).
    change (Ascii.eqb " " newline) with false. cbv iota.
    exact (line_has_dash_no_space _ Hp). }
  rewrite Hl.
  change (" " +:+ p +:+ nl) with (String " " (p +:+ nl)).
  rewrite sub_to_last_dash_cons.
  change (Ascii.eqb " " newline) with false. cbv iota.
  change (String " " (p +:+ nl)) with (" " +:+ p +:+ nl).
  rewrite (prefix_dash_space_no_space _ Hp), (line_has_dash_no_space _ Hp).
  exact (sub_to_last_dash_no_space _ Hp).
Qed.

(** *** The loop body on a line *)

Lemma contains_no_dash_line s :
  contains " - " s = false -> line_has_dash s = false.
Proof.
  induction s as [|c s IH]; intros H.
  - reflexivity.
  - rewrite contains_cons in H. apply orb_false_iff in H as [H1 H2].
    rewrite line_has_dash_cons, H1, (IH H2). destruct (Ascii.eqb c newline); reflexivity.
Qed.

Lemma sub_dash_to_eol_no_separator s :
  contains " - " s = false -> sub_dash_to_eol false s = s.
Proof.
  induction s as [|c s IH]; intros H; [reflexivity|].
  rewrite contains_cons in H. apply orb_false_iff in H as [H1 H2].
  rewrite sub_dash_to_eol_cons, H1, (IH H2).
  destruct (Ascii.eqb c newline); reflexivity.
Qed.

Lemma sub_to_last_dash_no_separator s :
  contains " - " s = false -> sub_to_last_dash 0 s = s.
Proof.
  induction s as [|c s IH]; intros H; [reflexivity|].
  rewrite contains_cons in H. apply orb_false_iff in H as [H1 H2].
  rewrite sub_to_last_dash_cons, H1, (contains_no_dash_line _ H2), (IH H2).
  destruct (Ascii.eqb c newline); reflexivity.
Qed.

Lemma account_of_line_separated found u t p :
  no_space u = true -> no_newline t = true -> no_space p = true ->
  contains "@" u = true ->
  account_of_line found (u +:+ " - " +:+ t +:+ " - " +:+ p +:+ nl)
    = found ++ [(u, p)].
Proof.
  intros Hu Ht Hp Hat. unfold account_of_line.
  assert (Hd : contains "-" (u +:+ " - " +:+ t +:+ " - " +:+ p +:+ nl) = true).
  { apply contains_split. exists (u +:+ " "), (" " +:+ t +:+ " - " +:+ p +:+ nl).
    rewrite !string_app_assoc. reflexivity. }
  assert (Ha : contains "@" (u +:+ " - " +:+ t +:+ " - " +:+ p +:+ nl) = true).
  { apply contains_split in Hat as (pre & post & ->).
    apply contains_split. exists pre, (post +:+ " - " +:+ t +:+ " - " +:+ p +:+ nl).
    rewrite !string_app_assoc. reflexivity. }
  rewrite Hd, Ha. cbn [andb].
  assert (Hrest : no_newline (t +:+ " - " +:+ p) = true).
  { apply no_newline_app; [exact Ht|].
    apply (no_newline_app " - "); [reflexivity|].
    apply no_space_no_newline, Hp. }
  assert (Huser : sub_dash_to_eol false (u +:+ " - " +:+ t +:+ " - " +:+ p +:+ nl)
                  = u +:+ nl).
  { rewrite <- (sub_dash_to_eol_line u (t +:+ " - " +:+ p) Hu Hrest).
    rewrite !string_app_assoc. reflexivity. }
  assert (Hfront : no_newline (u +:+ " - " +:+ t) = true).
  { apply no_newline_app; [apply no_space_no_newline, Hu|].
    apply (no_newline_app " - "); [reflexivity|exact Ht]. }
  assert (Hpass : sub_to_last_dash 0 (u +:+ " - " +:+ t +:+ " - " +:+ p +:+ nl)
                  = p +:+ nl).
  { replace (u +:+ " - " +:+ t +:+ " - " +:+ p +:+ nl)
      with ((u +:+ " - " +:+ t) +:+ " - " +:+ p +:+ nl)
      by (rewrite !string_app_assoc; reflexivity).
    exact (sub_to_last_dash_line (u +:+ " - " +:+ t) p Hfront Hp). }
  rewrite Huser, Hpass.
  rewrite (remove_newlines_line u), (remove_newlines_line p);
    auto using no_space_no_newline.
Qed.


(** *** The lines of an accounts file *)

Lemma readlines_line t rest :
  no_newline t = true ->
  readlines (t +:+ nl +:+ rest) = (t +:+ nl) :: readlines rest.
Proof.
  induction t as [|c t IH]; intros H.
  - rewrite !append_nil. rewrite append_cons, append_nil.
    cbn [readlines]. rewrite Ascii.eqb_refl. reflexivity.
  - apply no_newline_cons in H as (H1 & H2).
    change (String c t +:+ nl +:+ rest) with (String c (t +:+ nl +:+ rest)).
    change (String c t +:+ nl) with (String c (t +:+ nl)).
    cbn [readlines]. rewrite H1, (IH H2). reflexivity.
Qed.




(** X23.  A password that holds [" - "] is cut: of a line
    [<username> - <t> - <p>] the loop body of [_get_accounts_user_pass]
    keeps [<p>], what follows the last [" - "] of the line, as the password,
    and [<username>] as the user name. *)
Theorem password_is_cut_at_the_last_separator
    (found : list (string * string)) (u t p : string) :
  no_space u = true -> no_newline t = true -> no_space p = true ->
  contains "@" u = true ->
  account_of_line found (account_line (u, t +:+ " - " +:+ p)) = found ++ [(u, p)].
Proof.
  intros Hu Ht Hp Hat. unfold account_line. cbn [fst snd].
  rewrite <- (account_of_line_separated found u t p Hu Ht Hp Hat).
  rewrite !string_app_assoc. reflexivity.
Qed.

(** X24.  A line that holds a [-] and an [@] but no [" - "] is taken as an
    account all the same: both the user name and the password are the whole
    line without its newlines. *)
Theorem line_without_separator_is_user_and_password
    (found : list (string * string)) (line : string) :
  contains " - " line = false ->
  contains "-" line = true -> contains "@" line = true ->
  account_of_line found line
    = found ++ [(remove_newlines line, remove_newlines line)].
Proof.
  intros Hsep Hd Ha. unfold account_of_line. rewrite Hd, Ha. cbn [andb].
  rewrite (sub_dash_to_eol_no_separator _ Hsep), (sub_to_last_dash_no_separator _ Hsep).
  reflexivity.
Qed.

(** X25.  [_get_accounts_user_pass] never raises and never changes the disk;
    when the file cannot be opened (it is absent or a directory) the result
    is the empty list. *)
Theorem accounts_file_fails_soft (d : Disk) (file : string) :
  (exists accounts,
     _get_accounts_user_pass archive_text file d = (Return accounts, d)) /\
  (isfile d file = false ->
   _get_accounts_user_pass archive_text file d = (Return [], d)).
Proof.
  unfold _get_accounts_user_pass, try_except, bind, read_text, ret, isfile.
  destruct (files d !! file) as [[|[raw|members]]|]; cbn; split; eauto; discriminate.
Qed.

End AccountsFile.

(** ** The configuration file *)

Section ConfigImport.

Import ConfigFile.

Variable archive_text : list (string * ndarray) -> string.

#[local] Abbreviation nl := (String newline EmptyString).

(** *** [split('=', line)[1].strip()] *)

Lemma prefix_empty s : String.prefix EmptyString s = true.
Proof. destruct s; reflexivity. Qed.

Lemma prefix_char_cons c x s :
  String.prefix (String c EmptyString) (String x s) = Ascii.eqb c x.
Proof.
  cbn [String.prefix]. destruct (ascii_dec c x) as [->|n].
  - rewrite prefix_empty, Ascii.eqb_refl. reflexivity.
  - symmetry. apply Ascii.eqb_neq. exact n.
Qed.

Lemma contains_char_app c a b :
  contains (String c EmptyString) a = false ->
  contains (String c EmptyString) b = false ->
  contains (String c EmptyString) (a +:+ b) = false.
Proof.
  intros Ha Hb. induction a as [|x a IH]; [exact Hb|].
  rewrite contains_cons, prefix_char_cons in Ha.
  apply orb_false_iff in Ha as [H1 H2].
  rewrite append_cons, contains_cons, prefix_char_cons, H1, (IH H2). reflexivity.
Qed.

Lemma cut_char c a r :
  contains (String c EmptyString) a = false ->
  cut (String c EmptyString) (a +:+ String c r) = Some (a, r).
Proof.
  intros Ha. induction a as [|x a IH].
  - rewrite append_nil. exact (cut_at_prefix (String c EmptyString) r).
  - rewrite contains_cons, prefix_char_cons in Ha.
    apply orb_false_iff in Ha as [H1 H2].
    rewrite append_cons, cut_cons, prefix_char_cons, H1, (IH H2). reflexivity.
Qed.

Lemma split_at_no_match n pat s :
  contains pat s = false -> split_at n pat s = [s].
Proof.
  intros H. destruct n; [reflexivity|]. cbn [split_at].
  apply cut_none in H. rewrite H. reflexivity.
Qed.

Lemma length_app_cons a c r :
  exists n, String.length (a +:+ String c r) = S n.
Proof.
  destruct a as [|x a]; [rewrite append_nil|rewrite append_cons]; simpl; eauto.
Qed.

Lemma re_split_one_equals key r :
  contains "=" key = false -> contains "=" r = false ->
  re_split "=" (key +:+ String "=" r) = [key; r].
Proof.
  intros Hk Hr. unfold re_split.
  destruct (length_app_cons key "=" r) as [n ->].
  cbn [split_at]. rewrite (cut_char _ _ _ Hk), (split_at_no_match _ _ _ Hr).
  reflexivity.
Qed.

Lemma re_split_two_equals key a b :
  contains "=" key = false -> contains "=" a = false ->
  re_split "=" (key +:+ String "=" (a +:+ String "=" b)) !! 1%nat = Some a.
Proof.
  intros Hk Ha. unfold re_split.
  destruct (length_app_cons key "=" (a +:+ String "=" b)) as [n Hn].
  destruct (length_app_cons a "=" b) as [m Hm].
  assert (Hlen : exists k, n = S k).
  { clear - Hn Hm. revert n Hn. induction key as [|x key IH]; intros n Hn.
    - rewrite append_nil in Hn. simpl in Hn. rewrite Hm in Hn.
      injection Hn as <-. eauto.
    - rewrite append_cons in Hn. simpl in Hn. injection Hn as Hn.
      destruct (length_app_cons key "=" (a +:+ String "=" b)) as [k Hk].
      rewrite Hk in Hn. subst n. eauto. }
  destruct Hlen as [k ->]. rewrite Hn.
  cbn [split_at]. rewrite (cut_char _ _ _ Hk), (cut_char _ _ _ Ha). reflexivity.
Qed.

Lemma rstrip_line v : rstrip (v +:+ nl) = rstrip v.
Proof.
  induction v as [|c v IH]; [reflexivity|].
  change (String c v +:+ nl) with (String c (v +:+ nl)).
  cbn [rstrip]. rewrite IH. reflexivity.
Qed.

Lemma strip_value v : config_value v -> strip (v +:+ nl) = v.
Proof.
  intros (_ & _ & Hfirst & Hlast). unfold strip.
  destruct v as [|c v]; [reflexivity|].
  change (String c v +:+ nl) with (String c (v +:+ nl)).
  cbn [lstrip]. rewrite Hfirst.
  change (String c (v +:+ nl)) with (String c v +:+ nl).
  rewrite rstrip_line. exact Hlast.
Qed.

Lemma value_of_setting key v :
  contains "=" key = false -> config_value v ->
  value_of (setting_line key v) = Some v.
Proof.
  intros Hk Hv. unfold value_of, setting_line.
  change (key +:+ "=" +:+ v +:+ nl) with (key +:+ String "=" (v +:+ nl)).
  rewrite re_split_one_equals; [|exact Hk|].
  - cbn. rewrite (strip_value _ Hv). reflexivity.
  - destruct Hv as (_ & Hv & _). apply contains_char_app; [exact Hv|reflexivity].
Qed.

(** X26.  Of a line [key=a=b] the expression
    [split('=', line)[1].strip()], by which both import functions read
    every value, gives [a] stripped: what follows a second [=] is lost. *)
Theorem value_stops_at_the_second_equals (key a b : string) :
  contains "=" key = false -> contains "=" a = false ->
  value_of (key +:+ "=" +:+ a +:+ "=" +:+ b) = Some (strip a).
Proof.
  intros Hk Ha. unfold value_of.
  change (key +:+ "=" +:+ a +:+ "=" +:+ b)
    with (key +:+ String "=" (a +:+ String "=" b)).
  rewrite (re_split_two_equals _ _ _ Hk Ha). reflexivity.
Qed.

(** *** Tests on the head of a line *)

Lemma prefix_setting key v :
  String.prefix (key +:+ "=") (setting_line key v) = true.
Proof.
  unfold setting_line.
  rewrite <- (string_app_assoc key "=" (v +:+ nl)). apply prefix_app.
Qed.

Lemma prefix_header tag : String.prefix "[Profile" (header_line tag) = true.
Proof. apply prefix_app. Qed.

Ltac head_tests :=
  repeat match goal with
  | |- context [String.prefix ?p (setting_line ?k ?v)] =>
      first
        [ change (String.prefix p (setting_line k v)) with false
        | replace (String.prefix p (setting_line k v)) with true
            by (symmetry;
                first [exact (prefix_setting k v) | exact (prefix_app p _)]) ]
  | |- context [truthy (setting_line ?k ?v)] =>
      change (truthy (setting_line k v)) with true
  | |- context [String.prefix ?p (header_line ?t)] =>
      first
        [ change (String.prefix p (header_line t)) with false
        | rewrite (prefix_header t) ]
  | |- context [truthy (header_line ?t)] =>
      change (truthy (header_line t)) with true
  end.

(** *** Turns of the profile loop *)

Lemma resume_profile_end n profile :
  resume_profile (S n) [] profile = Some (profile, []).
Proof. reflexivity. Qed.

Lemma resume_profile_header n tag rest profile :
  resume_profile (S n) (header_line tag :: rest) profile = Some (profile, rest).
Proof.
  unfold resume_profile. cbn [readline fst snd profile_loop]. head_tests.
  reflexivity.
Qed.

Lemma resume_profile_name n v rest profile :
  config_value v ->
  resume_profile (S n) (setting_line "ProfileName" v :: rest) profile
    = resume_profile n rest
        (mkSyncProfileObj (Some v) (ConfigFile.username profile)
           (ConfigFile.password profile) (ConfigFile.pathMappings profile)).
Proof.
  intros Hv. unfold resume_profile. cbn [readline fst snd profile_loop].
  head_tests. rewrite (value_of_setting "ProfileName" v) by (reflexivity || exact Hv).
  cbn. destruct (readline rest). reflexivity.
Qed.

Lemma resume_profile_username n v rest profile :
  config_value v ->
  resume_profile (S n) (setting_line "Username" v :: rest) profile
    = resume_profile n rest
        (mkSyncProfileObj (ConfigFile.profileName profile) (Some v)
           (ConfigFile.password profile) (ConfigFile.pathMappings profile)).
Proof.
  intros Hv. unfold resume_profile. cbn [readline fst snd profile_loop].
  head_tests. rewrite (value_of_setting "Username" v) by (reflexivity || exact Hv).
  cbn. destruct (readline rest). reflexivity.
Qed.

Lemma resume_profile_password n v rest profile :
  config_value v ->
  resume_profile (S n) (setting_line "Password" v :: rest) profile
    = resume_profile n rest
        (mkSyncProfileObj (ConfigFile.profileName profile)
           (ConfigFile.username profile) (Some v)
           (ConfigFile.pathMappings profile)).
Proof.
  intros Hv. unfold resume_profile. cbn [readline fst snd profile_loop].
  head_tests. rewrite (value_of_setting "Password" v) by (reflexivity || exact Hv).
  cbn. destruct (readline rest). reflexivity.
Qed.

Lemma resume_profile_mapping n m rest profile :
  config_value (localPath m) -> config_value (remotePath m) ->
  resume_profile (S n) (mapping_lines m ++ rest) profile
    = resume_profile n rest
        (mkSyncProfileObj (ConfigFile.profileName profile)
           (ConfigFile.username profile) (ConfigFile.password profile)
           (ConfigFile.pathMappings profile ++ [m])).
Proof.
  intros Hl Hr. unfold resume_profile, mapping_lines.
  cbn [app readline fst snd profile_loop]. head_tests.
  rewrite (value_of_setting "LocalPath" _) by (reflexivity || exact Hl).
  cbn. head_tests.
  rewrite (value_of_setting "RemotePath" _) by (reflexivity || exact Hr).
  cbn. destruct m. destruct (readline rest). reflexivity.
Qed.

Lemma resume_profile_mappings ms :
  Forall (fun m => config_value (localPath m) /\ config_value (remotePath m)) ms ->
  forall n rest profile,
    resume_profile (length ms + n) (concat (mapping_lines <$> ms) ++ rest) profile
      = resume_profile n rest
          (mkSyncProfileObj (ConfigFile.profileName profile)
             (ConfigFile.username profile) (ConfigFile.password profile)
             (ConfigFile.pathMappings profile ++ ms)).
Proof.
  induction 1 as [|m ms [Hl Hr] _ IH]; intros n rest profile.
  - cbn [fmap list_fmap concat app length Nat.add]. rewrite app_nil_r.
    destruct profile; reflexivity.
  - cbn [fmap list_fmap concat length Nat.add]. rewrite <- app_assoc.
    rewrite (resume_profile_mapping _ _ _ _ Hl Hr), IH.
    cbn [ConfigFile.profileName ConfigFile.username ConfigFile.password
         ConfigFile.pathMappings].
    rewrite <- app_assoc. reflexivity.
Qed.

Lemma length_profile_lines p :
  length (profile_lines p) = (3 + 2 * length (MegaManager.pathMappings p))%nat.
Proof.
  unfold profile_lines.
  assert (H : forall ms : list PathMapping,
             length (concat (mapping_lines <$> ms)) = (2 * length ms)%nat).
  { induction ms as [|m ms IH]; [reflexivity|].
    cbn [fmap list_fmap concat]. rewrite length_app, IH.
    cbn [mapping_lines length]. lia. }
  cbn [length]. rewrite H. lia.
Qed.

Lemma resume_profile_lines p n rest :
  config_profile p ->
  resume_profile (3 + length (MegaManager.pathMappings p) + n) (profile_lines p ++ rest)
    (mkSyncProfileObj None None None [])
    = resume_profile n rest (built p).
Proof.
  intros (Hn & Hu & Hp & Hms). unfold profile_lines.
  cbn [app Nat.add].
  rewrite (resume_profile_name _ _ _ _ Hn), (resume_profile_username _ _ _ _ Hu),
    (resume_profile_password _ _ _ _ Hp), (resume_profile_mappings _ Hms).
  reflexivity.
Qed.

Lemma import_profile_lines p :
  config_profile p ->
  (forall tag rest,
     _import_config_profile_data (profile_lines p ++ header_line tag :: rest)
       = Some (built p, rest)) /\
  _import_config_profile_data (profile_lines p) = Some (built p, []).
Proof.
  intros Hp. split; [intros tag rest|].
  - change (_import_config_profile_data (profile_lines p ++ header_line tag :: rest))
      with (resume_profile
              (S (length (profile_lines p ++ header_line tag :: rest)))
              (profile_lines p ++ header_line tag :: rest)
              (mkSyncProfileObj None None None [])).
    rewrite length_app, length_profile_lines. cbn [length].
    replace (S (3 + 2 * length (MegaManager.pathMappings p) + S (length rest)))%nat
      with (3 + length (MegaManager.pathMappings p)
            + S (S (length (MegaManager.pathMappings p) + length rest)))%nat by lia.
    rewrite (resume_profile_lines _ _ _ Hp). apply resume_profile_header.
  - change (_import_config_profile_data (profile_lines p))
      with (resume_profile (S (length (profile_lines p))) (profile_lines p)
              (mkSyncProfileObj None None None [])).
    rewrite length_profile_lines.
    replace (S (3 + 2 * length (MegaManager.pathMappings p)))%nat
      with (3 + length (MegaManager.pathMappings p)
            + S (length (MegaManager.pathMappings p)))%nat by lia.
    rewrite <- (app_nil_r (profile_lines p)) at 1.
    rewrite (resume_profile_lines _ _ _ Hp). apply resume_profile_end.
Qed.

(** X27.  [_import_config_profile_data] reads one line too many: called on
    the lines of a profile that another profile's header follows, it
    returns the profile built from these lines and leaves the file after
    that header, which no one looks at again; at the end of the file it
    returns the profile and leaves nothing. *)
Theorem profile_import_takes_the_next_header
    (p : SyncProfile) (tag : string) (rest : list string) :
  config_profile p ->
  _import_config_profile_data (profile_lines p ++ header_line tag :: rest)
    = Some (built p, rest) /\
  _import_config_profile_data (profile_lines p) = Some (built p, []).
Proof.
  intros Hp. destruct (import_profile_lines p Hp) as [H1 H2]. split; auto.
Qed.

(** *** Turns of the file loop *)

Lemma resume_file_end n self : resume_file (S n) [] self = Some self.
Proof. reflexivity. Qed.

Lemma resume_file_header n tag lines self :
  resume_file (S n) (header_line tag :: lines) self
    = match _import_config_profile_data lines with
      | Some (profile, ins) => resume_file n ins (append_syncProfile profile self)
      | None => None
      end.
Proof.
  unfold resume_file. cbn [readline fst snd file_loop]. head_tests.
  destruct (_import_config_profile_data lines) as [[profile ins]|]; [|reflexivity].
  cbn. destruct (readline ins). reflexivity.
Qed.

Lemma resume_file_setting n key v rest self :
  In key setting_keys -> config_value v ->
  resume_file (S n) (setting_line key v :: rest) self
    = resume_file n rest (assign self (key, v)).
Proof.
  intros Hk Hv. unfold resume_file. cbn [readline fst snd file_loop].
  unfold setting_keys in Hk. cbn [In] in Hk.
  destruct Hk as [<-|[<-|[<-|[<-|[<-|[<-|[]]]]]]]; head_tests;
    rewrite (value_of_setting _ v) by (reflexivity || exact Hv);
    cbn; destruct (readline rest); reflexivity.
Qed.

Lemma resume_file_let n lines self :
  (let '(line, ins) := readline lines in file_loop n line ins self)
    = resume_file n lines self.
Proof. unfold resume_file. destruct (readline lines). reflexivity. Qed.

Lemma resume_file_skips_mappings ms :
  forall n rest self,
    resume_file (length (concat (mapping_lines <$> ms)) + n)
      (concat (mapping_lines <$> ms) ++ rest) self
      = resume_file n rest self.
Proof.
  induction ms as [|m ms IH]; intros n rest self; [reflexivity|].
  cbn [fmap list_fmap concat mapping_lines app length Nat.add].
  unfold resume_file at 1. cbn [readline fst snd file_loop]. head_tests. cbn.
  head_tests. cbn. rewrite resume_file_let. exact (IH n rest self).
Qed.

Lemma resume_file_skips_profile p n rest self :
  resume_file (length (profile_lines p) + n) (profile_lines p ++ rest) self
    = resume_file n rest self.
Proof.
  unfold profile_lines. cbn [app length Nat.add].
  unfold resume_file at 1. cbn [readline fst snd file_loop]. head_tests. cbn.
  head_tests. cbn. head_tests. cbn. rewrite resume_file_let.
  exact (resume_file_skips_mappings _ n rest self).
Qed.

(** *** The bound on the turns

    The loops end by what they read, not by the bound on their turns: any
    bound above the number of lines left gives the same result. *)

Lemma profile_loop_at_end k profile ins :
  profile_loop k EmptyString profile ins = Some (profile, ins).
Proof. destruct k; reflexivity. Qed.

Lemma file_loop_at_end k ins self : file_loop k EmptyString ins self = Some self.
Proof. destruct k; reflexivity. Qed.

Lemma profile_loop_turns n :
  forall m line profile ins,
    (length ins < n)%nat -> (length ins < m)%nat ->
    profile_loop n line profile ins = profile_loop m line profile ins.
Proof.
  induction n as [|n IH]; intros m line profile ins Hn Hm; [lia|].
  destruct m as [|m]; [lia|]. cbn [profile_loop].
  destruct (negb (String.prefix "[Profile" line) && truthy line); [|reflexivity].
  assert (Hnext : forall profile' (ins' : list string),
             (length ins' <= length ins)%nat ->
             (let '(line, fileObject) := readline ins' in
              profile_loop n line profile' fileObject)
             = (let '(line, fileObject) := readline ins' in
                profile_loop m line profile' fileObject)).
  { intros profile' [|l ins'] Hle; cbn [readline].
    - rewrite !profile_loop_at_end. reflexivity.
    - cbn [length] in Hle. apply IH; lia. }
  destruct (String.prefix "ProfileName=" line);
    [destruct (value_of line); cbn; [apply Hnext; lia|reflexivity]|].
  destruct (String.prefix "Username=" line);
    [destruct (value_of line); cbn; [apply Hnext; lia|reflexivity]|].
  destruct (String.prefix "Password=" line);
    [destruct (value_of line); cbn; [apply Hnext; lia|reflexivity]|].
  destruct (String.prefix "LocalPath" line); [|cbn; apply Hnext; lia].
  destruct (value_of line); cbn; [|reflexivity].
  destruct ins as [|l ins]; cbn [readline].
  - cbn. rewrite !profile_loop_at_end. reflexivity.
  - destruct (String.prefix "RemotePath" l);
      [destruct (value_of l); cbn; [|reflexivity]|cbn];
      apply Hnext; cbn [length]; lia.
Qed.

Lemma profile_loop_shorter n :
  forall line profile ins profile' ins',
    profile_loop n line profile ins = Some (profile', ins') ->
    (length ins' <= length ins)%nat.
Proof.
  induction n as [|n IH]; intros line profile ins profile' ins' H.
  - injection H as _ <-. lia.
  - cbn [profile_loop] in H.
    destruct (negb (String.prefix "[Profile" line) && truthy line);
      [|injection H as _ <-; lia].
    assert (Hnext : forall p (i : list string),
               (length i <= length ins)%nat ->
               (let '(line, fileObject) := readline i in
                profile_loop n line p fileObject) = Some (profile', ins') ->
               (length ins' <= length ins)%nat).
    { intros p [|l i] Hle; cbn [readline]; intros E; apply IH in E;
        cbn [length] in *; lia. }
    destruct (String.prefix "ProfileName=" line);
      [destruct (value_of line); cbn in H; [eapply Hnext; [|exact H]; lia|discriminate]|].
    destruct (String.prefix "Username=" line);
      [destruct (value_of line); cbn in H; [eapply Hnext; [|exact H]; lia|discriminate]|].
    destruct (String.prefix "Password=" line);
      [destruct (value_of line); cbn in H; [eapply Hnext; [|exact H]; lia|discriminate]|].
    destruct (String.prefix "LocalPath" line);
      [|cbn in H; eapply Hnext; [|exact H]; lia].
    destruct (value_of line); cbn in H; [|discriminate].
    destruct ins as [|l ins]; cbn [readline] in H.
    + cbn in H. rewrite profile_loop_at_end in H. injection H as _ <-. lia.
    + destruct (String.prefix "RemotePath" l);
        [destruct (value_of l); cbn in H; [|discriminate]|cbn in H];
        (eapply Hnext; [|exact H]; cbn [length]; lia).
Qed.

Lemma import_profile_shorter ins profile ins' :
  _import_config_profile_data ins = Some (profile, ins') ->
  (length ins' <= Nat.pred (length ins))%nat.
Proof.
  unfold _import_config_profile_data. destruct ins as [|l ins]; cbn [readline].
  - intros H. apply profile_loop_shorter in H. cbn [length] in *. lia.
  - intros H. apply profile_loop_shorter in H. cbn [length Nat.pred]. lia.
Qed.

Lemma file_loop_turns n :
  forall m line ins self,
    (length ins < n)%nat -> (length ins < m)%nat ->
    file_loop n line ins self = file_loop m line ins self.
Proof.
  induction n as [|n IH]; intros m line ins self Hn Hm; [lia|].
  destruct m as [|m]; [lia|]. cbn [file_loop].
  destruct (truthy line); [|reflexivity].
  assert (Hnext : forall self' (ins' : list string),
             (length ins' <= length ins)%nat ->
             (let '(line, ins) := readline ins' in file_loop n line ins self')
             = (let '(line, ins) := readline ins' in file_loop m line ins self')).
  { intros self' [|l ins'] Hle; cbn [readline].
    - rewrite !file_loop_at_end. reflexivity.
    - cbn [length] in Hle. apply IH; lia. }
  destruct (String.prefix "MEGATOOLS_DIR=" line);
    [destruct (value_of line); cbn; [apply Hnext; lia|reflexivity]|].
  destruct (String.prefix "FFMPEG_EXE_PATH=" line);
    [destruct (value_of line); cbn; [apply Hnext; lia|reflexivity]|].
  destruct (String.prefix "MEGA_ACCOUNTS=" line);
    [destruct (value_of line); cbn; [apply Hnext; lia|reflexivity]|].
  destruct (String.prefix "MEGA_ACCOUNTS_OUTPUT=" line);
    [destruct (value_of line); cbn; [apply Hnext; lia|reflexivity]|].
  destruct (String.prefix "[Profile" line).
  { destruct (_import_config_profile_data ins) as [[profile ins']|] eqn:E;
      cbn; [|reflexivity].
    apply Hnext. apply import_profile_shorter in E. lia. }
  destruct (String.prefix "LOCAL_ROOT=" line);
    [destruct (value_of line); cbn; [apply Hnext; lia|reflexivity]|].
  destruct (String.prefix "REMOTE_ROOT=" line);
    [destruct (value_of line); cbn; [apply Hnext; lia|reflexivity]|].
  cbn. apply Hnext. lia.
Qed.

(** *** Whole files *)

Lemma pair_ind {A} (P : list A -> Prop) :
  P [] -> (forall x, P [x]) -> (forall x y l, P l -> P (x :: y :: l)) ->
  forall l, P l.
Proof.
  intros H0 H1 H2 l.
  assert (H : P l /\ forall x, P (x :: l)); [|exact (proj1 H)].
  induction l as [|y l [IH1 IH2]]; [auto|]. split; [apply IH2|].
  intros x. apply H2, IH1.
Qed.

Lemma with_profiles_append p ps self :
  with_profiles ps (append_syncProfile p self) = with_profiles (p :: ps) self.
Proof.
  unfold with_profiles, append_syncProfile. cbn. rewrite <- app_assoc. reflexivity.
Qed.

Lemma with_profiles_one p self :
  append_syncProfile p self = with_profiles [p] self.
Proof. reflexivity. Qed.

Lemma with_profiles_nil self : with_profiles [] self = self.
Proof. unfold with_profiles. rewrite app_nil_r. destruct self; reflexivity. Qed.

Lemma resume_file_blocks blocks :
  Forall (fun b => config_profile (snd b)) blocks ->
  forall n self,
    (length (concat (profile_block <$> blocks)) < n)%nat ->
    resume_file n (concat (profile_block <$> blocks)) self
      = Some (with_profiles ((fun b => built (snd b)) <$> evens blocks) self).
Proof.
  induction blocks as [|[t1 p1]|[t1 p1] [t2 p2] blocks IH] using pair_ind;
    intros Hok n self Hn.
  - destruct n as [|n]; [inversion Hn|]. cbn. rewrite with_profiles_nil.
    reflexivity.
  - apply Forall_cons in Hok as [Hp1 _]. cbn [snd] in Hp1.
    cbn [fmap list_fmap concat profile_block fst snd app] in *.
    rewrite app_nil_r in *. cbn [length] in Hn.
    destruct n as [|n]; [inversion Hn|].
    rewrite resume_file_header, (proj2 (import_profile_lines p1 Hp1)).
    rewrite length_profile_lines in Hn.
    destruct n as [|n]; [lia|]. rewrite resume_file_end. reflexivity.
  - apply Forall_cons in Hok as [Hp1 Hok]. apply Forall_cons in Hok as [_ Hok].
    cbn [snd] in Hp1.
    cbn [fmap list_fmap concat profile_block fst snd app evens odds].
    cbn [fmap list_fmap concat profile_block fst snd app length] in Hn.
    rewrite !length_app in Hn. cbn [length] in Hn. rewrite length_app in Hn.
    destruct n as [|n]; [inversion Hn|].
    rewrite resume_file_header, (proj1 (import_profile_lines p1 Hp1)).
    replace n with (length (profile_lines p2) + (n - length (profile_lines p2)))%nat
      by lia.
    rewrite resume_file_skips_profile.
    rewrite (IH Hok) by lia.
    rewrite with_profiles_append. destruct blocks; reflexivity.
Qed.

Lemma resume_file_settings settings :
  Forall (fun kv => In (fst kv) setting_keys /\ config_value (snd kv)) settings ->
  forall n rest self,
    resume_file (length settings + n)
      (((fun kv => setting_line (fst kv) (snd kv)) <$> settings) ++ rest) self
      = resume_file n rest (foldl assign self settings).
Proof.
  induction 1 as [|[k v] settings [Hk Hv] _ IH]; intros n rest self;
    [reflexivity|].
  cbn [fst snd] in Hk, Hv.
  cbn [fmap list_fmap app length Nat.add foldl fst snd].
  rewrite (resume_file_setting _ _ _ _ _ Hk Hv). apply IH.
Qed.

(** *** The lines of a text *)

Lemma printable_no_newline v : all_chars printable v = true -> no_newline v = true.
Proof.
  induction v as [|c v IH]; [reflexivity|]. cbn [all_chars no_newline].
  intros H. apply andb_true_iff in H as [H1 H2]. rewrite (IH H2), andb_true_r.
  destruct (Ascii.eqb_spec c newline) as [->|]; [discriminate H1|reflexivity].
Qed.

Lemma readlines_join lines :
  Forall (fun l => exists t, l = t +:+ nl /\ no_newline t = true) lines ->
  readlines (join_lines lines) = lines.
Proof.
  induction 1 as [|l lines (t & -> & Ht) _ IH]; [reflexivity|].
  cbn [join_lines foldr]. fold (join_lines lines).
  rewrite string_app_assoc, (readlines_line _ _ Ht), IH. reflexivity.
Qed.

Lemma setting_line_proper key v :
  no_newline key = true -> config_value v ->
  exists t, setting_line key v = t +:+ nl /\ no_newline t = true.
Proof.
  intros Hk (Hv & _). exists (key +:+ "=" +:+ v). split.
  - unfold setting_line. rewrite !string_app_assoc. reflexivity.
  - apply no_newline_app; [exact Hk|].
    apply (no_newline_app "="); [reflexivity|apply printable_no_newline, Hv].
Qed.

Lemma profile_lines_proper p :
  config_profile p ->
  Forall (fun l => exists t, l = t +:+ nl /\ no_newline t = true) (profile_lines p).
Proof.
  intros (Hn & Hu & Hp & Hms). unfold profile_lines.
  repeat (apply Forall_cons; split;
          [apply setting_line_proper; [reflexivity|assumption]|]).
  induction Hms as [|m ms [Hl Hr] _ IH]; [constructor|].
  cbn [fmap list_fmap concat mapping_lines app].
  repeat (apply Forall_cons; split;
          [apply setting_line_proper; [reflexivity|assumption]|]).
  exact IH.
Qed.

Lemma blocks_proper blocks :
  Forall (fun b => no_newline (fst b) = true /\ config_profile (snd b)) blocks ->
  Forall (fun l => exists t, l = t +:+ nl /\ no_newline t = true)
    (concat (profile_block <$> blocks)).
Proof.
  induction 1 as [|[tag p] blocks [Ht Hp] _ IH]; [constructor|].
  cbn [fst snd] in Ht, Hp.
  cbn [fmap list_fmap concat profile_block fst snd app].
  apply Forall_cons; split.
  - exists ("[Profile" +:+ tag). split.
    + unfold header_line. rewrite !string_app_assoc. reflexivity.
    + apply (no_newline_app "[Profile"); [reflexivity|exact Ht].
  - apply Forall_app; split; [apply profile_lines_proper, Hp|exact IH].
Qed.

Lemma import_config_lines d path self lines :
  files d !! path = Some (File (Bytes (join_lines lines))) ->
  Forall (fun l => exists t, l = t +:+ nl /\ no_newline t = true) lines ->
  _import_config_file_data archive_text d path self
    = resume_file (S (length lines)) lines self.
Proof.
  intros Hfile Hlines. unfold _import_config_file_data, read_text.
  rewrite Hfile, (readlines_join _ Hlines). apply resume_file_let.
Qed.

(** X28.  Of the profiles of a configuration file only every other one is
    imported.  On a file made of profile blocks, a header [[Profile<tag>]
    and below it the lines [ProfileName=], [Username=], [Password=] and a
    [LocalPath=], [RemotePath=] pair per path mapping,
    [_import_config_file_data] appends to [syncProfiles] the first, the
    third, the fifth ... profile and no other, and assigns nothing else:
    the header of each profile in between was read by
    [_import_config_profile_data]. *)
Theorem every_other_profile_is_imported
    (d : Disk) (megaManager_configPath : string) (self : Attributes)
    (blocks : list (string * SyncProfile)) :
  files d !! megaManager_configPath
    = Some (File (Bytes (join_lines (concat (profile_block <$> blocks))))) ->
  Forall (fun b => no_newline (fst b) = true /\ config_profile (snd b)) blocks ->
  _import_config_file_data archive_text d megaManager_configPath self
    = Some (with_profiles ((fun b => built (snd b)) <$> evens blocks) self).
Proof.
  intros Hfile Hok.
  rewrite (import_config_lines _ _ _ _ Hfile (blocks_proper _ Hok)).
  apply resume_file_blocks; [|lia].
  eapply Forall_impl; [exact Hok|]. intros b [_ H]. exact H.
Qed.

(** X29.  On a configuration file of setting lines [KEY=value], with [KEY]
    one of [MEGATOOLS_DIR], [FFMPEG_EXE_PATH], [MEGA_ACCOUNTS],
    [MEGA_ACCOUNTS_OUTPUT], [LOCAL_ROOT] and [REMOTE_ROOT],
    [_import_config_file_data] makes the assignments of the lines in the
    order of the file, so that the last line of a key decides, and leaves
    the other attributes as they were. *)
Theorem settings_are_assigned_in_file_order
    (d : Disk) (megaManager_configPath : string) (self : Attributes)
    (settings : list (string * string)) :
  files d !! megaManager_configPath
    = Some (File (Bytes (join_lines
                           ((fun kv => setting_line (fst kv) (snd kv))
                              <$> settings)))) ->
  Forall (fun kv => In (fst kv) setting_keys /\ config_value (snd kv)) settings ->
  _import_config_file_data archive_text d megaManager_configPath self
    = Some (foldl assign self settings).
Proof.
  intros Hfile Hok.
  rewrite (import_config_lines _ _ _ _ Hfile).
  - rewrite length_fmap.
    replace (S (length settings)) with (length settings + 1)%nat by lia.
    rewrite <- (app_nil_r (_ <$> settings)).
    rewrite (resume_file_settings _ Hok). apply resume_file_end.
  - clear Hfile. induction Hok as [|[k v] settings [Hk Hv] _ IH]; [constructor|].
    cbn [fst snd] in Hk, Hv. cbn [fmap list_fmap fst snd].
    apply Forall_cons; split; [|exact IH].
    apply setting_line_proper; [|exact Hv].
    unfold setting_keys in Hk. cbn [In] in Hk.
    destruct Hk as [<-|[<-|[<-|[<-|[<-|[<-|[]]]]]]]; reflexivity.
Qed.

End ConfigImport.

(** ** The properties at concrete inputs *)

Section AtConcreteInputs.

Lemma list_store_round_trip_witness :
  exists items,
    fst (load_file_as_list (npz_name store_file)
           (snd (dump_list_into_file ["C:/pics/a.jpg"; "C:/pics/b.png"]
                   store_file empty_disk))) = Return items /\
    forall p, p ∈ items <-> p ∈ ["C:/pics/a.jpg"; "C:/pics/b.png"].
Proof.
  apply (list_store_round_trip empty_disk ["C:/pics/a.jpg"; "C:/pics/b.png"]
           store_file).
  - discriminate.
  - apply (bool_decide_unpack _). vm_compute. reflexivity.
  - repeat constructor.
  - vm_compute. reflexivity.
Defined.

Lemma load_file_as_list_fails_soft_witness :
  load_file_as_list store_file empty_disk = (Return [], empty_disk).
Proof.
  apply (proj2 (load_file_as_list_fails_soft empty_disk store_file)).
  vm_compute. reflexivity.
Defined.

Lemma prefix_guard_witness :
  delete_one cfg0 (sample_megaTools ["/Root/a/b/c.txt"] true)
    "ann@example.org" "secret" "C:/sync/a/b/c.txt"
    (set_removedRemoteFiles ["C:/sync/a/b"] (initial empty_disk))
  = (Return tt, set_removedRemoteFiles ["C:/sync/a/b"] (initial empty_disk)) /\
  exists s' added,
    _delete_remote_files_that_dont_exist_locally cfg0
      (sample_megaTools ["/Root/a/b/c.txt"] true) "ann@example.org" "secret"
      (set_removedRemoteFiles ["C:/sync/a/b"] (initial empty_disk))
    = (Return tt, s') /\
    removedRemoteFiles s' = ["C:/sync/a/b"] ++ added /\
    calls s' = [] ++ (RemoveRemoteFile "ann@example.org" "secret" <$> added) /\
    ("C:/sync/a/b/c.txt" ∉ added).
Proof.
  apply (prefix_guard cfg0 (sample_megaTools ["/Root/a/b/c.txt"] true)
           "ann@example.org" "secret"
           (set_removedRemoteFiles ["C:/sync/a/b"] (initial empty_disk))
           "C:/sync/a/b" "C:/sync/a/b/c.txt").
  - simpl. apply list_elem_of_here.
  - vm_compute. reflexivity.
Defined.


Lemma compression_skips_processed_files_witness :
  (exists s' new,
     _find_image_files_to_compress cfg0
       (sample_megaTools ["/Root/pic.jpg"] true) (sample_compressImages true true)
       "ann@example.org" "secret" "C:\sync" "/Root"
       (set_unableToCompressImageFiles ["C:/sync/pic.jpg"] (initial media_disk))
     = (Return tt, s') /\
     calls s' = [] ++ new /\
     (CompressImage "C:/sync/pic.jpg" ∉ new) /\
     ("C:/sync/pic.jpg" ∈ compressedImageFiles s' \/
      "C:/sync/pic.jpg" ∈ unableToCompressImageFiles s')) /\
  (exists r s' new,
     _find_video_files_to_compress cfg0
       (sample_megaTools ["/Root/clip.mp4"] true) (sample_ffmpeg true true)
       "ann@example.org" "secret" "C:\sync" "/Root"
       (set_compressedVideoFiles ["C:/sync/clip.mp4"] (initial media_disk))
     = (r, s') /\
     calls s' = [] ++ new /\
     (forall targetPath, CompressVideo "C:/sync/clip.mp4" targetPath ∉ new) /\
     ("C:/sync/clip.mp4" ∈ compressedVideoFiles s' \/
      "C:/sync/clip.mp4" ∈ unableToCompressVideoFiles s')).
Proof.
  split.
  - apply (proj1 (compression_skips_processed_files cfg0
             (sample_megaTools ["/Root/pic.jpg"] true)
             (sample_compressImages true true) (sample_ffmpeg true true)
             "ann@example.org" "secret" "C:\sync" "/Root"
             (set_unableToCompressImageFiles ["C:/sync/pic.jpg"]
                (initial media_disk))
             "C:/sync/pic.jpg")).
    right. simpl. apply list_elem_of_here.
  - apply (proj2 (compression_skips_processed_files cfg0
             (sample_megaTools ["/Root/clip.mp4"] true)
             (sample_compressImages true true) (sample_ffmpeg true true)
             "ann@example.org" "secret" "C:\sync" "/Root"
             (set_compressedVideoFiles ["C:/sync/clip.mp4"] (initial media_disk))
             "C:/sync/clip.mp4")).
    left. simpl. apply list_elem_of_here.
Defined.

Lemma export_at_most_once_and_once_when_finished_witness :
  exports (snd (_wait_for_threads_to_finish 0 polls_all_finished 99999 gathering))
  = exports gathering + 1.
Proof.
  apply (proj2 (export_at_most_once_and_once_when_finished 0 polls_all_finished
                  99999 gathering)).
  - discriminate.
  - vm_compute. reflexivity.
Defined.

Lemma compression_flag_precedence_witness :
  exists s',
    run_create_threads cfg_compress (initial empty_disk) = (Return tt, s') /\
    "thread_compressImages" ∈ thread_names s' /\
    ("thread_compressVideos" ∉ thread_names s').
Proof.
  destruct (compression_flag_precedence cfg_compress (initial empty_disk))
    as (s' & E & H & _).
  - reflexivity.
  - intros H. discriminate H.
  - exists s'. split; [exact E|]. apply H; reflexivity.
Defined.

Lemma get_items_narrowing_witness :
  get_items_in_list_with_subString
    (get_items_in_list_with_subString
       ["C:/sync/a.jpg"; "C:/sync/b.mp4"; "D:/c.jpg"] "jpg") ".jpg"
  = get_items_in_list_with_subString
      ["C:/sync/a.jpg"; "C:/sync/b.mp4"; "D:/c.jpg"] ".jpg".
Proof.
  apply (get_items_narrowing ["C:/sync/a.jpg"; "C:/sync/b.mp4"; "D:/c.jpg"]
           "jpg" ".jpg").
  vm_compute. reflexivity.
Defined.

Lemma get_remote_path_none_witness :
  get_remote_path_from_local_path "D:\other\a.txt" "C:\sync" "/Root" = None.
Proof.
  refine (proj2 (get_remote_path_none "D:\other\a.txt" "C:\sync" "/Root" _ _) _).
  - discriminate.
  - reflexivity.
  - vm_compute. reflexivity.
Defined.

Lemma get_remote_path_under_root_witness :
  get_remote_path_from_local_path ("C:\sync" +:+ "\a\b.txt") "C:\sync" "/Root"
  = Some ("/Root" +:+ slashes "\a\b.txt").
Proof.
  apply (get_remote_path_under_root "C:\sync" "\a\b.txt" "/Root").
  - discriminate.
  - reflexivity.
  - vm_compute. reflexivity.
Defined.

Lemma remote_local_remote_witness :
  local_file_path (sample_megaTools ["/Root/a/b.txt"] true) (slashes "C:\sync")
    "/Root" "/Root/a/b.txt" = slashes "C:\sync" +:+ "/a/b.txt" /\
  get_remote_path_from_local_path
    (local_file_path (sample_megaTools ["/Root/a/b.txt"] true)
       (slashes "C:\sync") "/Root" "/Root/a/b.txt") "C:\sync" "/Root"
  = Some ("/Root" +:+ "/a/b.txt").
Proof.
  apply (remote_local_remote (sample_megaTools ["/Root/a/b.txt"] true)
           "C:\sync" "/Root" "/a/b.txt" "/Root/a/b.txt").
  - discriminate.
  - discriminate.
  - reflexivity.
  - reflexivity.
  - reflexivity.
  - vm_compute. reflexivity.
  - vm_compute. reflexivity.
  - vm_compute. reflexivity.
Defined.

Lemma next_run_loads_the_removed_set_witness :
  removedRemoteFiles
    (snd (_create_threads_removed_remote_file_deletion cfg0
            (snd (_delete_remote_files_that_dont_exist_locally cfg0
                    (sample_megaTools ["/Root/x.jpg"] true)
                    "ann@example.org" "secret" (initial empty_disk)))))
  = removedRemoteFiles
      (snd (_delete_remote_files_that_dont_exist_locally cfg0
              (sample_megaTools ["/Root/x.jpg"] true)
              "ann@example.org" "secret" (initial empty_disk))).
Proof.
  apply (next_run_loads_the_removed_set cfg0
           (sample_megaTools ["/Root/x.jpg"] true)
           "ann@example.org" "secret" (initial empty_disk)).
  - vm_compute. reflexivity.
  - vm_compute. discriminate.
  - vm_compute. repeat constructor.
  - reflexivity.
Defined.

Lemma wait_ends_when_threads_have_finished_witness :
  fst (_wait_for_threads_to_finish 0 polls_all_finished 99999 gathering)
  = Finished /\
  threads (snd (_wait_for_threads_to_finish 0 polls_all_finished 99999 gathering))
  = [] /\
  exports (snd (_wait_for_threads_to_finish 0 polls_all_finished 99999 gathering))
  = exports gathering + 1.
Proof.
  destruct (wait_ends_when_threads_have_finished 0 polls_all_finished 99999
              gathering) as (H1 & H2 & H3).
  - unfold polls_all_finished.
    repeat (constructor;
            [split; [reflexivity|split; [vm_compute; discriminate
                                        |intros; reflexivity]]|]).
    constructor.
  - vm_compute. lia.
  - split; [exact H1|split; [exact H2|apply H3; discriminate]].
Defined.

Lemma turn_on_finished_threads_leaves_every_other_witness :
  poll_threads (length three_threads) (fun _ => false) 0 three_threads false
  = ([mkThread 1 "thread_upload"], false).
Proof.
  apply (turn_on_finished_threads_leaves_every_other (fun _ => false)
           three_threads).
  - reflexivity.
  - apply (bool_decide_unpack _). vm_compute. reflexivity.
Defined.

Lemma no_export_while_gatherers_run_witness :
  fst (_wait_for_threads_to_finish 0 polls_all_running 99999 gathering) = Waiting /\
  exports (snd (_wait_for_threads_to_finish 0 polls_all_running 99999 gathering))
  = exports gathering /\
  threads (snd (_wait_for_threads_to_finish 0 polls_all_running 99999 gathering))
  = threads gathering ++ concat (spawned <$> polls_all_running).
Proof.
  apply (no_export_while_gatherers_run 0 polls_all_running 99999 gathering
           "ann" (mkThread 1 "thread_megaFile_ann")).
  - unfold polls_all_running.
    repeat (constructor;
            [split; [vm_compute; discriminate|intros; reflexivity]|]).
    constructor.
  - apply (bool_decide_unpack _). vm_compute. reflexivity.
  - reflexivity.
Defined.

Lemma tear_down_persists_the_enabled_sets_witness :
  stored_list
    (disk (snd (_tear_down cfg0 all_started (fun _ => Return tt) end_of_run)))
    (REMOVED_REMOTE_FILES cfg0) = ["C:/sync/old.txt"] /\
  stored_list
    (disk (snd (_tear_down cfg0 all_started (fun _ => Return tt) end_of_run)))
    (UNABLE_TO_COMPRESS_IMAGES_FILE cfg0) = ["C:/sync/bad.png"] /\
  stored_list
    (disk (snd (_tear_down cfg0 all_started (fun _ => Return tt) end_of_run)))
    (COMPRESSED_VIDEOS_FILE cfg0) = ["C:/sync/clip_NEW.mp4"].
Proof.
  destruct (tear_down_persists_the_enabled_sets cfg0 all_started
              (fun _ => Return tt) end_of_run) as (H1 & H2 & H3).
  - repeat split; reflexivity.
  - split; [|split].
    + apply H1; [reflexivity|vm_compute; reflexivity|vm_compute; repeat constructor].
    + apply H2;
        [reflexivity|vm_compute; reflexivity|vm_compute; reflexivity
        |vm_compute; repeat constructor|vm_compute; repeat constructor].
    + apply H3;
        [reflexivity|vm_compute; reflexivity|vm_compute; reflexivity
        |vm_compute; repeat constructor|vm_compute; repeat constructor].
Defined.

Lemma tear_down_without_category_flags_witness :
  _tear_down cfg_idle all_started (fun _ => Raise WindowsError) end_of_run
  = (Return tt, end_of_run).
Proof.
  apply (tear_down_without_category_flags cfg_idle all_started
           (fun _ => Raise WindowsError) end_of_run); reflexivity.
Defined.


Lemma password_is_cut_at_the_last_separator_witness :
  account_of_line [] (account_line ("ann@example.org", "my" +:+ " - " +:+ "secret"))
  = [] ++ [("ann@example.org", "secret")].
Proof.
  apply (password_is_cut_at_the_last_separator [] "ann@example.org" "my" "secret");
    reflexivity.
Defined.

Lemma line_without_separator_is_user_and_password_witness :
  account_of_line [] "ann-marie@example.org"
  = [] ++ [(remove_newlines "ann-marie@example.org",
            remove_newlines "ann-marie@example.org")].
Proof.
  apply (line_without_separator_is_user_and_password [] "ann-marie@example.org");
    reflexivity.
Defined.

Lemma value_stops_at_the_second_equals_witness :
  ConfigFile.value_of ("Password" +:+ "=" +:+ "ab" +:+ "=" +:+ "cd")
  = Some (strip "ab").
Proof.
  apply (value_stops_at_the_second_equals "Password" "ab" "cd"); reflexivity.
Defined.

Lemma profile_import_takes_the_next_header_witness :
  ConfigFile._import_config_profile_data
    (profile_lines profile_bob ++ header_line "2]" :: profile_lines profile_cy)
  = Some (built profile_bob, profile_lines profile_cy) /\
  ConfigFile._import_config_profile_data (profile_lines profile_bob)
  = Some (built profile_bob, []).
Proof.
  apply (profile_import_takes_the_next_header profile_bob "2]"
           (profile_lines profile_cy)).
  vm_compute. repeat constructor.
Defined.

Lemma every_other_profile_is_imported_witness :
  ConfigFile._import_config_file_data no_archive_text profiles_disk config_file
    no_attributes
  = Some (with_profiles
            ((fun b => built (snd b)) <$> evens three_blocks) no_attributes).
Proof.
  apply (every_other_profile_is_imported no_archive_text profiles_disk
           config_file no_attributes three_blocks).
  - vm_compute. reflexivity.
  - vm_compute. repeat constructor.
Defined.

Lemma settings_are_assigned_in_file_order_witness :
  ConfigFile._import_config_file_data no_archive_text settings_disk config_file
    no_attributes
  = Some (foldl assign no_attributes three_settings).
Proof.
  apply (settings_are_assigned_in_file_order no_archive_text settings_disk
           config_file no_attributes three_settings).
  - vm_compute. reflexivity.
  - unfold three_settings.
    repeat (constructor;
            [split; [cbn; auto 10|vm_compute; repeat constructor]|]).
    constructor.
Defined.

Lemma pruning_run_effect_witness :
  let s' := snd (_delete_remote_files_that_dont_exist_locally cfg0
                   (sample_megaTools ["/Root/x.jpg"; "/Root/pic.jpg"] true)
                   "ann@example.org" "secret" (initial media_disk)) in
  exists added,
    removedRemoteFiles s' = removedRemoteFiles (initial media_disk) ++ added /\
    calls s' = calls (initial media_disk)
               ++ (RemoveRemoteFile "ann@example.org" "secret" <$> added) /\
    (forall q, q ∈ added ->
       exists_ (disk (initial media_disk)) q = false /\
       exists remote_filePath,
         remote_filePath ∈ get_remote_file_paths_recursively
                             (sample_megaTools ["/Root/x.jpg"; "/Root/pic.jpg"] true)
                             "ann@example.org" "secret" (remoteRoot cfg0) /\
         q = pruning_local_path cfg0 remote_filePath) /\
    (compressedImageFiles s' = compressedImageFiles (initial media_disk) /\
     unableToCompressImageFiles s'
       = unableToCompressImageFiles (initial media_disk) /\
     compressedVideoFiles s' = compressedVideoFiles (initial media_disk) /\
     unableToCompressVideoFiles s'
       = unableToCompressVideoFiles (initial media_disk) /\
     compressedFiles s' = compressedFiles (initial media_disk) /\
     threads s' = threads (initial media_disk)).
Proof.
  apply (pruning_run_effect cfg0
           (sample_megaTools ["/Root/x.jpg"; "/Root/pic.jpg"] true)
           "ann@example.org" "secret" (initial media_disk)).
  reflexivity.
Defined.

Lemma image_pipeline_transcodes_eligible_files_witness :
  exists s' called,
    _find_image_files_to_compress cfg0
      (sample_megaTools ["/Root/pic.jpg"; "/Root/clip.mp4"] true)
      (sample_compressImages true true)
      "ann@example.org" "secret" "C:\sync" "/Root" (initial media_disk)
    = (Return tt, s') /\
    calls s' = calls (initial media_disk) ++ (CompressImage <$> called) /\
    (forall q, q ∈ called ->
       (q ∉ compressedImageFiles (initial media_disk)) /\
       (q ∉ unableToCompressImageFiles (initial media_disk)) /\
       exists line,
         line ∈ get_remote_file_data_recursively
                  (sample_megaTools ["/Root/pic.jpg"; "/Root/clip.mp4"] true)
                  "ann@example.org" "secret" "/Root" /\
         image_eligible
           (sample_megaTools ["/Root/pic.jpg"; "/Root/clip.mp4"] true) line
         = true /\
         q = local_file_path
               (sample_megaTools ["/Root/pic.jpg"; "/Root/clip.mp4"] true)
               (slashes "C:\sync") "/Root" line).
Proof.
  apply (image_pipeline_transcodes_eligible_files cfg0
           (sample_megaTools ["/Root/pic.jpg"; "/Root/clip.mp4"] true)
           (sample_compressImages true true)
           "ann@example.org" "secret" "C:\sync" "/Root" (initial media_disk)).
  reflexivity.
Defined.

Lemma image_worker_effect_witness :
  exists s' called appended,
    _all_profiles_image_compression cfg0
      (sample_megaTools ["/Root/pic.jpg"; "/Root/clip.mp4"] true)
      (sample_compressImages false false) (initial media_disk)
    = (Return tt, s') /\
    calls s' = calls (initial media_disk) ++ (CompressImage <$> called) /\
    unableToCompressImageFiles s'
    = unableToCompressImageFiles (initial media_disk) ++ appended /\
    (forall q, q ∈ appended -> q ∈ called) /\
    (NoDup (unableToCompressImageFiles (initial media_disk)) ->
     NoDup (unableToCompressImageFiles s')) /\
    compressedImageFiles s' = compressedImageFiles (initial media_disk) /\
    compressedVideoFiles s' = compressedVideoFiles (initial media_disk) /\
    unableToCompressVideoFiles s'
    = unableToCompressVideoFiles (initial media_disk) /\
    removedRemoteFiles s' = removedRemoteFiles (initial media_disk) /\
    threads s' = threads (initial media_disk).
Proof.
  apply (image_worker_effect cfg0
           (sample_megaTools ["/Root/pic.jpg"; "/Root/clip.mp4"] true)
           (sample_compressImages false false) (initial media_disk)).
  repeat constructor.
Defined.

Lemma video_pipeline_effect_witness :
  exists r s' called recorded,
    _find_video_files_to_compress cfg0
      (sample_megaTools ["/Root/pic.jpg"; "/Root/clip.mp4"] true)
      (sample_ffmpeg true true)
      "ann@example.org" "secret" "C:\sync" "/Root" (initial media_disk)
    = (r, s') /\
    calls s' = calls (initial media_disk)
               ++ ((fun q => CompressVideo q (new_file_path q)) <$> called) /\
    compressedVideoFiles s'
    = compressedVideoFiles (initial media_disk) ++ (new_file_path <$> recorded) /\
    (forall q, q ∈ recorded -> q ∈ called) /\
    (forall q, q ∈ called ->
       (q ∉ unableToCompressVideoFiles (initial media_disk)) /\
       exists line,
         line ∈ get_remote_file_data_recursively
                  (sample_megaTools ["/Root/pic.jpg"; "/Root/clip.mp4"] true)
                  "ann@example.org" "secret" "/Root" /\
         video_eligible
           (sample_megaTools ["/Root/pic.jpg"; "/Root/clip.mp4"] true) line
         = true /\
         q = local_file_path
               (sample_megaTools ["/Root/pic.jpg"; "/Root/clip.mp4"] true)
               (slashes "C:\sync") "/Root" line).
Proof.
  apply (video_pipeline_effect cfg0
           (sample_megaTools ["/Root/pic.jpg"; "/Root/clip.mp4"] true)
           (sample_ffmpeg true true)
           "ann@example.org" "secret" "C:\sync" "/Root" (initial media_disk)).
  reflexivity.
Defined.

Lemma video_worker_effect_witness :
  exists r s',
    _all_profiles_video_compression cfg0
      (sample_megaTools ["/Root/pic.jpg"; "/Root/clip.mp4"] true)
      (sample_ffmpeg false true) (initial media_disk) = (r, s') /\
    (r = Return tt \/ r = Raise WindowsError) /\
    compressedImageFiles s' = compressedImageFiles (initial media_disk) /\
    unableToCompressImageFiles s'
    = unableToCompressImageFiles (initial media_disk) /\
    unableToCompressVideoFiles s'
    = unableToCompressVideoFiles (initial media_disk) /\
    compressedFiles s' = compressedFiles (initial media_disk) /\
    removedRemoteFiles s' = removedRemoteFiles (initial media_disk) /\
    threads s' = threads (initial media_disk).
Proof.
  apply (video_worker_effect cfg0
           (sample_megaTools ["/Root/pic.jpg"; "/Root/clip.mp4"] true)
           (sample_ffmpeg false true) (initial media_disk)).
  repeat constructor.
Defined.

End AtConcreteInputs.
